(** * Employee POS batch updater: model of [automationadmin]

    The program drives a browser (Playwright) against a remote admin
    console.  The browser and the remote site are modelled as an arbitrary
    deterministic responder ([Remote]): every page operation is answered
    with a return value or a raised exception, and changes the responder's
    hidden state.  The program itself is written in a small
    state/exception/writer monad [M]: a computation maps the responder's
    state to an outcome, the new state and the list of events it emitted,
    in chronological order.

    Conventions:
    - an exception is its text [str(e)]; all exceptions are instances of
      [Exception], as those of Playwright and the program's own
      [ValueError]s are (interrupts and task cancellation are outside
      the model);
    - strings are byte strings; [strip] and [lower] know the ASCII
      whitespace and letters;
    - the trace records, besides the page operations with their replies
      and the log lines, the entry and exit of [login], [refresh_page]
      and [update_employee_pos] and the start of every round of the
      retry loop; these records have no effect on the run;
    - [while True] is a loop on fuel; the fuel [run_updates] supplies is
      proved sufficient ([run_updates_total]);
    - the sheet that [pd.read_excel] returns is a list of labelled
      columns of cell texts; the files and the environment the commands
      of cli.py work on are, like the site, an arbitrary deterministic
      responder ([Host]). *)

From Stdlib Require Import String Ascii List ZArith QArith Bool Lia.
From Stdlib Require Import DecimalString.
Import ListNotations.

Open Scope string_scope.
Open Scope Z_scope.

(** ** Python values *)

(** An exception caught by [except Exception as e] is represented by its
    text [str(e)]; nothing else of it is ever used by the program.
    Playwright's errors and the program's own [ValueError]s are all
    subclasses of [Exception]. *)
Definition exn := string.

(** [str | None] *)
Definition optstr := option string.

(** [str(n)] for an [int] *)
Definition str_of_int (n : Z) : string := NilZero.string_of_int (Z.to_int n).

(** [str(b)] for a [bool], as an f-string renders it *)
Definition str_of_bool (b : bool) : string := if b then "True" else "False".

(** Truthiness of an [int] *)
Definition truthy (n : Z) : bool := negb (n =? 0).

(** [range(n)] *)
Definition range (n : nat) : list Z := map Z.of_nat (seq 0 n).

(** *** [str.strip], [str.lower], [str in str]

    Strings are byte strings; the whitespace and letter classes are the
    ASCII ones. *)

Definition is_space (c : ascii) : bool :=
  let n := nat_of_ascii c in
  ((9 <=? n) && (n <=? 13) || (28 <=? n) && (n <=? 32))%nat.

Fixpoint lstrip (s : string) : string :=
  match s with
  | String c s' => if is_space c then lstrip s' else s
  | EmptyString => EmptyString
  end.

Fixpoint rev_string (acc s : string) : string :=
  match s with
  | EmptyString => acc
  | String c s' => rev_string (String c acc) s'
  end.

Definition rstrip (s : string) : string :=
  rev_string "" (lstrip (rev_string "" s)).

Definition strip (s : string) : string := rstrip (lstrip s).

Definition lower_char (c : ascii) : ascii :=
  let n := nat_of_ascii c in
  if ((65 <=? n) && (n <=? 90))%nat then ascii_of_nat (n + 32) else c.

Fixpoint lower (s : string) : string :=
  match s with
  | EmptyString => EmptyString
  | String c s' => String (lower_char c) (lower s')
  end.

(** [sub in s] *)
Fixpoint contains (sub s : string) : bool :=
  prefix sub s ||
  match s with
  | EmptyString => false
  | String _ s' => contains sub s'
  end.

(** ** config.py *)

Module config.

Record Timeouts := {
  default : Z;
  navigation : Z
}.

Definition Timeouts_default : Timeouts :=
  {| default := 15000; navigation := 20000 |}.

Record Selectors := {
  username_input : string;
  password_input : string;
  login_submit : string;
  search_input : string;
  search_submit : string;
  employee_row : string;
  edit_button : string;
  pos_input : string;
  save_button : string
}.

Record AppConfig := {
  base_url : string;
  login_url : string;
  employee_search_url : string;
  selectors : Selectors;
  timeouts : Timeouts;
  retries : Z;
  retry_backoff_seconds : Q
}.

(** [AppConfig(...)] with the optional fields left at their defaults *)
Definition AppConfig_default (base login search : string) (sel : Selectors)
  : AppConfig :=
  {| base_url := base; login_url := login; employee_search_url := search;
     selectors := sel; timeouts := Timeouts_default;
     retries := 2; retry_backoff_seconds := 2%Q |}.

Record Credentials := {
  username : string;
  password : string
}.

End config.

Import config.

(** ** automation.py: data *)

Record UpdateResult := {
  employee_id : string;
  pos_id : string;
  success : bool;
  old_pos : optstr;
  new_pos : optstr;
  error : optstr
}.

(** ** The browser and the remote site *)

(** Awaited operations that return [None]. *)
Inductive action :=
| PlaywrightStart
| Launch (headless : bool) (slow_mo : option Z)
| NewContext
| NewPage
| ContextClose
| BrowserClose
| PlaywrightStop
| Goto (url wait_until : string)
| Fill (selector value : string)
| Click (selector : string)
| WaitForLoadState (st : string) (timeout : option Z)
| WaitForTimeout (ms : Z)
| WaitForSelector (selector : string) (timeout : Z)
| Screenshot (path : string)
| FirstRowClick (row_selector inner : string).

(** Awaited operations that return a string. *)
Inductive reader :=
| FirstInnerText (selector : string)
| InputValue (selector : string).

(** Operations that cannot fail. *)
Inductive signal :=
| OnceDialogAccept
| Sleep (seconds : Q).

Inductive reply (A : Type) :=
| Returned (a : A)
| Raised (e : exn).
Arguments Returned {A} a.
Arguments Raised {A} e.

Record Remote := {
  World : Type;
  act : action -> World -> reply unit * World;
  count : string -> World -> reply Z * World;
  read : reader -> World -> reply string * World;
  notify : signal -> World -> World
}.

(** ** Events *)

Inductive level := Info | Warning | Error.

Inductive fname :=
| FLogin
| FRefreshPage
| FUpdateEmployeePos (employee_id pos_id : string).

Inductive event :=
| EAct (a : action) (r : reply unit)
| ECount (selector : string) (r : reply Z)
| ERead (q : reader) (r : reply string)
| ESignal (s : signal)
| ELog (l : level) (msg : string)
| EEnter (f : fname)
| ELeave (f : fname) (raised : option exn)
| EAttempt (employee_id pos_id : string) (attempt : Z).

(** ** The monad *)

Inductive outcome (A : Type) :=
| Return (a : A)
| Raise (e : exn)
| OutOfFuel.
Arguments Return {A} a.
Arguments Raise {A} e.
Arguments OutOfFuel {A}.

Record exec (W A : Type) := Exec {
  result : outcome A;
  final : W;
  trace : list event
}.
Arguments Exec {W A}.
Arguments result {W A}.
Arguments final {W A}.
Arguments trace {W A}.

Definition lift {A} (r : reply A) : outcome A :=
  match r with
  | Returned a => Return a
  | Raised e => Raise e
  end.

Definition raised_of {A} (o : outcome A) : option exn :=
  match o with
  | Raise e => Some e
  | _ => None
  end.

Inductive loop_step (A : Type) :=
| Break (a : A)
| Continue (attempt : Z).
Arguments Break {A} a.
Arguments Continue {A} attempt.

Section Program.

Variable site : Remote.

Definition M (A : Type) : Type := World site -> exec (World site) A.

Definition ret {A} (a : A) : M A := fun w => Exec (Return a) w [].

Definition raise {A} (e : exn) : M A := fun w => Exec (Raise e) w [].

Definition diverge {A} : M A := fun w => Exec OutOfFuel w [].

Definition bind {A B} (m : M A) (k : A -> M B) : M B := fun w =>
  let r := m w in
  match result r with
  | Return a =>
      let r' := k a (final r) in
      Exec (result r') (final r') (trace r ++ trace r')
  | Raise e => Exec (Raise e) (final r) (trace r)
  | OutOfFuel => Exec OutOfFuel (final r) (trace r)
  end.

(** [try: m / except Exception as e: h e] *)
Definition try_except {A} (m : M A) (h : exn -> M A) : M A := fun w =>
  let r := m w in
  match result r with
  | Raise e =>
      let r' := h e (final r) in
      Exec (result r') (final r') (trace r ++ trace r')
  | _ => r
  end.

(** [try: m / finally: f], also the exit of [async with]: [f] runs
    whatever [m] did; when [f] raises, its exception replaces the
    outcome of [m]. *)
Definition try_finally {A} (m : M A) (f : M unit) : M A := fun w =>
  let r := m w in
  match result r with
  | OutOfFuel => r
  | o =>
      let r' := f (final r) in
      Exec (match result r' with
            | Return _ => o
            | Raise e => Raise e
            | OutOfFuel => OutOfFuel
            end) (final r') (trace r ++ trace r')
  end.

Definition emit (e : event) : M unit := fun w => Exec (Return tt) w [e].

Definition perform (a : action) : M unit := fun w =>
  let (r, w') := act site a w in Exec (lift r) w' [EAct a r].

Definition locator_count (selector : string) : M Z := fun w =>
  let (r, w') := count site selector w in Exec (lift r) w' [ECount selector r].

Definition obtain (q : reader) : M string := fun w =>
  let (r, w') := read site q w in Exec (lift r) w' [ERead q r].

Definition tell (s : signal) : M unit := fun w =>
  Exec (Return tt) (notify site s w) [ESignal s].

(** Entry and exit of a function of the program, recorded in the trace;
    [EEnter], [ELeave] and [EAttempt] are observation points only: the
    responder never sees them. *)
Definition traced {A} (f : fname) (m : M A) : M A := fun w =>
  let r := m w in
  Exec (result r) (final r)
       (EEnter f :: trace r ++ [ELeave f (raised_of (result r))]).

End Program.

Arguments ret {site A} a.
Arguments raise {site A} e.
Arguments diverge {site A}.
Arguments bind {site A B} m k.
Arguments try_except {site A} m h.
Arguments try_finally {site A} m f.
Arguments emit {site} e.
Arguments perform {site} a.
Arguments locator_count {site} selector.
Arguments obtain {site} q.
Arguments tell {site} s.
Arguments traced {site A} f m.

Declare Scope prog_scope.
Delimit Scope prog_scope with prog.
Notation "x <- m ;; k" := (bind m (fun x => k))
  (at level 61, m at next level, right associativity) : prog_scope.
Notation "m ;; k" := (bind m (fun _ => k))
  (at level 61, right associativity) : prog_scope.
Open Scope prog_scope.

(** ** automation.py: the program *)

Section Automation.

Variable site : Remote.

Definition logger_info (msg : string) : M site unit := emit (ELog Info msg).
Definition logger_warning (msg : string) : M site unit := emit (ELog Warning msg).
Definition logger_error (msg : string) : M site unit := emit (ELog Error msg).

(** [if step_delay_ms: await page.wait_for_timeout(step_delay_ms)] *)
Definition step_delay (step_delay_ms : Z) : M site unit :=
  if truthy step_delay_ms then perform (WaitForTimeout step_delay_ms)
  else ret tt.

Definition login (cfg : AppConfig) (creds : Credentials) : M site unit :=
  traced FLogin (
    perform (Goto (login_url cfg) "domcontentloaded") ;;
    perform (Fill (username_input (selectors cfg)) (username creds)) ;;
    perform (Fill (password_input (selectors cfg)) (password creds)) ;;
    perform (Click (login_submit (selectors cfg))) ;;
    perform (WaitForLoadState "networkidle" None)).

Definition refresh_page (cfg : AppConfig) : M site unit :=
  traced FRefreshPage (
    logger_info "Refreshing page to ensure clean state..." ;;
    perform (Goto (employee_search_url cfg) "domcontentloaded") ;;
    perform (WaitForTimeout 2000)).

(** *** [update_employee_pos] *)

Definition no_data_selector : string := "text=Không có dữ liệu".

Definition row_xpath (employee_id : string) : string :=
  "//tr[.//td[normalize-space()='" ++ employee_id ++ "']]".

Definition max_retries : Z := 3.

Definition no_permission_msg (employee_id : string) : string :=
  "User not found or no permission to access employee_id: " ++ employee_id.

Definition row_not_found_msg (employee_id : string) (e : exn) : string :=
  "Could not find employee row for " ++ employee_id ++ " after "
  ++ str_of_int max_retries ++ " retries: " ++ e.

Definition wrong_user_msg (employee_id sharing_key_value : string) : string :=
  "Form shows wrong user: expected '" ++ employee_id ++ "', got '"
  ++ sharing_key_value ++ "'".

(** [for retry in range(max_retries): try: wait_for_selector; break
    except Exception as e: ...] (lines 73-91).  The handler either
    raises (last round) or lets the loop go on. *)
Fixpoint wait_for_row (employee_id : string) (rounds : list Z) : M site unit :=
  match rounds with
  | [] => ret tt
  | retry :: rounds' =>
      broke <- try_except
        (perform (WaitForSelector (row_xpath employee_id) 10000) ;;
         ret true)
        (fun e =>
           (if retry =? max_retries - 1 then
              perform (Screenshot ("debug_search_" ++ employee_id ++ "_"
                                   ++ str_of_int retry ++ ".png")) ;;
              no_data_check <- locator_count no_data_selector ;;
              if no_data_check >? 0 then raise (no_permission_msg employee_id)
              else raise (row_not_found_msg employee_id e)
            else ret tt) ;;
           logger_warning ("Retry " ++ str_of_int (retry + 1) ++ "/"
                           ++ str_of_int max_retries
                           ++ " waiting for search results for " ++ employee_id) ;;
           perform (WaitForTimeout 2000) ;;
           perform (Click "#doSearch") ;;
           perform (WaitForTimeout 3000) ;;
           ret false) ;;
      if broke : bool then ret tt else wait_for_row employee_id rounds'
  end.

Definition update_employee_pos (cfg : AppConfig) (employee_id pos_id : string)
    (step_delay_ms : Z) : M site string :=
  traced (FUpdateEmployeePos employee_id pos_id) (
    perform (Goto (employee_search_url cfg) "domcontentloaded") ;;
    step_delay step_delay_ms ;;
    perform (Fill "#sharing_key" "") ;;
    perform (WaitForTimeout 500) ;;
    perform (Fill "#sharing_key" employee_id) ;;
    step_delay step_delay_ms ;;
    perform (Click "#doSearch") ;;
    try_except (perform (WaitForLoadState "networkidle" (Some 20000)))
      (fun _ => logger_warning "Network idle timeout, continuing anyway...") ;;
    no_data_text <- locator_count no_data_selector ;;
    (if no_data_text >? 0 then
       perform (Screenshot ("debug_no_data_" ++ employee_id ++ ".png")) ;;
       raise (no_permission_msg employee_id)
     else ret tt) ;;
    step_delay step_delay_ms ;;
    wait_for_row employee_id (range (Z.to_nat max_retries)) ;;
    row_text <- obtain (FirstInnerText (row_xpath employee_id)) ;;
    logger_info ("Search result row chosen for " ++ employee_id ++ ": "
                 ++ substring 0 200 row_text ++ "...") ;;
    perform (FirstRowClick (row_xpath employee_id)
                           "input[name='sharing_partner_rad']") ;;
    step_delay step_delay_ms ;;
    perform (Click "#goEdit") ;;
    perform (WaitForLoadState "domcontentloaded" None) ;;
    step_delay step_delay_ms ;;
    sharing_key_value <- obtain (InputValue "#sharing_key") ;;
    (if negb (strip sharing_key_value =? employee_id)%string then
       raise (wrong_user_msg employee_id sharing_key_value)
     else ret tt) ;;
    logger_info ("Verified form shows correct user: " ++ employee_id) ;;
    perform (WaitForSelector "#info" (default (timeouts cfg))) ;;
    old_value <- obtain (InputValue "#info") ;;
    perform (Fill "#info" "") ;;
    perform (Fill "#info" pos_id) ;;
    logger_info (employee_id ++ ": POS info will change from '" ++ old_value
                 ++ "' to '" ++ pos_id ++ "'") ;;
    step_delay step_delay_ms ;;
    tell OnceDialogAccept ;;
    perform (Click "#doEdit") ;;
    perform (WaitForLoadState "networkidle" None) ;;
    step_delay step_delay_ms ;;
    ret old_value).

(** *** [run_updates] *)

Section RunUpdates.

Variables (cfg : AppConfig) (dry_run : bool) (retries : Z)
          (retry_backoff_seconds : Q) (step_delay_ms : Z).

Definition succeeded (employee_id pos_id : string) (old_value : optstr)
  : UpdateResult :=
  {| employee_id := employee_id; pos_id := pos_id; success := true;
     old_pos := old_value; new_pos := Some pos_id; error := None |}.

Definition failed (employee_id pos_id : string) (e : exn) : UpdateResult :=
  {| employee_id := employee_id; pos_id := pos_id; success := false;
     old_pos := None; new_pos := None; error := Some e |}.

(** One round of [while True] (lines 147-165): the [try] block, and the
    handler, which either gives up or prepares the next round.  The start
    of the round is recorded in the trace with the value of [attempt]. *)
Definition attempt_once (employee_id pos_id : string) (attempt : Z)
    (results : list UpdateResult) : M site (loop_step (list UpdateResult)) :=
  emit (EAttempt employee_id pos_id attempt) ;;
  try_except
    (logger_info ("Updating employee_id=" ++ employee_id ++ " -> pos_id="
                  ++ pos_id ++ " (dry_run=" ++ str_of_bool dry_run ++ ")") ;;
     if negb dry_run then
       old_value <- update_employee_pos cfg employee_id pos_id step_delay_ms ;;
       ret (Break (results ++ [succeeded employee_id pos_id (Some old_value)])%list)
     else
       ret (Break (results ++ [succeeded employee_id pos_id None])%list))
    (fun e =>
       let attempt := attempt + 1 in
       if attempt >? retries then
         logger_error ("Failed updating " ++ employee_id ++ ": " ++ e) ;;
         ret (Break (results ++ [failed employee_id pos_id e])%list)
       else
         logger_warning ("Retry " ++ str_of_int attempt ++ "/"
                         ++ str_of_int retries ++ " for " ++ employee_id
                         ++ " after error: " ++ e) ;;
         refresh_page cfg ;;
         tell (Sleep retry_backoff_seconds) ;;
         ret (Continue attempt)).

(** [while True], unrolled [fuel] times. *)
Fixpoint attempt_loop (fuel : nat) (employee_id pos_id : string) (attempt : Z)
    (results : list UpdateResult) : M site (list UpdateResult) :=
  match fuel with
  | O => diverge
  | S fuel' =>
      step <- attempt_once employee_id pos_id attempt results ;;
      match step with
      | Break results' => ret results'
      | Continue attempt' =>
          attempt_loop fuel' employee_id pos_id attempt' results
      end
  end.

(** Rounds that [while True] can take from [attempt] on: the handler
    leaves the loop as soon as the incremented counter exceeds
    [retries]. *)
Definition rounds_left (attempt : Z) : nat := S (Z.to_nat (retries - attempt)).

(** [for i, (employee_id, pos_id) in enumerate(rows)] (lines 141-165) *)
Fixpoint for_rows (i : Z) (rows : list (string * string))
    (results : list UpdateResult) : M site (list UpdateResult) :=
  match rows with
  | [] => ret results
  | (employee_id, pos_id) :: rows' =>
      (if i >? 0 then refresh_page cfg else ret tt) ;;
      results' <- attempt_loop (rounds_left 0) employee_id pos_id 0 results ;;
      for_rows (i + 1) rows' results'
  end.

End RunUpdates.

Definition run_updates (cfg : AppConfig) (creds : Credentials)
    (rows : list (string * string)) (headless dry_run : bool)
    (retries : option Z) (retry_backoff_seconds : option Q)
    (step_delay_ms slowmo_ms : Z) : M site (list UpdateResult) :=
  let retries := match retries with None => config.retries cfg | Some r => r end in
  let retry_backoff_seconds :=
    match retry_backoff_seconds with
    | None => config.retry_backoff_seconds cfg
    | Some b => b
    end in
  perform PlaywrightStart ;;
  try_finally
    (perform (Launch headless (if slowmo_ms >? 0 then Some slowmo_ms else None)) ;;
     perform NewContext ;;
     perform NewPage ;;
     try_finally
       (logger_info "Logging in to admin site..." ;;
        login cfg creds ;;
        logger_info "Login successful" ;;
        for_rows cfg dry_run retries retry_backoff_seconds step_delay_ms
                 0 rows [])
       (perform ContextClose ;;
        perform BrowserClose))
    (perform PlaywrightStop).

End Automation.

(** ** cli.py: partition of the failures in [run] (lines 128-137) *)

(** [str(r.error)] *)
Definition str_of_optstr (o : optstr) : string :=
  match o with
  | Some s => s
  | None => "None"
  end.

(** The test of line 134. *)
Definition permission_denied_error (r : UpdateResult) : bool :=
  contains "no permission" (lower (str_of_optstr (error r)))
  || contains "not found" (lower (str_of_optstr (error r))).

(** [for r in results: ...], with the two lists it appends to. *)
Fixpoint partition_failures (results : list UpdateResult)
    (permission_denied_users : list string) (other_failures : list UpdateResult)
  : list string * list UpdateResult :=
  match results with
  | [] => (permission_denied_users, other_failures)
  | r :: results' =>
      if negb (success r) then
        if permission_denied_error r then
          partition_failures results'
            (permission_denied_users ++ [employee_id r]) other_failures
        else
          partition_failures results'
            permission_denied_users (other_failures ++ [r])
      else partition_failures results' permission_denied_users other_failures
  end.

(** The rows [_write_permission_denied_csv] writes after the header. *)
Definition permission_denied_rows (denied_users : list string)
  : list (string * string) :=
  map (fun emp_id => (emp_id, "No permission to access user")) denied_users.

(** Lines 128-141 of [run]: the report is written only when the list is
    not empty ([None]: no report). *)
Definition permission_denied_report (results : list UpdateResult)
  : option (list (string * string)) :=
  match fst (partition_failures results [] []) with
  | [] => None
  | permission_denied_users => Some (permission_denied_rows permission_denied_users)
  end.

(** The test as the specification words it: the error text matches
    "not found" or "permission". *)
Definition spec_permission_match (r : UpdateResult) : bool :=
  contains "not found" (lower (str_of_optstr (error r)))
  || contains "permission" (lower (str_of_optstr (error r))).

(** ** Row selection: the meaning of [row_xpath] and [.first]

    The result list is a sequence of [tr] rows in document order, each a
    sequence of [td] cells given by their text.  [row_xpath employee_id]
    is the XPath 1.0 expression
    [//tr[.//td[normalize-space()='employee_id']]]: the rows with some
    cell whose whitespace-normalised text equals the literal. *)

Definition row := list string.

(** XPath whitespace: space, tab, line feed, carriage return. *)
Definition is_xml_space (c : ascii) : bool :=
  let n := nat_of_ascii c in
  ((n =? 32) || (n =? 9) || (n =? 10) || (n =? 13))%nat.

(** [normalize-space()]: leading and trailing whitespace removed, inner
    runs replaced by one space.  [emitted]: a character has been output;
    [gap]: whitespace was skipped since. *)
Fixpoint normalize_from (emitted gap : bool) (s : string) : string :=
  match s with
  | EmptyString => EmptyString
  | String c s' =>
      if is_xml_space c then normalize_from emitted emitted s'
      else if gap then String " " (String c (normalize_from true false s'))
      else String c (normalize_from true false s')
  end.

Definition normalize_space (s : string) : string := normalize_from false false s.

(** [tr[.//td[normalize-space()='employee_id']]] *)
Definition row_matches (employee_id : string) (r : row) : bool :=
  existsb (fun td => (normalize_space td =? employee_id)%string) r.

(** [page.locator(row_xpath)]: the matching rows, in document order. *)
Definition locator_rows (employee_id : string) (listing : list row) : list row :=
  filter (row_matches employee_id) listing.

(** [.first] *)
Definition first {A} (l : list A) : option A := hd_error l.

(** The row whose radio button [update_employee_pos] clicks (lines 93-97). *)
Definition selected_row (employee_id : string) (listing : list row) : option row :=
  first (locator_rows employee_id listing).

(** The only selection the program makes: the radio button inside the
    first row located by [row_xpath employee_id] (lines 93-97). *)
Definition selects_first_match (employee_id : string) (ev : event) : bool :=
  match ev with
  | EAct (FirstRowClick sel inner) _ =>
      (sel =? row_xpath employee_id)%string
      && (inner =? "input[name='sharing_partner_rad']")%string
  | _ => true
  end.

(** The reading of the specification: the row is found by its
    identifying (first) cell. *)
Definition identity_cell_is (employee_id : string) (r : row) : bool :=
  match r with
  | td :: _ => (td =? employee_id)%string
  | [] => false
  end.

(** ** A simulated admin console

    A stand-in for the remote UI: a search page with one filter field and
    a submit action, a result list whose rows expose an identity cell and
    a selection control, an edit page with an identity field and one
    editable target field, a save action, a "no data" indicator.  It is
    one responder among all those the theorems quantify over, and serves
    to run the program on concrete inputs. *)

Record console := {
  directory : list row;          (* the employees the account can see *)
  box : string;                  (* content of the filter field *)
  listing : list row;            (* the rendered result list *)
  searched : bool;               (* a search has been submitted *)
  chosen : option row;           (* the row whose radio is selected *)
  form : option (string * string); (* edit form: identity and target field *)
  saved : list (string * string);  (* (identity, value) pairs saved *)
  outage : nat                   (* navigations to the search page that will fail *)
}.

Fixpoint drop_prefix (p s : string) : option string :=
  match p, s with
  | EmptyString, _ => Some s
  | String a p', String b s' => if Ascii.eqb a b then drop_prefix p' s' else None
  | String _ _, EmptyString => None
  end.

Definition drop_suffix (p s : string) : option string :=
  option_map (rev_string "") (drop_prefix (rev_string "" p) (rev_string "" s)).

(** The literal of a selector of the shape of [row_xpath]. *)
Definition parse_row_xpath (selector : string) : option string :=
  match drop_prefix "//tr[.//td[normalize-space()='" selector with
  | Some rest => drop_suffix "']]" rest
  | None => None
  end.

Definition timeout_error : exn := "Timeout 10000ms exceeded.".

Definition console_act (search_url : string) (a : action) (c : console)
  : reply unit * console :=
  match a with
  | Goto url _ =>
      if (url =? search_url)%string then
        match outage c with
        | S n =>
            (Raised "net::ERR_CONNECTION_RESET",
             {| directory := directory c; box := box c; listing := listing c;
                searched := searched c; chosen := chosen c; form := form c;
                saved := saved c; outage := n |})
        | O =>
            (Returned tt,
             {| directory := directory c; box := ""; listing := [];
                searched := false; chosen := None; form := None;
                saved := saved c; outage := O |})
        end
      else (Returned tt, c)
  | Fill selector value =>
      if (selector =? "#sharing_key")%string then
        (Returned tt,
         {| directory := directory c; box := value; listing := listing c;
            searched := searched c; chosen := chosen c; form := form c;
            saved := saved c; outage := outage c |})
      else if (selector =? "#info")%string then
        match form c with
        | Some (ident, _) =>
            (Returned tt,
             {| directory := directory c; box := box c; listing := listing c;
                searched := searched c; chosen := chosen c;
                form := Some (ident, value);
                saved := saved c; outage := outage c |})
        | None => (Raised timeout_error, c)
        end
      else (Returned tt, c)
  | Click selector =>
      if (selector =? "#doSearch")%string then
        (Returned tt,
         {| directory := directory c; box := box c;
            listing := filter (existsb (contains (box c))) (directory c);
            searched := true; chosen := None; form := form c;
            saved := saved c; outage := outage c |})
      else if (selector =? "#goEdit")%string then
        match chosen c with
        | Some (ident :: info :: _) =>
            (Returned tt,
             {| directory := directory c; box := box c; listing := listing c;
                searched := searched c; chosen := chosen c;
                form := Some (ident, info);
                saved := saved c; outage := outage c |})
        | _ => (Raised timeout_error, c)
        end
      else if (selector =? "#doEdit")%string then
        match form c with
        | Some entry =>
            (Returned tt,
             {| directory := directory c; box := box c; listing := listing c;
                searched := searched c; chosen := chosen c; form := None;
                saved := saved c ++ [entry]; outage := outage c |})
        | None => (Raised timeout_error, c)
        end
      else (Returned tt, c)
  | WaitForSelector selector _ =>
      match parse_row_xpath selector with
      | Some literal =>
          if existsb (row_matches literal) (listing c) then (Returned tt, c)
          else (Raised timeout_error, c)
      | None =>
          if (selector =? "#info")%string then
            match form c with
            | Some _ => (Returned tt, c)
            | None => (Raised timeout_error, c)
            end
          else (Returned tt, c)
      end
  | FirstRowClick selector _ =>
      match parse_row_xpath selector with
      | Some literal =>
          match selected_row literal (listing c) with
          | Some r =>
              (Returned tt,
               {| directory := directory c; box := box c; listing := listing c;
                  searched := searched c; chosen := Some r; form := form c;
                  saved := saved c; outage := outage c |})
          | None => (Raised timeout_error, c)
          end
      | None => (Raised timeout_error, c)
      end
  | _ => (Returned tt, c)
  end.

(** The "no data" indicator shows after a search without results. *)
Definition console_count (selector : string) (c : console) : reply Z * console :=
  if (selector =? no_data_selector)%string then
    (Returned (if searched c && (length (listing c) =? 0)%nat then 1 else 0), c)
  else (Returned 0, c).

Definition console_read (q : reader) (c : console) : reply string * console :=
  match q with
  | FirstInnerText selector =>
      match parse_row_xpath selector with
      | Some literal =>
          match selected_row literal (listing c) with
          | Some r => (Returned (String.concat " " r), c)
          | None => (Raised timeout_error, c)
          end
      | None => (Raised timeout_error, c)
      end
  | InputValue selector =>
      match form c with
      | Some (ident, info) =>
          if (selector =? "#sharing_key")%string then (Returned ident, c)
          else if (selector =? "#info")%string then (Returned info, c)
          else (Raised timeout_error, c)
      | None =>
          if (selector =? "#sharing_key")%string then (Returned (box c), c)
          else (Raised timeout_error, c)
      end
  end.

Definition admin_console (search_url : string) : Remote :=
  {| World := console;
     act := console_act search_url;
     count := console_count;
     read := console_read;
     notify := fun _ c => c |}.

(** A console showing [employees], with [n] failing navigations ahead. *)
Definition console_with (employees : list row) (n : nat) : console :=
  {| directory := employees; box := ""; listing := []; searched := false;
     chosen := None; form := None; saved := []; outage := n |}.

(** *** A configuration for the examples *)

Definition example_selectors : Selectors :=
  {| username_input := "#username"; password_input := "#password";
     login_submit := "#login"; search_input := "#sharing_key";
     search_submit := "#doSearch"; employee_row := "tr";
     edit_button := "#goEdit"; pos_input := "#info"; save_button := "#doEdit" |}.

Definition example_cfg : AppConfig :=
  AppConfig_default "https://admin.example" "https://admin.example/login"
                    "https://admin.example/search" example_selectors.

Definition example_creds : Credentials :=
  {| username := "admin"; password := "secret" |}.

Definition example_site : Remote := admin_console "https://admin.example/search".

Definition example_employees : list row :=
  [["E1"; "P0"; "Ann"]; ["E2"; "P9"; "Bob"]; ["E10"; "P3"; "Cho"]].

Definition example_rows : list (string * string) :=
  [("E1", "P1"); ("E3", "P7"); ("E2", "P2")].

(** ** Observations on traces *)

Definition is_refresh (ev : event) : bool :=
  match ev with EEnter FRefreshPage => true | _ => false end.

Definition is_update_call (ev : event) : bool :=
  match ev with EEnter (FUpdateEmployeePos _ _) => true | _ => false end.

Definition is_sleep (ev : event) : bool :=
  match ev with ESignal (Sleep _) => true | _ => false end.

Definition is_attempt (ev : event) : bool :=
  match ev with EAttempt _ _ _ => true | _ => false end.

Definition is_login (ev : event) : bool :=
  match ev with EEnter FLogin => true | _ => false end.

Definition count_events (p : event -> bool) (t : list event) : nat :=
  length (filter p t).

(** The retries taken: each one is announced by its back-off sleep
    (line 165), which happens nowhere else. *)
Definition retry_count (t : list event) : nat := count_events is_sleep t.

(** How each call of [update_employee_pos] ended, in order: [None] for a
    return, [Some e] for an exception. *)
Fixpoint update_exits (t : list event) : list (option exn) :=
  match t with
  | [] => []
  | ELeave (FUpdateEmployeePos _ _) r :: t' => r :: update_exits t'
  | _ :: t' => update_exits t'
  end.

(** For every attempt in the trace, the number of calls of [refresh_page]
    since the attempt before it ([pending] counts those seen so far). *)
Fixpoint resets_before (pending : nat) (t : list event) : list nat :=
  match t with
  | [] => []
  | ev :: t' =>
      if is_attempt ev then pending :: resets_before 0 t'
      else if is_refresh ev then resets_before (S pending) t'
      else resets_before pending t'
  end.

(** The calls of [refresh_page] after the last attempt of the trace. *)
Fixpoint resets_pending (pending : nat) (t : list event) : nat :=
  match t with
  | [] => pending
  | ev :: t' =>
      if is_attempt ev then resets_pending 0 t'
      else if is_refresh ev then resets_pending (S pending) t'
      else resets_pending pending t'
  end.

(** An operation on the target field [#info] of the edit form, or the
    save. *)
Definition touches_target (ev : event) : bool :=
  match ev with
  | EAct (WaitForSelector sel _) _ => (sel =? "#info")%string
  | EAct (Fill sel _) _ => (sel =? "#info")%string
  | EAct (Click sel) _ => (sel =? "#doEdit")%string
  | ERead (InputValue sel) _ => (sel =? "#info")%string
  | ESignal OnceDialogAccept => true
  | _ => false
  end.

(** Page operations, log lines and the dialog handler: what the bodies
    of [login], [refresh_page] and [update_employee_pos] emit. *)
Definition page_event (ev : event) : bool :=
  match ev with
  | EAct _ _ | ECount _ _ | ERead _ _ | ELog _ _
  | ESignal OnceDialogAccept => true
  | _ => false
  end.

(** The events of [update_employee_pos]: its entry and exit, page
    operations, log lines and the dialog handler. *)
Definition update_event (ev : event) : bool :=
  match ev with
  | EAct _ _ | ECount _ _ | ERead _ _ | ELog _ _
  | ESignal OnceDialogAccept
  | EEnter (FUpdateEmployeePos _ _) | ELeave (FUpdateEmployeePos _ _) _ => true
  | _ => false
  end.

(** The events of [login] and [refresh_page] and of the set-up and
    tear-down of the browser: page operations other than reads, log
    lines, entries and exits. *)
Definition session_event (ev : event) : bool :=
  match ev with
  | EAct _ _ | ELog _ _
  | EEnter FLogin | ELeave FLogin _
  | EEnter FRefreshPage | ELeave FRefreshPage _ => true
  | _ => false
  end.

(** What a dry run may emit: session events, the start of an attempt. *)
Definition dry_event (ev : event) : bool :=
  session_event ev || is_attempt ev.

(** The observations on a trace, gathered. *)
Record observed (t : list event) (attempts resets sleeps calls : nat)
    (exits : list (option exn)) (carry : nat -> nat) (gaps : nat -> list nat)
  : Prop := {
  obs_attempts : count_events is_attempt t = attempts;
  obs_resets : count_events is_refresh t = resets;
  obs_sleeps : count_events is_sleep t = sleeps;
  obs_calls : count_events is_update_call t = calls;
  obs_exits : update_exits t = exits;
  obs_gaps : forall n, resets_before n t = gaps n;
  obs_pending : forall n, resets_pending n t = carry n
}.

(** The outcome [run_updates] records for a row. *)
Inductive produced (dry_run : bool) : string * string -> UpdateResult -> Prop :=
| produced_dry employee_id pos_id :
    dry_run = true ->
    produced dry_run (employee_id, pos_id) (succeeded employee_id pos_id None)
| produced_updated employee_id pos_id old_value :
    dry_run = false ->
    produced dry_run (employee_id, pos_id)
             (succeeded employee_id pos_id (Some old_value))
| produced_failed employee_id pos_id e :
    dry_run = false ->
    produced dry_run (employee_id, pos_id) (failed employee_id pos_id e).

(** ** The identity check and the polling loop of [update_employee_pos] *)

(** The execution [x], after the events [t]. *)
Definition after {W A} (t : list event) (x : exec W A) : exec W A :=
  Exec (result x) (final x) (t ++ trace x).

(** The read of the identity field of the edit form (line 106). *)
Definition identity_read (ev : event) : bool :=
  match ev with
  | ERead (InputValue sel) _ => (sel =? "#sharing_key")%string
  | _ => false
  end.

Definition untouched (ev : event) : bool := negb (touches_target ev).

Definition not_identity_read (ev : event) : bool := negb (identity_read ev).

(** An event that may precede the identity check. *)
Definition before_guard (ev : event) : bool :=
  untouched ev && not_identity_read ev.

Definition raised {A} (r : reply A) : bool :=
  match r with Raised _ => true | Returned _ => false end.

(** A wait for the result row of the employee (line 75). *)
Definition is_poll (employee_id : string) (ev : event) : bool :=
  match ev with
  | EAct (WaitForSelector sel _) _ => (sel =? row_xpath employee_id)%string
  | _ => false
  end.

Definition is_count (ev : event) : bool :=
  match ev with ECount _ _ => true | _ => false end.

(** The wait for network idle after the search, the only one with a
    timeout of its own: its failure is ignored (lines 54-57). *)
Definition advisory (ev : event) : bool :=
  match ev with
  | EAct (WaitForLoadState _ (Some _)) _ => true
  | _ => false
  end.

(** No matching row ever appears and nothing else goes wrong: every wait
    for the row times out, every other operation returns. *)
Definition row_never_appears (employee_id : string) (ev : event) : bool :=
  match ev with
  | EAct _ r =>
      if is_poll employee_id ev then raised r
      else if advisory ev then true
      else negb (raised r)
  | ECount _ r => negb (raised r)
  | ERead _ r => negb (raised r)
  | _ => true
  end.

(** The reply to the first check of the "no data" indicator (line 60). *)
Fixpoint first_count (t : list event) : option (reply Z) :=
  match t with
  | [] => None
  | ECount _ r :: _ => Some r
  | _ :: t' => first_count t'
  end.

(** Lines 73-91 when every wait fails: three waits, the search submitted
    again between them, then the screenshot and the second check of the
    indicator. *)
Definition poll_rounds (employee_id : string) (e1 e2 e3 : exn) (c : Z)
  : list event :=
  [ EAct (WaitForSelector (row_xpath employee_id) 10000) (Raised e1);
    ELog Warning ("Retry 1/3 waiting for search results for " ++ employee_id);
    EAct (WaitForTimeout 2000) (Returned tt);
    EAct (Click "#doSearch") (Returned tt);
    EAct (WaitForTimeout 3000) (Returned tt);
    EAct (WaitForSelector (row_xpath employee_id) 10000) (Raised e2);
    ELog Warning ("Retry 2/3 waiting for search results for " ++ employee_id);
    EAct (WaitForTimeout 2000) (Returned tt);
    EAct (Click "#doSearch") (Returned tt);
    EAct (WaitForTimeout 3000) (Returned tt);
    EAct (WaitForSelector (row_xpath employee_id) 10000) (Raised e3);
    EAct (Screenshot ("debug_search_" ++ employee_id ++ "_2.png")) (Returned tt);
    ECount no_data_selector (Returned c) ].

(** The error after the last wait (lines 82-86). *)
Definition poll_failure (employee_id : string) (e3 : exn) (c : Z) : exn :=
  if c >? 0 then no_permission_msg employee_id
  else row_not_found_msg employee_id e3.

Section Properties.

Variable site : Remote.
Variable employee_id : string.

(** If the identity field was read and differs from the id, the
    computation raised the wrong-user error and left the target alone. *)
Definition guarded {A} (m : M site A) : Prop :=
  forall w v,
    In (ERead (InputValue "#sharing_key") (Returned v)) (trace (m w)) ->
    strip v <> employee_id ->
    result (m w) = Raise (wrong_user_msg employee_id v) /\
    forallb untouched (trace (m w)) = true.

(** The execution ended in the three failed waits for the row. *)
Definition polls_out {A} (x : exec (World site) A) : Prop :=
  exists pre e1 e2 e3 c,
    trace x = (pre ++ poll_rounds employee_id e1 e2 e3 c)%list /\
    forallb (fun ev => negb (is_poll employee_id ev)) pre = true /\
    result x = Raise (poll_failure employee_id e3 c).

Definition polled {A} (m : M site A) : Prop :=
  forall w, forallb (row_never_appears employee_id) (trace (m w)) = true ->
            polls_out (m w).

Definition polled_first {A} (m : M site A) : Prop :=
  forall w,
    forallb (row_never_appears employee_id) (trace (m w)) = true ->
    (forall c, first_count (trace (m w)) = Some (Returned c) -> c <= 0) ->
    polls_out (m w).

End Properties.

(** A failure outside [update_employee_pos]: of the set-up or tear-down
    of the browser, of [login], of [refresh_page]. *)
Definition session_failure (ev : event) : bool :=
  match ev with
  | EAct (PlaywrightStart | Launch _ _ | NewContext | NewPage
         | ContextClose | BrowserClose | PlaywrightStop) (Raised _) => true
  | ELeave (FLogin | FRefreshPage) (Some _) => true
  | _ => false
  end.

Definition session_ok (ev : event) : bool := negb (session_failure ev).

(** The exit of [login] with an exception. *)
Definition login_failed (ev : event) : bool :=
  match ev with
  | ELeave FLogin (Some _) => true
  | _ => false
  end.

(** Before [login] has ended: no exit of [login], no attempt. *)
Definition before_login (ev : event) : bool :=
  match ev with
  | ELeave FLogin _ | EAttempt _ _ _ => false
  | _ => true
  end.

(** After [login]: no exit of [login]. *)
Definition after_login (ev : event) : bool :=
  match ev with
  | ELeave FLogin _ => false
  | _ => true
  end.

(** ** Properties of computations *)

(** Every event the computation emits, from any state, passes the test. *)
Definition emits_only {site : Remote} (p : event -> bool) {A} (m : M site A)
  : Prop :=
  forall w, forallb p (trace (m w)) = true.

(** The computation never runs out of fuel. *)
Definition total {site : Remote} {A} (m : M site A) : Prop :=
  forall w, result (m w) <> OutOfFuel.

(** When [login] failed in the computation, the computation raised and
    attempted no row. *)
Definition login_fatal {site : Remote} {A} (m : M site A) : Prop :=
  forall w,
    existsb login_failed (trace (m w)) = true ->
    (exists e, result (m w) = Raise e) /\
    count_events is_attempt (trace (m w)) = 0%nat.

(** The computation returns whenever all its events pass the test. *)
Definition steady {site : Remote} (p : event -> bool) {A} (m : M site A)
  : Prop :=
  forall w, forallb p (trace (m w)) = true -> exists a, result (m w) = Return a.

(** ** excel_reader.py

    A [pandas.DataFrame] is the list of its columns in order, each with
    its label and its cells from the first row to the last.  A label is
    given by the text [str(c)] and a cell by the text [str(v)] that the
    row loop takes of it (["nan"] for an empty cell): the program uses
    nothing else of them.  In a frame of pandas all columns have one
    length; frames in which two labels become equal by line 20 are
    outside the model ([df[name]] is then a frame, not a column). *)

Definition DataFrame := list (string * list string).

Definition REQUIRED_COLUMNS : list string := ["employee_id"; "pos_id"].

(** [s in l] for a list of strings *)
Definition in_list (s : string) (l : list string) : bool :=
  existsb (String.eqb s) l.

(** [list(df.columns)] *)
Definition columns (df : DataFrame) : list string := map fst df.

(** [df.columns = [str(c).strip().lower() for c in df.columns]] (line 20) *)
Definition normalize_columns (df : DataFrame) : DataFrame :=
  map (fun col => (lower (strip (fst col)), snd col)) df.

(** [df[name]] *)
Fixpoint get_column (name : string) (df : DataFrame) : list string :=
  match df with
  | [] => []
  | (c, cells) :: df' =>
      if (c =? name)%string then cells else get_column name df'
  end.

(** [df[name] = cells]: the column of that label is replaced where it
    stands; a new label becomes the last column. *)
Fixpoint set_column (name : string) (cells : list string) (df : DataFrame)
  : DataFrame :=
  match df with
  | [] => [(name, cells)]
  | (c, old) :: df' =>
      if (c =? name)%string then (c, cells) :: df'
      else (c, old) :: set_column name cells df'
  end.

Definition column_mapping : list (string * string) :=
  [("ma_msocial", "employee_id"); ("ma_msocial_cap_tren", "pos_id")].

(** [for vietnamese_name, english_name in column_mapping.items(): ...]
    (lines 31-33) *)
Definition apply_column_mapping (df : DataFrame) : DataFrame :=
  fold_left
    (fun df names =>
       let '(vietnamese_name, english_name) := names in
       if in_list vietnamese_name (columns df)
       then set_column english_name (get_column vietnamese_name df) df
       else df)
    column_mapping df.

(** *** [repr] of a string and of a list of strings

    As [repr] writes ASCII text; bytes from 128 on are copied (the
    printable characters outside ASCII are). *)

Definition squote : ascii := ascii_of_nat 39.
Definition dquote : ascii := ascii_of_nat 34.
Definition backslash : ascii := ascii_of_nat 92.

Fixpoint has_char (c : ascii) (s : string) : bool :=
  match s with
  | EmptyString => false
  | String c' s' => Ascii.eqb c c' || has_char c s'
  end.

Definition hex_digit (n : nat) : ascii :=
  match String.get n "0123456789abcdef" with
  | Some c => c
  | None => "0"%char
  end.

Definition repr_char (quote c : ascii) : string :=
  let n := nat_of_ascii c in
  if Ascii.eqb c quote || Ascii.eqb c backslash then
    String backslash (String c EmptyString)
  else if (n =? 9)%nat then String backslash "t"
  else if (n =? 10)%nat then String backslash "n"
  else if (n =? 13)%nat then String backslash "r"
  else if (n <? 32)%nat || (n =? 127)%nat then
    String backslash
      (String "x" (String (hex_digit (n / 16))
                          (String (hex_digit (n mod 16)) EmptyString)))
  else String c EmptyString.

Fixpoint repr_chars (quote : ascii) (s : string) : string :=
  match s with
  | EmptyString => EmptyString
  | String c s' => repr_char quote c ++ repr_chars quote s'
  end.

(** [repr(s)]: in single quotes, unless the string has single quotes and
    no double quote. *)
Definition repr (s : string) : string :=
  let quote := if has_char squote s && negb (has_char dquote s)
               then dquote else squote in
  String quote (repr_chars quote s ++ String quote EmptyString).

(** [str(l)] for a list of strings, as an f-string renders it *)
Definition str_of_list (l : list string) : string :=
  "[" ++ String.concat ", " (map repr l) ++ "]".

(** *** The rows *)

(** The values that stand for a missing POS (lines 51 and, in cli.py,
    64). *)
Definition missing_markers : list string := ["#n/a"; "nan"; "none"; ""].

(** [not pos_id or pos_id.lower() in ["#n/a", "nan", "none", ""]] *)
Definition pos_missing (pos_id : string) : bool :=
  (pos_id =? "")%string || in_list (lower pos_id) missing_markers.

(** [for _, row in df.iterrows(): ...] (lines 43-54), over the cells of
    the two columns, with the two lists it appends to. *)
Fixpoint classify_rows (rows : list (string * string))
    (valid_pairs invalid_pairs : list (string * string))
  : list (string * string) * list (string * string) :=
  match rows with
  | [] => (valid_pairs, invalid_pairs)
  | (employee_cell, pos_cell) :: rows' =>
      let employee_id := strip employee_cell in
      let pos_id := strip pos_cell in
      if (employee_id =? "")%string then
        classify_rows rows' valid_pairs invalid_pairs
      else if pos_missing pos_id then
        classify_rows rows' valid_pairs
                      (invalid_pairs ++ [(employee_id, pos_id)])
      else
        classify_rows rows' (valid_pairs ++ [(employee_id, pos_id)])
                      invalid_pairs
  end.

(** An index of a slice, brought into [0, n]: a negative one counts from
    the end. *)
Definition slice_index (n i : Z) : Z :=
  if i <? 0 then Z.max (i + n) 0 else Z.min i n.

(** [l[start:stop]], [l[start:]] for [stop = None] *)
Definition slice {A} (l : list A) (start : Z) (stop : option Z) : list A :=
  let n := Z.of_nat (length l) in
  let lo := slice_index n start in
  let hi := match stop with
            | Some i => slice_index n i
            | None => n
            end in
  firstn (Z.to_nat (hi - lo)) (skipn (Z.to_nat lo) l).

(** [read_excel] stands for [pd.read_excel]: the frame of the first sheet
    of the file, or the exception of the read. *)
Definition read_employee_pos_pairs (read_excel : string -> reply DataFrame)
    (xlsx_path : string) (offset : Z) (limit : option Z)
  : reply (list (string * string) * list (string * string)) :=
  match read_excel xlsx_path with
  | Raised e => Raised e
  | Returned df =>
      let df := normalize_columns df in
      let df := apply_column_mapping df in
      let missing :=
        filter (fun c => negb (in_list c (columns df))) REQUIRED_COLUMNS in
      match missing with
      | _ :: _ =>
          Raised ("Missing required columns: " ++ str_of_list missing
                  ++ ". Found: " ++ str_of_list (columns df))
      | [] =>
          let '(valid_pairs, invalid_pairs) :=
            classify_rows (combine (get_column "employee_id" df)
                                   (get_column "pos_id" df)) [] [] in
          let start_index := Z.max offset 0 in
          let valid_pairs :=
            match limit with
            | Some limit =>
                let end_index := start_index + limit in
                slice valid_pairs start_index (Some end_index)
            | None => slice valid_pairs start_index None
            end in
          Returned (valid_pairs, invalid_pairs)
      end
  end.

(** The frames the model covers: the labels are distinct after line 20,
    and all columns have one length. *)
Definition well_formed (df : DataFrame) : Prop :=
  NoDup (columns (normalize_columns df)) /\
  exists n, Forall (fun col => length (snd col) = n) df.

(** The rows of the sheet that name an employee, as the loop sees them:
    both cells stripped, the employee cell not empty. *)
Definition named_rows (cells : list (string * string)) : list (string * string) :=
  filter (fun row => negb (fst row =? "")%string)
         (map (fun row => (strip (fst row), strip (snd row))) cells).

(** All whitespace. *)
Fixpoint blank (s : string) : bool :=
  match s with
  | EmptyString => true
  | String c s' => is_space c && blank s'
  end.

(** No whitespace in front. *)
Definition headed (s : string) : Prop :=
  match s with
  | EmptyString => True
  | String c _ => is_space c = false
  end.

(** *** A sheet for the examples *)

Definition example_sheet : DataFrame :=
  [(" MA_MSOCIAL ", ["E1"; " E2 "; "nan"; "   "; "E5"; "E6"]);
   ("Ma_Msocial_Cap_Tren", [" P1"; "nan"; "P3"; "P4"; "#N/A"; "P6 "]);
   ("employee_id", ["1"; "2"; "3"; "4"; "5"; "6"])].

Definition example_read_excel (xlsx_path : string) : reply DataFrame :=
  if (xlsx_path =? "users.xlsx")%string then Returned example_sheet
  else Raised ("[Errno 2] No such file or directory: '" ++ xlsx_path ++ "'").

(** ** cli.py: the pairs of [run-pairs], the reports *)

(** [item.split("=", 1)] for an item that holds the separator: the text
    before its first occurrence and the text after it. *)
Fixpoint split_once (sep : ascii) (s : string) : string * string :=
  match s with
  | EmptyString => (EmptyString, EmptyString)
  | String c s' =>
      if Ascii.eqb c sep then (EmptyString, s')
      else let '(a, b) := split_once sep s' in (String c a, b)
  end.

(** [for item in pairs: ...] (lines 22-30), with the list it appends to;
    the exception is [typer.BadParameter]. *)
Fixpoint parse_pairs_from (pairs : list string) (result : list (string * string))
  : reply (list (string * string)) :=
  match pairs with
  | [] => Returned result
  | item :: pairs' =>
      if negb (contains "=" item) then
        Raised ("Invalid pair format: " ++ item ++ ". Use EMP=POS")
      else
        let '(emp, pos) := split_once "=" item in
        let emp := strip emp in
        let pos := strip pos in
        if (emp =? "")%string || (pos =? "")%string then
          Raised ("Invalid pair (empty values): " ++ item)
        else parse_pairs_from pairs' (result ++ [(emp, pos)])
  end.

Definition _parse_pairs (pairs : list string) : reply (list (string * string)) :=
  parse_pairs_from pairs [].

(** How an item reads as a pair: the text before its first [=] and the
    text after it, stripped, neither of them empty. *)
Definition reads_as (item : string) (pair : string * string) : Prop :=
  exists emp pos,
    item = (emp ++ "=" ++ pos)%string /\ has_char "=" emp = false /\
    pair = (strip emp, strip pos) /\ strip emp <> "" /\ strip pos <> "".

(** [x or ""] for a [str | None] *)
Definition or_empty (x : optstr) : string :=
  match x with
  | Some s => s
  | None => ""
  end.

(** The rows [_write_audit_csv] writes (lines 48-50). *)
Definition audit_row (r : UpdateResult) : list string :=
  [employee_id r; or_empty (old_pos r); or_empty (new_pos r);
   if success r then "true" else "false"; or_empty (error r)].

Definition audit_rows (results : list UpdateResult) : list (list string) :=
  ["employee_id"; "old_pos"; "new_pos"; "success"; "error"]
  :: map audit_row results.

(** The reason [_write_invalid_csv] gives for a pair (line 64). *)
Definition invalid_reason (pos_id : string) : string :=
  if (pos_id =? "")%string || in_list (lower pos_id) ["#n/a"; "nan"; "none"; ""]
  then "Missing POS data" else "Invalid POS format".

(** The rows [_write_invalid_csv] writes (lines 62-65). *)
Definition invalid_rows (invalid_pairs : list (string * string))
  : list (list string) :=
  ["employee_id"; "pos_id"; "reason"]
  :: map (fun '(emp_id, pos_id) => [emp_id; pos_id; invalid_reason pos_id])
         invalid_pairs.

(** [ok] and [fail] of the closing log line (lines 144-145). *)
Definition summary (results : list UpdateResult) : Z * Z :=
  let ok := Z.of_nat (length (filter success results)) in
  let fail := Z.of_nat (length results) - ok in
  (ok, fail).
(** ** Further observations on the runs *)

(** A site that cannot be reached: every navigation fails. *)
Definition unreachable_site : Remote :=
  {| World := unit;
     act := fun a w =>
              match a with
              | Goto _ _ => (Raised "net::ERR_NAME_NOT_RESOLVED", w)
              | _ => (Returned tt, w)
              end;
     count := fun _ w => (Returned 0, w);
     read := fun _ w => (Returned "", w);
     notify := fun _ w => w |}.

(** The counter of a round of the retry loop lies within the budget. *)
Definition attempt_within (budget : Z) (ev : event) : bool :=
  match ev with
  | EAttempt _ _ attempt => (0 <=? attempt) && (attempt <=? Z.max budget 0)
  | _ => true
  end.

Definition not_attempt (ev : event) : bool := negb (is_attempt ev).

Definition not_update_call (ev : event) : bool := negb (is_update_call ev).

(** The trace of the computation, from any state, has the property. *)
Definition trace_holds {site : Remote} (P : list event -> Prop) {A}
    (m : M site A) : Prop :=
  forall w, P (trace (m w)).

(** No more calls of [update_employee_pos] than rounds of the retry
    loop. *)
Definition calls_within_attempts (t : list event) : Prop :=
  (count_events is_update_call t <= count_events is_attempt t)%nat.

(** Neither the start of a round nor a call of [update_employee_pos]. *)
Definition quiet (ev : event) : bool := not_attempt ev && not_update_call ev.

(** At most [n] rounds, no more calls than rounds, every counter within
    the budget. *)
Definition attempts_within (n : nat) (budget : Z) (t : list event) : Prop :=
  (count_events is_attempt t <= n)%nat /\
  calls_within_attempts t /\
  forallb (attempt_within budget) t = true.

(** The set-up and the tear-down of the browser (lines 133-136 and
    166-168). *)
Definition is_browser_op (ev : event) : bool :=
  match ev with
  | EAct (PlaywrightStart | Launch _ _ | NewContext | NewPage
         | ContextClose | BrowserClose | PlaywrightStop) _ => true
  | _ => false
  end.

Definition page_work (ev : event) : bool := negb (is_browser_op ev).

(** The [finally] block and the exit of [async with]: the browser is
    closed when closing the context returned. *)
Definition teardown (context_closed browser_closed stopped : reply unit)
  : list event :=
  (EAct ContextClose context_closed
   :: match context_closed with
      | Returned _ => [EAct BrowserClose browser_closed]
      | Raised _ => []
      end
   ++ [EAct PlaywrightStop stopped])%list.

(** [(employee_id, pos_id)] is one of the rows. *)
Definition row_listed (rows : list (string * string))
    (employee_id pos_id : string) : bool :=
  existsb (fun row => (fst row =? employee_id)%string
                      && (snd row =? pos_id)%string) rows.

(** What the run types and selects comes from the rows: the search field
    receives an employee id of the list (or is cleared), the POS field a
    POS of the list (or is cleared), a result row is selected by the
    XPath of an employee id of the list, and [update_employee_pos] is
    called with a row of the list. *)
Definition from_rows (rows : list (string * string)) (ev : event) : bool :=
  match ev with
  | EAct (Fill selector value) _ =>
      if (selector =? "#sharing_key")%string then
        (value =? "")%string || in_list value (map fst rows)
      else if (selector =? "#info")%string then
        (value =? "")%string || in_list value (map snd rows)
      else true
  | EAct (FirstRowClick selector _) _ =>
      existsb (fun row => (selector =? row_xpath (fst row))%string) rows
  | EEnter (FUpdateEmployeePos employee_id pos_id) =>
      row_listed rows employee_id pos_id
  | _ => true
  end.

(** ** [update_employee_pos]: the three ways through it *)

(** An operation on a result row or on the edit form. *)
Definition opens_record (ev : event) : bool :=
  match ev with
  | EAct (FirstRowClick _ _) _ => true
  | EAct (WaitForSelector _ _) _ => true
  | EAct (Click selector) _ =>
      (selector =? "#goEdit")%string || (selector =? "#doEdit")%string
  | EAct (Fill selector _) _ => (selector =? "#info")%string
  | ERead _ _ => true
  | ESignal OnceDialogAccept => true
  | _ => false
  end.

(** A step of the search: no check of the indicator, no operation on a
    row or on the form. *)
Definition search_step (ev : event) : bool :=
  negb (is_count ev) && negb (opens_record ev).

(** Lines 60-64 when the indicator shows: the screenshot, then the
    error (the error of the screenshot, should it fail). *)
Definition no_data_stop (employee_id : string) (c : Z) {W A}
    (x : exec W A) : Prop :=
  exists search shot e,
    trace x =
    (search ++
     [ECount no_data_selector (Returned c);
      EAct (Screenshot ("debug_no_data_" ++ employee_id ++ ".png")) shot])%list /\
    forallb search_step search = true /\
    result x = Raise e /\
    e = match shot with
        | Returned _ => no_permission_msg employee_id
        | Raised e' => e'
        end.

(** When the first check of the indicator counts [c > 0], the computation
    stops there. *)
Definition stops_on_no_data (site : Remote) (employee_id : string) {A}
    (m : M site A) : Prop :=
  forall w c,
    first_count (trace (m w)) = Some (Returned c) -> c > 0 ->
    no_data_stop employee_id c (m w).

(** The events of [if step_delay_ms: await page.wait_for_timeout(...)]
    when the wait returns. *)
Definition delay_events (step_delay_ms : Z) : list event :=
  if truthy step_delay_ms
  then [EAct (WaitForTimeout step_delay_ms) (Returned tt)] else [].

(** Lines 106-124 when every operation returns: the identity field reads
    [v], the POS field reads [old_value] and receives [pos_id], the save
    is confirmed. *)
Definition edit_steps (cfg : AppConfig) (employee_id pos_id : string)
    (step_delay_ms : Z) (v old_value : string) : list event :=
  ([ERead (InputValue "#sharing_key") (Returned v);
    ELog Info ("Verified form shows correct user: " ++ employee_id);
    EAct (WaitForSelector "#info" (default (timeouts cfg))) (Returned tt);
    ERead (InputValue "#info") (Returned old_value);
    EAct (Fill "#info" "") (Returned tt);
    EAct (Fill "#info" pos_id) (Returned tt);
    ELog Info (employee_id ++ ": POS info will change from '" ++ old_value
               ++ "' to '" ++ pos_id ++ "'")]
   ++ delay_events step_delay_ms
   ++ [ESignal OnceDialogAccept;
       EAct (Click "#doEdit") (Returned tt);
       EAct (WaitForLoadState "networkidle" None) (Returned tt)]
   ++ delay_events step_delay_ms)%list.

(** A returned computation went through the edit of the verified
    record. *)
Definition edited_verified (cfg : AppConfig) (employee_id pos_id : string)
    (step_delay_ms : Z) {W} (x : exec W string) : Prop :=
  forall old_value,
    result x = Return old_value ->
    exists search v,
      trace x = (search ++ edit_steps cfg employee_id pos_id step_delay_ms
                                      v old_value)%list /\
      forallb before_guard search = true /\
      strip v = employee_id.

(** The target is untouched, or the identity field was read before, with
    the value of the employee. *)
Definition checked_first (employee_id : string) (t : list event) : Prop :=
  forallb untouched t = true \/
  exists pre v post,
    t = (pre ++ ERead (InputValue "#sharing_key") (Returned v) :: post)%list /\
    forallb before_guard pre = true /\
    strip v = employee_id.

(** [update_employee_pos] is called with a row of the list. *)
Definition calls_from (rows : list (string * string)) (ev : event) : bool :=
  match ev with
  | EEnter (FUpdateEmployeePos employee_id pos_id) =>
      row_listed rows employee_id pos_id
  | _ => true
  end.

(** The click that saves the form (line 122). *)
Definition is_save (ev : event) : bool :=
  match ev with
  | EAct (Click selector) _ => (selector =? "#doEdit")%string
  | _ => false
  end.

(** At most [n] events of the trace pass the test, from any state. *)
Definition at_most {site : Remote} (p : event -> bool) (n : nat) {A}
    (m : M site A) : Prop :=
  forall w, (count_events p (trace (m w)) <= n)%nat.

(** ** config.py and cli.py: the commands

    The machine the commands run on is, like the site, an arbitrary
    deterministic responder: it answers the reads and writes of files
    with a value or an exception.  [logger_add] stands for loguru's
    [logger.add], [pd_read_excel] for [pd.read_excel], [write_csv] for
    the creation of the parent directory, the opening of the file and
    the rows written through [csv.writer] (lines 44-50, 58-65, 73-79 of
    cli.py), [load_config] for the function of config.py (the YAML file
    read and validated), [load_dotenv] and [getenv] for those of
    [dotenv] and [os], [path_text] for [str(Path(path))]. *)

Record Host := {
  Disk : Type;
  logger_add : string -> Disk -> reply unit * Disk;
  pd_read_excel : string -> Disk -> reply DataFrame * Disk;
  write_csv : string -> list (list string) -> Disk -> reply unit * Disk;
  load_config : string -> Disk -> reply AppConfig * Disk;
  load_dotenv : optstr -> Disk -> reply unit * Disk;
  getenv : string -> Disk -> optstr;
  path_text : string -> string
}.

(** What a command does, in order. *)
Inductive cli_event :=
| CLog (l : level) (msg : string)
| CLoggerAdd (log_file : string) (r : reply unit)
| CReadExcel (xlsx_path : string) (r : reply DataFrame)
| CWriteCsv (path : string) (rows : list (list string)) (r : reply unit)
| CLoadConfig (config_path : string) (r : reply AppConfig)
| CLoadDotenv (env_path : optstr) (r : reply unit)
| CBrowser (t : list event) (failed : option exn).

Record cli_exec (S A : Type) := CliExec {
  cli_result : outcome A;
  cli_final : S;
  cli_trace : list cli_event
}.
Arguments CliExec {S A}.
Arguments cli_result {S A}.
Arguments cli_final {S A}.
Arguments cli_trace {S A}.

Section Commands.

Variables (host : Host) (site : Remote).

Definition machine : Type := Disk host * World site.

Definition C (A : Type) : Type := machine -> cli_exec machine A.

Definition cret {A} (a : A) : C A := fun s => CliExec (Return a) s [].

Definition craise {A} (e : exn) : C A := fun s => CliExec (Raise e) s [].

Definition cbind {A B} (m : C A) (k : A -> C B) : C B := fun s =>
  let r := m s in
  match cli_result r with
  | Return a =>
      let r' := k a (cli_final r) in
      CliExec (cli_result r') (cli_final r') (cli_trace r ++ cli_trace r')
  | Raise e => CliExec (Raise e) (cli_final r) (cli_trace r)
  | OutOfFuel => CliExec OutOfFuel (cli_final r) (cli_trace r)
  end.

(** An operation of the machine, recorded with its reply. *)
Definition on_disk {A} (op : Disk host -> reply A * Disk host)
    (record : reply A -> cli_event) : C A := fun s =>
  let (r, d) := op (fst s) in
  CliExec (lift r) (d, snd s) [record r].

Definition cli_log (l : level) (msg : string) : C unit := fun s =>
  CliExec (Return tt) s [CLog l msg].

(** A computation that depends on the state of the machine. *)
Definition with_disk {A} (f : Disk host -> C A) : C A := fun s => f (fst s) s.

(** [asyncio.run(m)]: the events of the run, and the exception that left
    it. *)
Definition asyncio_run {A} (m : M site A) : C A := fun s =>
  let r := m (snd s) in
  CliExec (result r) (fst s, final r)
          [CBrowser (trace r) (raised_of (result r))].

End Commands.

Arguments cret {host site A} a.
Arguments craise {host site A} e.
Arguments cbind {host site A B} m k.
Arguments on_disk {host site A} op record.
Arguments cli_log {host site} l msg.
Arguments with_disk {host site A} f.
Arguments asyncio_run {host site A} m.

Declare Scope cli_scope.
Delimit Scope cli_scope with cli.
Notation "x <- m ;; k" := (cbind m (fun x => k))
  (at level 61, m at next level, right associativity) : cli_scope.
Notation "m ;; k" := (cbind m (fun _ => k))
  (at level 61, right associativity) : cli_scope.

Section Cli.

Variables (host : Host) (site : Remote).

Local Open Scope cli_scope.

(** [str(x)] for an [int | None] *)
Definition str_of_optint (x : option Z) : string :=
  match x with
  | Some n => str_of_int n
  | None => "None"
  end.

(** Truthiness of a [str | None] *)
Definition given (x : optstr) : bool :=
  match x with
  | Some s => negb (s =? "")%string
  | None => false
  end.

(** config.py, [load_credentials] *)
Definition load_credentials (env_path : optstr) : C host site Credentials :=
  on_disk (load_dotenv host env_path) (CLoadDotenv env_path) ;;
  with_disk (fun environ =>
    let username := getenv host "ADMIN_USERNAME" environ in
    let password := getenv host "ADMIN_PASSWORD" environ in
    if negb (given username) || negb (given password) then
      craise "Missing ADMIN_USERNAME or ADMIN_PASSWORD in environment variables"
    else
      cret {| username := or_empty username; password := or_empty password |}).

Definition _setup_file_logging (log_file : optstr) : C host site unit :=
  if negb (given log_file) then cret tt
  else
    on_disk (logger_add host (or_empty log_file))
            (CLoggerAdd (or_empty log_file)) ;;
    cli_log Info ("File logging enabled: " ++ or_empty log_file).

Definition _write_audit_csv (path : optstr) (results : list UpdateResult)
  : C host site unit :=
  if negb (given path) then cret tt
  else
    let p := or_empty path in
    on_disk (write_csv host p (audit_rows results))
            (CWriteCsv p (audit_rows results)) ;;
    cli_log Info ("Audit CSV written: " ++ path_text host p).

Definition _write_invalid_csv (path : optstr)
    (invalid_pairs : list (string * string)) : C host site unit :=
  let path := if negb (given path) then "logs/invalid_users.csv"
              else or_empty path in
  on_disk (write_csv host path (invalid_rows invalid_pairs))
          (CWriteCsv path (invalid_rows invalid_pairs)) ;;
  cli_log Info ("Invalid users CSV written: " ++ path_text host path).

(** The lines [_write_permission_denied_csv] writes. *)
Definition permission_denied_lines (denied_users : list string)
  : list (list string) :=
  ["employee_id"; "reason"]
  :: map (fun row => [fst row; snd row]) (permission_denied_rows denied_users).

Definition _write_permission_denied_csv (path : optstr)
    (denied_users : list string) : C host site unit :=
  let path := if negb (given path) then "logs/permission_denied.csv"
              else or_empty path in
  on_disk (write_csv host path (permission_denied_lines denied_users))
          (CWriteCsv path (permission_denied_lines denied_users)) ;;
  cli_log Info ("Permission denied users CSV written: " ++ path_text host path).

(** [for r in results: if not r.success: logger.error(...)] *)
Fixpoint log_failures (results : list UpdateResult) : C host site unit :=
  match results with
  | [] => cret tt
  | r :: results' =>
      (if negb (success r) then
         cli_log Error ("FAILED employee_id=" ++ employee_id r ++ ": "
                        ++ str_of_optstr (error r))
       else cret tt) ;;
      log_failures results'
  end.

(** Lines 144-150 and 188-194. *)
Definition log_summary (results : list UpdateResult) : C host site unit :=
  let '(ok, fail) := summary results in
  cli_log Info ("Done. Success: " ++ str_of_int ok ++ ", Failed: "
                ++ str_of_int fail) ;;
  if truthy fail then log_failures results else cret tt.

(** The command [run]. *)
Definition run (excel config : string) (env : optstr) (headful dry_run : bool)
    (offset : Z) (limit retries : option Z) (retry_backoff_seconds : option Q)
    (log_file audit_csv invalid_csv permission_denied_csv : optstr)
    (slowmo_ms step_delay_ms : Z) : C host site unit :=
  _setup_file_logging log_file ;;
  df <- on_disk (pd_read_excel host excel) (CReadExcel excel) ;;
  match read_employee_pos_pairs (fun _ => Returned df) excel offset limit with
  | Raised e => craise e
  | Returned (valid_pairs, invalid_pairs) =>
      cli_log Info ("Loaded " ++ str_of_int (Z.of_nat (length valid_pairs))
                    ++ " valid pairs from " ++ excel ++ " (offset="
                    ++ str_of_int offset ++ ", limit=" ++ str_of_optint limit
                    ++ ")") ;;
      (match invalid_pairs with
       | [] => cret tt
       | _ :: _ =>
           cli_log Warning ("Found "
                            ++ str_of_int (Z.of_nat (length invalid_pairs))
                            ++ " users with missing POS data") ;;
           _write_invalid_csv invalid_csv invalid_pairs
       end) ;;
      cfg <- on_disk (load_config host config) (CLoadConfig config) ;;
      creds <- load_credentials env ;;
      results <- asyncio_run
                   (run_updates site cfg creds valid_pairs (negb headful)
                      dry_run retries retry_backoff_seconds step_delay_ms
                      slowmo_ms) ;;
      _write_audit_csv audit_csv results ;;
      let '(permission_denied_users, other_failures) :=
        partition_failures results [] [] in
      (match permission_denied_users with
       | [] => cret tt
       | _ :: _ =>
           _write_permission_denied_csv permission_denied_csv
                                        permission_denied_users ;;
           cli_log Warning ("Found "
                            ++ str_of_int
                                 (Z.of_nat (length permission_denied_users))
                            ++ " users with permission denied")
       end) ;;
      log_summary results
  end.

(** The command [run-pairs]. *)
Definition run_pairs (pair : list string) (config : string) (env : optstr)
    (headful dry_run : bool) (retries : option Z)
    (retry_backoff_seconds : option Q) (log_file audit_csv : optstr)
    (slowmo_ms step_delay_ms : Z) : C host site unit :=
  _setup_file_logging log_file ;;
  match _parse_pairs pair with
  | Raised e => craise e
  | Returned pairs =>
      cfg <- on_disk (load_config host config) (CLoadConfig config) ;;
      creds <- load_credentials env ;;
      results <- asyncio_run
                   (run_updates site cfg creds pairs (negb headful) dry_run
                      retries retry_backoff_seconds step_delay_ms slowmo_ms) ;;
      _write_audit_csv audit_csv results ;;
      log_summary results
  end.

End Cli.

(** The CSV files written, in order: path and rows. *)
Fixpoint csv_written (t : list cli_event) : list (string * list (list string)) :=
  match t with
  | [] => []
  | CWriteCsv path rows (Returned _) :: t' => (path, rows) :: csv_written t'
  | _ :: t' => csv_written t'
  end.

(** The runs of the browser, in order: how each ended. *)
Fixpoint browser_runs (t : list cli_event) : list (option exn) :=
  match t with
  | [] => []
  | CBrowser _ failed :: t' => failed :: browser_runs t'
  | _ :: t' => browser_runs t'
  end.

(** The execution [x], after the events [t]. *)
Definition cli_after {S A} (t : list cli_event) (x : cli_exec S A)
  : cli_exec S A :=
  CliExec (cli_result x) (cli_final x) (t ++ cli_trace x).

(** [path or default] *)
Definition path_or (path : optstr) (default : string) : string :=
  if negb (given path) then default else or_empty path.

(** The set-up of the file log. *)
Definition logging_only (ev : cli_event) : bool :=
  match ev with
  | CLoggerAdd _ _ | CLog _ _ => true
  | _ => false
  end.

(** A machine for the examples: every write succeeds, the sheet is the
    example sheet, the configuration the example configuration, the
    credentials are in the environment. *)
Definition example_host : Host :=
  {| Disk := unit;
     logger_add := fun _ d => (Returned tt, d);
     pd_read_excel := fun xlsx_path d => (example_read_excel xlsx_path, d);
     write_csv := fun _ _ d => (Returned tt, d);
     load_config := fun _ d => (Returned example_cfg, d);
     load_dotenv := fun _ d => (Returned tt, d);
     getenv := fun name _ =>
                 if (name =? "ADMIN_USERNAME")%string then Some "admin"
                 else if (name =? "ADMIN_PASSWORD")%string then Some "secret"
                 else None;
     path_text := fun path => path |}.

(*DEFS-END*)

(** ** Laws of the monad *)

Section Laws.

Variable site : Remote.
Implicit Types w : World site.

Lemma result_bind {A B} (m : M site A) (k : A -> M site B) w :
  result (bind m k w) =
  match result (m w) with
  | Return a => result (k a (final (m w)))
  | Raise e => Raise e
  | OutOfFuel => OutOfFuel
  end.
Proof. unfold bind. destruct (result (m w)); reflexivity. Qed.

Lemma trace_bind {A B} (m : M site A) (k : A -> M site B) w :
  trace (bind m k w) =
  (trace (m w) ++
   match result (m w) with
   | Return a => trace (k a (final (m w)))
   | _ => []
   end)%list.
Proof.
  unfold bind. destruct (result (m w)); simpl; rewrite ?app_nil_r; reflexivity.
Qed.

Lemma result_try_except {A} (m : M site A) h w :
  result (try_except m h w) =
  match result (m w) with
  | Raise e => result (h e (final (m w)))
  | o => o
  end.
Proof. unfold try_except. destruct (result (m w)) eqn:E; simpl; auto. Qed.

Lemma trace_try_except {A} (m : M site A) h w :
  trace (try_except m h w) =
  (trace (m w) ++
   match result (m w) with
   | Raise e => trace (h e (final (m w)))
   | _ => []
   end)%list.
Proof.
  unfold try_except. destruct (result (m w)); simpl; rewrite ?app_nil_r; reflexivity.
Qed.

Lemma result_try_finally {A} (m : M site A) f w :
  result (try_finally m f w) =
  match result (m w) with
  | OutOfFuel => OutOfFuel
  | o => match result (f (final (m w))) with
         | Return _ => o
         | Raise e => Raise e
         | OutOfFuel => OutOfFuel
         end
  end.
Proof. unfold try_finally. destruct (result (m w)) eqn:E; simpl; auto. Qed.

Lemma trace_try_finally {A} (m : M site A) f w :
  trace (try_finally m f w) =
  (trace (m w) ++
   match result (m w) with
   | OutOfFuel => []
   | _ => trace (f (final (m w)))
   end)%list.
Proof.
  unfold try_finally. destruct (result (m w)); simpl; rewrite ?app_nil_r; reflexivity.
Qed.

Lemma result_traced {A} f (m : M site A) w :
  result (traced f m w) = result (m w).
Proof. reflexivity. Qed.

Lemma trace_traced {A} f (m : M site A) w :
  trace (traced f m w) =
  EEnter f :: (trace (m w) ++ [ELeave f (raised_of (result (m w)))])%list.
Proof. reflexivity. Qed.

(** A successful [bind] is a successful first part followed by a
    successful continuation. *)
Lemma bind_Return {A B} (m : M site A) (k : A -> M site B) w b :
  result (bind m k w) = Return b ->
  exists a, result (m w) = Return a /\ result (k a (final (m w))) = Return b.
Proof.
  rewrite result_bind. destruct (result (m w)); try discriminate. eauto.
Qed.

Lemma try_finally_Return {A} (m : M site A) f w a :
  result (try_finally m f w) = Return a -> result (m w) = Return a.
Proof.
  rewrite result_try_finally.
  destruct (result (m w)); try discriminate;
    destruct (result (f _)); congruence.
Qed.

(** *** Computations whose events all satisfy a test *)

Section EmitsOnly.

Variable p : event -> bool.

Lemma emits_only_ret {A} (a : A) : emits_only p (ret (site:=site) a).
Proof. intro w. reflexivity. Qed.

Lemma emits_only_raise {A} e : emits_only p (raise (site:=site) (A:=A) e).
Proof. intro w. reflexivity. Qed.

Lemma emits_only_diverge {A} : emits_only p (diverge (site:=site) (A:=A)).
Proof. intro w. reflexivity. Qed.

Lemma emits_only_emit e : p e = true -> emits_only p (emit (site:=site) e).
Proof. intros H w. simpl. rewrite H. reflexivity. Qed.

Lemma emits_only_perform a :
  (forall r, p (EAct a r) = true) -> emits_only p (perform (site:=site) a).
Proof.
  intros H w. unfold perform. destruct (act site a w). simpl.
  rewrite H. reflexivity.
Qed.

Lemma emits_only_locator_count sel :
  (forall r, p (ECount sel r) = true) ->
  emits_only p (locator_count (site:=site) sel).
Proof.
  intros H w. unfold locator_count. destruct (count site sel w). simpl.
  rewrite H. reflexivity.
Qed.

Lemma emits_only_obtain q :
  (forall r, p (ERead q r) = true) -> emits_only p (obtain (site:=site) q).
Proof.
  intros H w. unfold obtain. destruct (read site q w). simpl.
  rewrite H. reflexivity.
Qed.

Lemma emits_only_tell s :
  p (ESignal s) = true -> emits_only p (tell (site:=site) s).
Proof. intros H w. simpl. rewrite H. reflexivity. Qed.

Lemma emits_only_bind {A B} (m : M site A) (k : A -> M site B) :
  emits_only p m -> (forall a, emits_only p (k a)) -> emits_only p (bind m k).
Proof.
  intros Hm Hk w. rewrite trace_bind, forallb_app, Hm. simpl.
  destruct (result (m w)); auto. apply Hk.
Qed.

Lemma emits_only_try_except {A} (m : M site A) h :
  emits_only p m -> (forall e, emits_only p (h e)) ->
  emits_only p (try_except m h).
Proof.
  intros Hm Hh w. rewrite trace_try_except, forallb_app, Hm. simpl.
  destruct (result (m w)); auto. apply Hh.
Qed.

Lemma emits_only_try_finally {A} (m : M site A) f :
  emits_only p m -> emits_only p f -> emits_only p (try_finally m f).
Proof.
  intros Hm Hf w. rewrite trace_try_finally, forallb_app, Hm. simpl.
  destruct (result (m w)); auto; apply Hf.
Qed.

Lemma emits_only_traced {A} f (m : M site A) :
  p (EEnter f) = true -> (forall r, p (ELeave f r) = true) ->
  emits_only p m -> emits_only p (traced f m).
Proof.
  intros He Hl Hm w. rewrite trace_traced. simpl.
  rewrite He, forallb_app, Hm. simpl. rewrite Hl. reflexivity.
Qed.

End EmitsOnly.

(** *** Computations that never run out of fuel *)

Lemma total_ret {A} (a : A) : total (ret (site:=site) a).
Proof. intro w. discriminate. Qed.

Lemma total_raise {A} e : total (raise (site:=site) (A:=A) e).
Proof. intro w. discriminate. Qed.

Lemma total_emit e : total (emit (site:=site) e).
Proof. intro w. discriminate. Qed.

Lemma total_tell s : total (tell (site:=site) s).
Proof. intro w. discriminate. Qed.

Lemma total_perform a : total (perform (site:=site) a).
Proof.
  intro w. unfold perform. destruct (act site a w) as [[|] ?]; discriminate.
Qed.

Lemma total_locator_count sel : total (locator_count (site:=site) sel).
Proof.
  intro w. unfold locator_count.
  destruct (count site sel w) as [[|] ?]; discriminate.
Qed.

Lemma total_obtain q : total (obtain (site:=site) q).
Proof.
  intro w. unfold obtain. destruct (read site q w) as [[|] ?]; discriminate.
Qed.

Lemma total_bind {A B} (m : M site A) (k : A -> M site B) :
  total m -> (forall a, total (k a)) -> total (bind m k).
Proof.
  intros Hm Hk w. rewrite result_bind. specialize (Hm w).
  destruct (result (m w)); [apply Hk | discriminate | congruence].
Qed.

Lemma total_try_except {A} (m : M site A) h :
  total m -> (forall e, total (h e)) -> total (try_except m h).
Proof.
  intros Hm Hh w. rewrite result_try_except. specialize (Hm w).
  destruct (result (m w)); [discriminate | apply Hh | congruence].
Qed.

Lemma total_try_finally {A} (m : M site A) f :
  total m -> total f -> total (try_finally m f).
Proof.
  intros Hm Hf w. rewrite result_try_finally.
  specialize (Hm w). specialize (Hf (final (m w))).
  destruct (result (m w)); try congruence;
    destruct (result (f (final (m w)))); try congruence; discriminate.
Qed.

Lemma total_traced {A} f (m : M site A) : total m -> total (traced f m).
Proof. intros Hm w. apply Hm. Qed.

End Laws.

(** ** The retry loop and the batch loop *)

Arguments update_employee_pos : simpl never.
Arguments refresh_page : simpl never.
Arguments login : simpl never.
Arguments String.append : simpl never.
Arguments rounds_left : simpl never.
Opaque update_employee_pos refresh_page login.

(** Case analysis on the outcome of the next computation to run. *)
Ltac case_result :=
  match goal with
  | |- context [match result ?r with _ => _ end] =>
      let E := fresh "E" in destruct (result r) eqn:E
  end.

Section Batch.

Variable site : Remote.
Variables (cfg : AppConfig) (dry_run : bool) (retries : Z)
          (retry_backoff_seconds : Q) (step_delay_ms : Z).
Implicit Types w : World site.

Local Abbreviation attempt_once' :=
  (attempt_once site cfg dry_run retries retry_backoff_seconds step_delay_ms).
Local Abbreviation attempt_loop' :=
  (attempt_loop site cfg dry_run retries retry_backoff_seconds step_delay_ms).
Local Abbreviation for_rows' :=
  (for_rows site cfg dry_run retries retry_backoff_seconds step_delay_ms).

Lemma attempt_once_step employee_id pos_id attempt results w step :
  result (attempt_once' employee_id pos_id attempt results w) = Return step ->
  (exists r, step = Break (results ++ [r])%list /\
             produced dry_run (employee_id, pos_id) r) \/
  (step = Continue (attempt + 1) /\ attempt + 1 <= retries /\ dry_run = false).
Proof.
  unfold attempt_once.
  rewrite result_bind. simpl.
  rewrite result_try_except, result_bind. simpl.
  destruct dry_run eqn:Hdry; simpl.
  - intros [= <-]. left. eexists. split; [reflexivity|]. now constructor.
  - rewrite result_bind.
    case_result; simpl.
    + intros [= <-]. left. eexists. split; [reflexivity|]. now constructor.
    + destruct (attempt + 1 >? retries) eqn:Hgt.
      * rewrite result_bind. simpl. intros [= <-]. left.
        eexists. split; [reflexivity|]. now constructor.
      * repeat (rewrite result_bind; simpl).
        case_result; try discriminate.
        intros [= <-]. right. repeat split. lia.
    + discriminate.
Qed.

Lemma attempt_loop_produced fuel employee_id pos_id :
  forall attempt results w res,
  result (attempt_loop' fuel employee_id pos_id attempt results w) = Return res ->
  exists r, res = (results ++ [r])%list /\
            produced dry_run (employee_id, pos_id) r.
Proof.
  induction fuel as [|fuel IH]; intros attempt results w res; simpl.
  - discriminate.
  - intros H. apply bind_Return in H as (step & Hstep & H).
    apply attempt_once_step in Hstep as [(r & -> & Hr) | (-> & _ & _)].
    + injection H as <-. eauto.
    + eapply IH, H.
Qed.

Lemma for_rows_produced rows :
  forall i results w res,
  result (for_rows' i rows results w) = Return res ->
  exists rs, res = (results ++ rs)%list /\ Forall2 (produced dry_run) rows rs.
Proof.
  induction rows as [|[employee_id pos_id] rows IH]; intros i results w res;
    cbn [for_rows].
  - intros [= <-]. exists []. rewrite app_nil_r. auto.
  - intros H. apply bind_Return in H as (_ & _ & H).
    apply bind_Return in H as (results' & Hloop & H).
    apply attempt_loop_produced in Hloop as (r & -> & Hr).
    apply IH in H as (rs & -> & Hrs).
    exists (r :: rs). rewrite <- app_assoc. auto.
Qed.

End Batch.

Lemma run_updates_produced site cfg creds rows headless dry_run retries
    retry_backoff_seconds step_delay_ms slowmo_ms (w : World site) res :
  result (run_updates site cfg creds rows headless dry_run retries
            retry_backoff_seconds step_delay_ms slowmo_ms w) = Return res ->
  Forall2 (produced dry_run) rows res.
Proof.
  unfold run_updates. intros H.
  apply bind_Return in H as (_ & _ & H).
  apply try_finally_Return in H.
  do 3 apply bind_Return in H as (_ & _ & H).
  apply try_finally_Return in H.
  do 3 apply bind_Return in H as (_ & _ & H).
  apply for_rows_produced in H as (rs & -> & H). exact H.
Qed.

(** ** What the functions emit *)

Lemma emits_only_weaken {site : Remote} (p q : event -> bool) {A}
    (m : M site A) :
  (forall ev, p ev = true -> q ev = true) -> emits_only p m -> emits_only q m.
Proof.
  intros Hpq Hm w. specialize (Hm w). rewrite forallb_forall in *.
  auto.
Qed.

(** Facts on the named functions, used before the structural rules. *)
Create HintDb progs.

Ltac emits_step :=
  first
    [ solve [auto 1 with progs]
    | apply emits_only_ret
    | apply emits_only_raise
    | apply emits_only_diverge
    | apply emits_only_bind; [|intro]
    | apply emits_only_try_except; [|intro]
    | apply emits_only_try_finally
    | apply emits_only_traced; [reflexivity | intro; reflexivity |]
    | apply emits_only_perform; intro; reflexivity
    | apply emits_only_locator_count; intro; reflexivity
    | apply emits_only_obtain; intro; reflexivity
    | apply emits_only_tell; reflexivity
    | apply emits_only_emit; reflexivity
    | match goal with
      | |- emits_only _ (if ?b then _ else _) => destruct b
      end ].

Ltac emits := repeat emits_step.

Ltac total_step :=
  first
    [ solve [auto 1 with progs]
    | apply total_ret
    | apply total_raise
    | apply total_emit
    | apply total_tell
    | apply total_perform
    | apply total_locator_count
    | apply total_obtain
    | apply total_bind; [|intro]
    | apply total_try_except; [|intro]
    | apply total_try_finally
    | apply total_traced
    | match goal with
      | |- total (if ?b then _ else _) => destruct b
      end ].

Ltac totality := repeat total_step.

Transparent update_employee_pos refresh_page login.

Section Emitted.

Variable site : Remote.
Variable cfg : AppConfig.

Lemma login_emits creds : emits_only session_event (login site cfg creds).
Proof. unfold login. emits. Qed.

Lemma refresh_page_emits : emits_only session_event (refresh_page site cfg).
Proof. unfold refresh_page, logger_info. emits. Qed.

Lemma step_delay_emits d : emits_only update_event (step_delay site d).
Proof. unfold step_delay. emits. Qed.

Lemma wait_for_row_emits employee_id rounds :
  emits_only update_event (wait_for_row site employee_id rounds).
Proof.
  induction rounds as [|retry rounds IH]; simpl.
  - emits.
  - unfold logger_warning. emits.
Qed.

Lemma update_employee_pos_emits employee_id pos_id d :
  emits_only update_event (update_employee_pos site cfg employee_id pos_id d).
Proof.
  unfold update_employee_pos, logger_info, logger_warning.
  emits; first [apply step_delay_emits | apply wait_for_row_emits].
Qed.

Lemma login_total creds : total (login site cfg creds).
Proof. unfold login. totality. Qed.

Lemma refresh_page_total : total (refresh_page site cfg).
Proof. unfold refresh_page, logger_info. totality. Qed.

Lemma step_delay_total d : total (step_delay site d).
Proof. unfold step_delay. totality. Qed.

Lemma wait_for_row_total employee_id rounds :
  total (wait_for_row site employee_id rounds).
Proof.
  induction rounds as [|retry rounds IH]; simpl.
  - totality.
  - unfold logger_warning. totality.
Qed.

Lemma update_employee_pos_total employee_id pos_id d :
  total (update_employee_pos site cfg employee_id pos_id d).
Proof.
  unfold update_employee_pos, logger_info, logger_warning.
  totality; first [apply step_delay_total | apply wait_for_row_total].
Qed.

End Emitted.

#[export] Hint Resolve login_total refresh_page_total step_delay_total
  wait_for_row_total update_employee_pos_total : progs.

Opaque update_employee_pos refresh_page login.

(** ** The loops terminate; what a dry run emits *)

Section BatchTotal.

Variable site : Remote.
Variables (cfg : AppConfig) (dry_run : bool) (retries : Z)
          (retry_backoff_seconds : Q) (step_delay_ms : Z).
Implicit Types w : World site.

Local Abbreviation attempt_once' :=
  (attempt_once site cfg dry_run retries retry_backoff_seconds step_delay_ms).
Local Abbreviation attempt_loop' :=
  (attempt_loop site cfg dry_run retries retry_backoff_seconds step_delay_ms).
Local Abbreviation for_rows' :=
  (for_rows site cfg dry_run retries retry_backoff_seconds step_delay_ms).

Lemma attempt_once_total employee_id pos_id attempt results :
  total (attempt_once' employee_id pos_id attempt results).
Proof.
  unfold attempt_once, logger_info, logger_error, logger_warning.
  totality.
Qed.

(** The fuel [rounds_left] gives is enough. *)
Lemma attempt_loop_fuel fuel employee_id pos_id :
  forall attempt results,
  (Z.to_nat (retries - attempt) < fuel)%nat ->
  total (attempt_loop' fuel employee_id pos_id attempt results).
Proof.
  induction fuel as [|fuel IH]; intros attempt results Hfuel w; [lia|].
  simpl. rewrite result_bind.
  pose proof (attempt_once_total employee_id pos_id attempt results w) as Ht.
  pose proof (attempt_once_step site cfg dry_run retries retry_backoff_seconds
                step_delay_ms employee_id pos_id attempt results w) as Hs.
  destruct (result (attempt_once' employee_id pos_id attempt results w))
    as [step|e|]; [|discriminate|congruence].
  destruct (Hs step eq_refl) as [(r & -> & _) | (-> & Hle & _)].
  - discriminate.
  - apply IH. lia.
Qed.

Lemma attempt_loop_total employee_id pos_id results :
  total (attempt_loop' (rounds_left retries 0) employee_id pos_id 0 results).
Proof. apply attempt_loop_fuel. unfold rounds_left. lia. Qed.

#[local] Hint Resolve attempt_loop_total : progs.

Lemma for_rows_total rows : forall i results, total (for_rows' i rows results).
Proof.
  induction rows as [|[employee_id pos_id] rows IH]; intros i results;
    cbn [for_rows].
  - totality.
  - totality.
Qed.

End BatchTotal.

#[export] Hint Resolve for_rows_total : progs.

(** [run_updates] always ends: with the list of outcomes or with an
    exception. *)
Lemma run_updates_total site cfg creds rows headless dry_run retries
    retry_backoff_seconds step_delay_ms slowmo_ms :
  total (run_updates site cfg creds rows headless dry_run retries
           retry_backoff_seconds step_delay_ms slowmo_ms).
Proof.
  unfold run_updates, logger_info.
  totality.
Qed.

Section DryRun.

Variable site : Remote.
Variables (cfg : AppConfig) (retries : Z)
          (retry_backoff_seconds : Q) (step_delay_ms : Z).

Lemma session_event_dry ev : session_event ev = true -> dry_event ev = true.
Proof. unfold dry_event. intros ->. reflexivity. Qed.

Lemma refresh_page_dry_emits : emits_only dry_event (refresh_page site cfg).
Proof.
  eapply emits_only_weaken; [apply session_event_dry | apply refresh_page_emits].
Qed.

Lemma login_dry_emits creds : emits_only dry_event (login site cfg creds).
Proof.
  eapply emits_only_weaken; [apply session_event_dry | apply login_emits].
Qed.

#[local] Hint Resolve refresh_page_dry_emits login_dry_emits : progs.

Lemma attempt_once_dry_emits employee_id pos_id attempt results :
  emits_only dry_event
    (attempt_once site cfg true retries retry_backoff_seconds step_delay_ms
       employee_id pos_id attempt results).
Proof.
  unfold attempt_once, logger_info, logger_error, logger_warning. simpl.
  emits.
Qed.

#[local] Hint Resolve attempt_once_dry_emits : progs.

Lemma attempt_loop_dry_emits fuel employee_id pos_id :
  forall attempt results,
  emits_only dry_event
    (attempt_loop site cfg true retries retry_backoff_seconds step_delay_ms
       fuel employee_id pos_id attempt results).
Proof.
  induction fuel as [|fuel IH]; intros attempt results; simpl.
  - emits.
  - apply emits_only_bind; [apply attempt_once_dry_emits|].
    intros [res|attempt']; [emits | apply IH].
Qed.

#[local] Hint Resolve attempt_loop_dry_emits : progs.

Lemma for_rows_dry_emits rows :
  forall i results,
  emits_only dry_event
    (for_rows site cfg true retries retry_backoff_seconds step_delay_ms
       i rows results).
Proof.
  induction rows as [|[employee_id pos_id] rows IH]; intros i results;
    cbn [for_rows].
  - emits.
  - emits.
Qed.

End DryRun.

#[export] Hint Resolve login_dry_emits for_rows_dry_emits : progs.

Lemma run_updates_dry_emits site cfg creds rows headless retries
    retry_backoff_seconds step_delay_ms slowmo_ms :
  emits_only dry_event
    (run_updates site cfg creds rows headless true retries
       retry_backoff_seconds step_delay_ms slowmo_ms).
Proof.
  unfold run_updates, logger_info.
  emits.
Qed.

(** ** Counting in traces *)

Lemma count_events_app p t1 t2 :
  count_events p (t1 ++ t2) = (count_events p t1 + count_events p t2)%nat.
Proof. unfold count_events. rewrite filter_app, length_app. reflexivity. Qed.

Lemma update_exits_app t1 t2 :
  update_exits (t1 ++ t2) = (update_exits t1 ++ update_exits t2)%list.
Proof.
  induction t1 as [|ev t1 IH]; simpl; [reflexivity|].
  destruct ev as [| | | | | |[]|]; simpl; rewrite ?IH; reflexivity.
Qed.

Lemma resets_before_app t1 t2 : forall n,
  resets_before n (t1 ++ t2) =
  (resets_before n t1 ++ resets_before (resets_pending n t1) t2)%list.
Proof.
  induction t1 as [|ev t1 IH]; intros n; simpl; [reflexivity|].
  destruct (is_attempt ev); [rewrite IH; reflexivity|].
  destruct (is_refresh ev); apply IH.
Qed.

Lemma resets_pending_app t1 t2 : forall n,
  resets_pending n (t1 ++ t2) = resets_pending (resets_pending n t1) t2.
Proof.
  induction t1 as [|ev t1 IH]; intros n; simpl; [reflexivity|].
  destruct (is_attempt ev); [apply IH|].
  destruct (is_refresh ev); apply IH.
Qed.

(** Page events are invisible to all the observations. *)
Lemma page_events_silent t :
  forallb page_event t = true ->
  count_events is_attempt t = 0%nat /\ count_events is_refresh t = 0%nat /\
  count_events is_sleep t = 0%nat /\ count_events is_update_call t = 0%nat /\
  update_exits t = [] /\
  forall n, resets_before n t = [] /\ resets_pending n t = n.
Proof.
  unfold count_events.
  induction t as [|ev t IH]; simpl; [repeat split; reflexivity|].
  intros H. apply andb_prop in H as [Hev Ht].
  destruct ev as [| | |[]| | | |]; try discriminate Hev; exact (IH Ht).
Qed.

Transparent update_employee_pos refresh_page login.

Section Shapes.

Variable site : Remote.
Variable cfg : AppConfig.
Implicit Types w : World site.

Lemma step_delay_page d : emits_only page_event (step_delay site d).
Proof. unfold step_delay. emits. Qed.

Lemma wait_for_row_page employee_id rounds :
  emits_only page_event (wait_for_row site employee_id rounds).
Proof.
  induction rounds as [|retry rounds IH]; simpl.
  - emits.
  - unfold logger_warning. emits.
Qed.

Hint Resolve step_delay_page wait_for_row_page : progs.

Lemma update_employee_pos_shape employee_id pos_id d w :
  let r := update_employee_pos site cfg employee_id pos_id d w in
  exists inner,
    trace r = EEnter (FUpdateEmployeePos employee_id pos_id)
              :: (inner ++ [ELeave (FUpdateEmployeePos employee_id pos_id)
                                   (raised_of (result r))])%list /\
    forallb page_event inner = true.
Proof.
  unfold update_employee_pos. rewrite trace_traced, result_traced.
  eexists. split; [reflexivity|].
  match goal with |- forallb _ (trace (?m w)) = true =>
    enough (emits_only page_event m) as H by apply H end.
  unfold logger_info, logger_warning. emits.
Qed.

Lemma refresh_page_shape w :
  let r := refresh_page site cfg w in
  exists inner,
    trace r = EEnter FRefreshPage
              :: (inner ++ [ELeave FRefreshPage (raised_of (result r))])%list /\
    forallb page_event inner = true.
Proof.
  unfold refresh_page. rewrite trace_traced, result_traced.
  eexists. split; [reflexivity|].
  match goal with |- forallb _ (trace (?m w)) = true =>
    enough (emits_only page_event m) as H by apply H end.
  unfold logger_info. emits.
Qed.

Lemma login_shape creds w :
  let r := login site cfg creds w in
  exists inner,
    trace r = EEnter FLogin
              :: (inner ++ [ELeave FLogin (raised_of (result r))])%list /\
    forallb page_event inner = true.
Proof.
  unfold login. rewrite trace_traced, result_traced.
  eexists. split; [reflexivity|].
  match goal with |- forallb _ (trace (?m w)) = true =>
    enough (emits_only page_event m) as H by apply H end.
  emits.
Qed.

End Shapes.

Opaque update_employee_pos refresh_page login.

Lemma observed_page t :
  forallb page_event t = true ->
  observed t 0 0 0 0 [] (fun n => n) (fun _ => []).
Proof.
  intros H. apply page_events_silent in H as (? & ? & ? & ? & ? & H).
  split; auto; intro n; apply H.
Qed.

(** Observations on a trace cut in pieces: rewrite to the pieces. *)
Ltac observe :=
  split; intros;
  repeat first
    [ rewrite count_events_app | rewrite update_exits_app
    | rewrite resets_before_app | rewrite resets_pending_app
    | match goal with
      | H : observed ?t _ _ _ _ _ _ _ |- context [count_events is_attempt ?t] =>
          rewrite (obs_attempts _ _ _ _ _ _ _ _ H)
      | H : observed ?t _ _ _ _ _ _ _ |- context [count_events is_refresh ?t] =>
          rewrite (obs_resets _ _ _ _ _ _ _ _ H)
      | H : observed ?t _ _ _ _ _ _ _ |- context [count_events is_sleep ?t] =>
          rewrite (obs_sleeps _ _ _ _ _ _ _ _ H)
      | H : observed ?t _ _ _ _ _ _ _ |- context [count_events is_update_call ?t] =>
          rewrite (obs_calls _ _ _ _ _ _ _ _ H)
      | H : observed ?t _ _ _ _ _ _ _ |- context [update_exits ?t] =>
          rewrite (obs_exits _ _ _ _ _ _ _ _ H)
      | H : observed ?t _ _ _ _ _ _ _ |- context [resets_before _ ?t] =>
          rewrite (obs_gaps _ _ _ _ _ _ _ _ H)
      | H : observed ?t _ _ _ _ _ _ _ |- context [resets_pending _ ?t] =>
          rewrite (obs_pending _ _ _ _ _ _ _ _ H)
      end ];
  try reflexivity.

Section Observed.

Variable site : Remote.
Variable cfg : AppConfig.
Implicit Types w : World site.

Lemma update_employee_pos_observed employee_id pos_id d w :
  let r := update_employee_pos site cfg employee_id pos_id d w in
  observed (trace r) 0 0 0 1 [raised_of (result r)] (fun n => n) (fun _ => []).
Proof.
  intros r. destruct (update_employee_pos_shape site cfg employee_id pos_id d w)
    as (inner & Ht & Hinner).
  fold r in Ht. rewrite Ht.
  apply observed_page in Hinner.
  change (EEnter ?f :: ?t ++ ?l)%list with ([EEnter f] ++ t ++ l)%list.
  observe.
Qed.

Lemma refresh_page_observed w :
  let r := refresh_page site cfg w in
  observed (trace r) 0 1 0 0 [] S (fun _ => []).
Proof.
  intros r. destruct (refresh_page_shape site cfg w) as (inner & Ht & Hinner).
  fold r in Ht. rewrite Ht.
  apply observed_page in Hinner.
  change (EEnter ?f :: ?t ++ ?l)%list with ([EEnter f] ++ t ++ l)%list.
  observe.
Qed.

Lemma login_observed creds w :
  let r := login site cfg creds w in
  observed (trace r) 0 0 0 0 [] (fun n => n) (fun _ => []).
Proof.
  intros r. destruct (login_shape site cfg creds w) as (inner & Ht & Hinner).
  fold r in Ht. rewrite Ht.
  apply observed_page in Hinner.
  change (EEnter ?f :: ?t ++ ?l)%list with ([EEnter f] ++ t ++ l)%list.
  observe.
Qed.

End Observed.

Section Rounds.

Variable site : Remote.
Variables (cfg : AppConfig) (dry_run : bool) (retries : Z)
          (retry_backoff_seconds : Q) (step_delay_ms : Z).
Implicit Types w : World site.

Local Abbreviation attempt_once' :=
  (attempt_once site cfg dry_run retries retry_backoff_seconds step_delay_ms).
Local Abbreviation attempt_loop' :=
  (attempt_loop site cfg dry_run retries retry_backoff_seconds step_delay_ms).
Local Abbreviation for_rows' :=
  (for_rows site cfg dry_run retries retry_backoff_seconds step_delay_ms).

Lemma attempt_once_observed employee_id pos_id attempt results w step :
  let r := attempt_once' employee_id pos_id attempt results w in
  result r = Return step ->
  match step with
  | Continue attempt' =>
      exists e, attempt' = attempt + 1 /\ attempt' <= retries /\
                dry_run = false /\
                observed (trace r) 1 1 1 1 [Some e] (fun _ => 1%nat) (fun n => [n])
  | Break res =>
      (dry_run = true /\
       res = (results ++ [succeeded employee_id pos_id None])%list /\
       observed (trace r) 1 0 0 0 [] (fun _ => 0%nat) (fun n => [n])) \/
      (dry_run = false /\
       exists x,
         observed (trace r) 1 0 0 1 [x] (fun _ => 0%nat) (fun n => [n]) /\
         match x with
         | None => exists old_value,
             res = (results ++ [succeeded employee_id pos_id (Some old_value)])%list
         | Some e =>
             res = (results ++ [failed employee_id pos_id e])%list /\
             attempt + 1 > retries
         end)
  end.
Proof.
  unfold attempt_once, logger_info, logger_error, logger_warning.
  destruct dry_run; cbn.
  - intros [= <-]. left. repeat split; reflexivity.
  - pose proof (update_employee_pos_observed site cfg employee_id pos_id
                  step_delay_ms w) as Hu.
    cbn in Hu. revert Hu.
    unfold bind, try_except, emit, ret, tell. cbn.
    destruct (update_employee_pos site cfg employee_id pos_id step_delay_ms w)
      as [o w1 t1].
    destruct o as [old_value|e|]; cbn; intros Hu.
    + intros [= <-]. right. split; [reflexivity|]. exists None.
      split; [|eauto]. rewrite app_nil_r.
      change (?a :: ?b :: t1) with ([a; b] ++ t1)%list. observe.
    + destruct (attempt + 1 >? retries) eqn:Hgt; cbn.
      * intros [= <-]. right. split; [reflexivity|]. exists (Some e).
        split; [|split; [reflexivity|lia]].
        change (?a :: ?b :: t1 ++ ?c)%list with ([a; b] ++ t1 ++ c)%list.
        observe.
      * pose proof (refresh_page_observed site cfg w1) as Hr.
        cbn in Hr. revert Hr.
        destruct (refresh_page site cfg w1) as [o2 w2 t2].
        destruct o2; cbn; intros Hr; try discriminate.
        intros [= <-]. exists e. split; [reflexivity|].
        split; [lia|]. split; [reflexivity|].
        change (?a :: ?b :: t1 ++ ?c :: t2 ++ ?d)%list
          with ([a; b] ++ t1 ++ [c] ++ t2 ++ d)%list.
        observe.
    + discriminate.
Qed.

Lemma attempt_loop_observed fuel employee_id pos_id :
  forall attempt results w res,
  let r := attempt_loop' fuel employee_id pos_id attempt results w in
  result r = Return res ->
  exists es : list exn,
    let k := length es in
    (es = [] \/ attempt + Z.of_nat k <= retries) /\
    ((dry_run = true /\ es = [] /\
      res = (results ++ [succeeded employee_id pos_id None])%list /\
      observed (trace r) 1 0 0 0 [] (fun _ => 0%nat) (fun n => [n])) \/
     (dry_run = false /\
      exists x,
        observed (trace r) (S k) k k (S k) (map Some es ++ [x])
                 (fun _ => 0%nat) (fun n => n :: repeat 1%nat k) /\
        match x with
        | None => exists old_value,
            res = (results ++ [succeeded employee_id pos_id (Some old_value)])%list
        | Some e =>
            res = (results ++ [failed employee_id pos_id e])%list /\
            attempt + Z.of_nat k + 1 > retries
        end)).
Proof.
  induction fuel as [|fuel IH]; intros attempt results w res r H; subst r;
    [discriminate|].
  cbn [attempt_loop] in *.
  rewrite trace_bind.
  apply bind_Return in H as (step & Hstep & H). rewrite Hstep.
  pose proof (attempt_once_observed employee_id pos_id attempt results w step
                Hstep) as Hobs.
  destruct step as [res'|attempt'].
  - injection H as <-. exists []. split; [auto|].
    cbn [ret trace]. rewrite app_nil_r.
    destruct Hobs as [(? & ? & ?) | (? & x & ? & ?)]; [left; auto|].
    right. split; [assumption|]. exists x. split; [assumption|].
    destruct x; [|assumption]. cbn. rewrite Z.add_0_r. assumption.
  - destruct Hobs as (e & -> & Hle & Hdry & Hobs).
    apply IH in H as (es & Hes & [(Hdry' & _) | (_ & x & Hloop & Hx)]);
      [congruence|].
    exists (e :: es). cbn [length]. split; [right; destruct Hes; subst; cbn in *; lia|].
    right. split; [assumption|]. exists x. split.
    + observe.
    + destruct x; [|assumption]. destruct Hx. split; [assumption|lia].
Qed.

Lemma repeat_one_more {A} (x : A) k j :
  (repeat x k ++ x :: repeat x j)%list = repeat x (k + S j).
Proof. rewrite repeat_app. reflexivity. Qed.

Lemma for_rows_observed rows :
  forall i results w res, 0 <= i ->
  let r := for_rows' i rows results w in
  let n := length rows in
  let K := count_events is_sleep (trace r) in
  let b := if i >? 0 then 1%nat else 0%nat in
  result r = Return res ->
  observed (trace r) (n + K) (n + b - 1 + K) K (if dry_run then 0 else n + K)
           (update_exits (trace r))
           (fun m => match rows with [] => m | _ => 0%nat end)
           (fun m => match rows with
                     | [] => []
                     | _ => (m + b)%nat :: repeat 1%nat (n - 1 + K)
                     end).
Proof.
  induction rows as [|[employee_id pos_id] rows IH];
    intros i results w res Hi r n K b H; subst r n K b.
  - cbn. destruct dry_run, (i >? 0); split; reflexivity.
  - cbn [for_rows] in *.
    apply bind_Return in H as (u & H1 & H).
    apply bind_Return in H as (results' & H2 & H3).
    rewrite ?trace_bind, H1, ?trace_bind, H2.
    apply attempt_loop_observed in H2 as (es & _ & H2).
    apply IH in H3; [|lia]. clear IH.
    replace (i + 1 >? 0) with true in H3 by (symmetry; apply Z.gtb_lt; lia).
    match type of H3 with
    | context [count_events is_sleep ?t] =>
        set (K := count_events is_sleep t) in *
    end.
    set (n := length rows) in *. cbn [length].
    assert (Hfirst :
      observed (trace ((if i >? 0 then refresh_page site cfg else ret tt) w))
               0 (if i >? 0 then 1 else 0) 0 0 []
               (fun m => (m + if i >? 0 then 1 else 0)%nat) (fun _ => [])).
    { destruct (i >? 0).
      - pose proof (refresh_page_observed site cfg w) as [].
        split; auto. intros m. rewrite Nat.add_1_r. auto.
      - split; try reflexivity. intros m. cbn. lia. }
    assert (Hgaps : forall k m,
      ((m :: repeat 1%nat k) ++
       match rows with
       | [] => []
       | _ :: _ => (0 + 1)%nat :: repeat 1%nat (n - 1 + K)
       end)%list = m :: repeat 1%nat (S n - 1 + (k + K))).
    { intros k m. subst n K. destruct rows as [|row rows]; cbn [length app].
      - cbn. rewrite app_nil_r, !Nat.add_0_r. reflexivity.
      - rewrite repeat_one_more. do 2 f_equal. lia. }
    destruct H2 as [(Hdry & -> & _ & H2) | (Hdry & x & H2 & _)];
      rewrite Hdry in *.
    + observe; try (cbn; lia).
      * apply (Hgaps 0%nat).
      * destruct rows; reflexivity.
    + observe; try (cbn; lia).
      * apply (Hgaps (length es)).
      * destruct rows; reflexivity.
Qed.

End Rounds.

(** A completed [bind] and a completed [try/finally] emit the events of
    their two parts. *)
Lemma bind_Return_trace {site : Remote} {A B} (m : M site A)
    (k : A -> M site B) w b :
  result (bind m k w) = Return b ->
  exists a, result (m w) = Return a /\
            result (k a (final (m w))) = Return b /\
            trace (bind m k w) = (trace (m w) ++ trace (k a (final (m w))))%list.
Proof.
  intros H. pose proof H as H'. apply bind_Return in H' as (a & Ha & Hb).
  exists a. rewrite trace_bind, Ha. auto.
Qed.

Lemma try_finally_Return_trace {site : Remote} {A} (m : M site A) f w a :
  result (try_finally m f w) = Return a ->
  result (m w) = Return a /\
  trace (try_finally m f w) = (trace (m w) ++ trace (f (final (m w))))%list.
Proof.
  intros H. pose proof (try_finally_Return _ _ _ _ _ H) as Ha.
  rewrite trace_try_finally, Ha. auto.
Qed.

Lemma perform_page {site : Remote} a : emits_only page_event (perform (site:=site) a).
Proof. emits. Qed.

#[export] Hint Resolve perform_page : progs.

Lemma run_updates_observed site cfg creds rows headless dry_run retries
    retry_backoff_seconds step_delay_ms slowmo_ms (w : World site) res :
  let r := run_updates site cfg creds rows headless dry_run retries
             retry_backoff_seconds step_delay_ms slowmo_ms w in
  let n := length rows in
  let K := count_events is_sleep (trace r) in
  result r = Return res ->
  observed (trace r) (n + K) (n - 1 + K) K (if dry_run then 0 else n + K)
           (update_exits (trace r))
           (fun m => match rows with [] => m | _ => 0%nat end)
           (fun m => match rows with
                     | [] => []
                     | _ => m :: repeat 1%nat (n - 1 + K)
                     end).
Proof.
  intros r n K H. subst r n K. unfold run_updates in *.
  apply bind_Return_trace in H as (u1 & H1 & H & ->).
  apply try_finally_Return_trace in H as (H & ->).
  apply bind_Return_trace in H as (u2 & H2 & H & ->).
  apply bind_Return_trace in H as (u3 & H3 & H & ->).
  apply bind_Return_trace in H as (u4 & H4 & H & ->).
  apply try_finally_Return_trace in H as (H & ->).
  apply bind_Return_trace in H as (u5 & H5 & H & ->).
  apply bind_Return_trace in H as (u6 & H6 & H & ->).
  apply bind_Return_trace in H as (u7 & H7 & H & ->).
  apply for_rows_observed in H; [|lia].
  change (0 >? 0) with false in H. cbv iota in H.
  repeat match goal with
  | |- context [trace (?m ?w)] =>
      lazymatch goal with
      | _ : observed (trace (m w)) _ _ _ _ _ _ _ |- _ => fail
      | _ => idtac
      end;
      let Hs := fresh "Hs" in
      assert (Hs : observed (trace (m w)) 0 0 0 0 []
                            (fun n => n) (fun _ => []))
        by first
             [ apply login_observed
             | apply (fun Hm : emits_only page_event m => observed_page _ (Hm w));
               unfold logger_info; emits ]
  end.
  clear H1 H2 H3 H4 H5 H6 H7.
  observe; cbn [app]; rewrite ?Nat.add_0_r, ?Nat.add_0_l, ?app_nil_r;
    reflexivity.
Qed.

Transparent update_employee_pos refresh_page login.

(** ** Outcomes of a batch *)

Lemma Forall2_nth_error_l {A B} (R : A -> B -> Prop) l l' :
  Forall2 R l l' ->
  forall i a, nth_error l i = Some a ->
  exists b, nth_error l' i = Some b /\ R a b.
Proof.
  induction 1 as [|x y l l' Hxy _ IH]; intros [|i] a; simpl; try discriminate.
  - intros [= <-]. eauto.
  - apply IH.
Qed.

Lemma produced_ids dry_run row r :
  produced dry_run row r -> (employee_id r, pos_id r) = row.
Proof. destruct 1; reflexivity. Qed.

(** C1: a run of [run_updates] that completes returns exactly one outcome
    per input row: the list of outcomes is as long as the list of rows,
    and the i-th outcome is the one recorded for the i-th row (it carries
    that row's employee id and target value). *)
Theorem run_updates_one_outcome_per_row site cfg creds rows headless dry_run
    retries retry_backoff_seconds step_delay_ms slowmo_ms (w : World site) res :
  result (run_updates site cfg creds rows headless dry_run retries
            retry_backoff_seconds step_delay_ms slowmo_ms w) = Return res ->
  length res = length rows /\
  map (fun r => (employee_id r, pos_id r)) res = rows /\
  forall i row, nth_error rows i = Some row ->
    exists r, nth_error res i = Some r /\
              employee_id r = fst row /\ pos_id r = snd row /\
              produced dry_run row r.
Proof.
  intros H. apply run_updates_produced in H.
  split; [symmetry; eapply Forall2_length; eassumption|].
  split.
  - induction H as [|row r rows res Hr _ IH]; simpl; [reflexivity|].
    rewrite IH, (produced_ids _ _ _ Hr). reflexivity.
  - intros i row Hi.
    destruct (Forall2_nth_error_l _ _ _ H i row Hi) as (r & Hr & Hp).
    exists r. pose proof (produced_ids _ _ _ Hp) as <-. auto.
Qed.

(** A run over three rows: one updated, one unknown to the console, one
    updated. *)
Lemma run_updates_one_outcome_per_row_witness :
  let res := [succeeded "E1" "P1" (Some "P0");
              failed "E3" "P7" (no_permission_msg "E3");
              succeeded "E2" "P2" (Some "P9")] in
  length res = length example_rows /\
  map (fun r => (employee_id r, pos_id r)) res = example_rows /\
  forall i row, nth_error example_rows i = Some row ->
    exists r, nth_error res i = Some r /\
              employee_id r = fst row /\ pos_id r = snd row /\
              produced false row r.
Proof.
  apply (run_updates_one_outcome_per_row example_site example_cfg
           example_creds example_rows true false None None 0 0
           (console_with example_employees 0)).
  vm_compute. reflexivity.
Defined.

(** C2: in every outcome returned by [run_updates], [success] holds
    exactly when [error] is [None]; a successful outcome has [new_pos]
    equal to the row's target value; and [old_pos] is set only by a
    successful update that was not a dry run. *)
Theorem run_updates_outcome_invariant site cfg creds rows headless dry_run
    retries retry_backoff_seconds step_delay_ms slowmo_ms (w : World site) res :
  result (run_updates site cfg creds rows headless dry_run retries
            retry_backoff_seconds step_delay_ms slowmo_ms w) = Return res ->
  Forall2 (fun row r =>
             (success r = true <-> error r = None) /\
             (success r = true -> new_pos r = Some (snd row)) /\
             (old_pos r <> None -> dry_run = false /\ success r = true))
          rows res.
Proof.
  intros H. apply run_updates_produced in H.
  induction H as [|row r rows res Hr _ IH]; constructor; [|exact IH].
  destruct Hr; simpl; repeat split; congruence.
Qed.

(** The run of the three example rows. *)
Lemma run_updates_outcome_invariant_witness :
  Forall2 (fun row r =>
             (success r = true <-> error r = None) /\
             (success r = true -> new_pos r = Some (snd row)) /\
             (old_pos r <> None -> false = false /\ success r = true))
          example_rows
          [succeeded "E1" "P1" (Some "P0");
           failed "E3" "P7" (no_permission_msg "E3");
           succeeded "E2" "P2" (Some "P9")].
Proof.
  apply (run_updates_outcome_invariant example_site example_cfg example_creds
           example_rows true false None None 0 0
           (console_with example_employees 0)).
  vm_compute. reflexivity.
Defined.

Lemma dry_trace_no_update t :
  forallb dry_event t = true ->
  count_events is_update_call t = 0%nat /\ update_exits t = [].
Proof.
  unfold count_events.
  induction t as [|ev t IH]; simpl; [auto|].
  intros H. apply andb_prop in H as [Hev Ht]. specialize (IH Ht).
  destruct ev as [| | | | |f|f|]; try discriminate Hev; simpl; try exact IH;
    destruct f; try discriminate Hev; exact IH.
Qed.

(** C3: with [dry_run = true], [run_updates] never calls
    [update_employee_pos], whatever the site answers; and when the run
    completes, the outcome of every row is a success with [old_pos]
    absent and [new_pos] equal to the row's target value. *)
Theorem run_updates_dry_run site cfg creds rows headless retries
    retry_backoff_seconds step_delay_ms slowmo_ms (w : World site) :
  let r := run_updates site cfg creds rows headless true retries
             retry_backoff_seconds step_delay_ms slowmo_ms w in
  count_events is_update_call (trace r) = 0%nat /\
  update_exits (trace r) = [] /\
  forall res, result r = Return res ->
    res = map (fun row => {| employee_id := fst row; pos_id := snd row;
                             success := true; old_pos := None;
                             new_pos := Some (snd row); error := None |}) rows.
Proof.
  intros r.
  pose proof (run_updates_dry_emits site cfg creds rows headless retries
                retry_backoff_seconds step_delay_ms slowmo_ms w) as Hdry.
  fold r in Hdry. apply dry_trace_no_update in Hdry as [Hcalls Hexits].
  split; [exact Hcalls|]. split; [exact Hexits|].
  intros res H. apply run_updates_produced in H.
  clear Hcalls Hexits r.
  induction H as [|row x rows' res Hx _ IH]; simpl; [reflexivity|].
  rewrite IH. f_equal. destruct Hx; try discriminate. reflexivity.
Qed.

(** A dry run over three rows, one of them unknown to the console: all
    succeed, nothing was saved. *)
Lemma run_updates_dry_run_witness :
  let r := run_updates example_site example_cfg example_creds
             example_rows true true None None 0 0
             (console_with example_employees 0) in
  result r = Return [succeeded "E1" "P1" None; succeeded "E3" "P7" None;
                     succeeded "E2" "P2" None] /\
  saved (final r) = [] /\
  count_events is_update_call (trace r) = 0%nat /\
  [succeeded "E1" "P1" None; succeeded "E3" "P7" None; succeeded "E2" "P2" None]
  = map (fun row => {| employee_id := fst row; pos_id := snd row;
                       success := true; old_pos := None;
                       new_pos := Some (snd row); error := None |})
        example_rows.
Proof.
  intros r. split; [vm_compute; reflexivity|].
  split; [vm_compute; reflexivity|].
  pose proof (run_updates_dry_run example_site example_cfg example_creds
                example_rows true None None 0 0
                (console_with example_employees 0)) as (Hcalls & _ & Hres).
  split; [exact Hcalls|]. apply Hres. vm_compute. reflexivity.
Defined.

(** ** The retry budget *)



(** Scenario B of the specification, through [run_updates] with the
    default configuration. *)
Example run_updates_permission_denied :
  let r := run_updates example_site example_cfg example_creds [("E3", "P7")]
             true false None None 0 0 (console_with example_employees 0) in
  result r = Return [failed "E3" "P7" (no_permission_msg "E3")] /\
  count_events is_update_call (trace r) = 3%nat /\
  count_events is_refresh (trace r) = 2%nat.
Proof. vm_compute. auto. Qed.

(** ** Session resets *)

(** C5: in a run of [run_updates] that completes, [refresh_page] is
    called exactly once before every attempt except the very first one,
    that is once before each row after the first and once before each
    retry: no reset precedes the first attempt, exactly one lies between
    any two consecutive attempts, and the total is
    [(num_rows - 1) + total_retry_count], the number of rows after the
    first plus the number of retries (for an empty list there is no row
    after the first and no reset). *)
Theorem session_resets site cfg creds rows headless dry_run retries
    retry_backoff_seconds step_delay_ms slowmo_ms (w : World site) res :
  let r := run_updates site cfg creds rows headless dry_run retries
             retry_backoff_seconds step_delay_ms slowmo_ms w in
  let num_rows := length rows in
  let total_retry_count := retry_count (trace r) in
  let reset_count := count_events is_refresh (trace r) in
  result r = Return res ->
  reset_count = (num_rows - 1 + total_retry_count)%nat /\
  (rows <> [] ->
   Z.of_nat reset_count
   = (Z.of_nat num_rows - 1) + Z.of_nat total_retry_count) /\
  count_events is_attempt (trace r) = (num_rows + total_retry_count)%nat /\
  count_events is_update_call (trace r)
    = (if dry_run then 0 else num_rows + total_retry_count)%nat /\
  resets_before 0 (trace r)
    = match rows with
      | [] => []
      | _ => 0%nat :: repeat 1%nat (num_rows - 1 + total_retry_count)
      end.
Proof.
  intros r num_rows total_retry_count reset_count H.
  apply run_updates_observed in H. destruct H as [Ha Hr _ Hc _ Hg _].
  subst reset_count. fold r in Hr. rewrite Hr.
  repeat split; auto.
  intros Hrows. subst num_rows. unfold total_retry_count, retry_count.
  destruct rows; [congruence | cbn [length]; lia].
Qed.

(** One failing navigation ahead: the first row needs one retry, the
    second (unknown to the console) uses up its two retries, the third
    succeeds at once: 2 + 3 resets. *)
Lemma session_resets_witness :
  let r := run_updates example_site example_cfg example_creds example_rows
             true false None None 0 0 (console_with example_employees 1) in
  result r = Return [succeeded "E1" "P1" (Some "P0");
                     failed "E3" "P7" (no_permission_msg "E3");
                     succeeded "E2" "P2" (Some "P9")] /\
  retry_count (trace r) = 3%nat /\
  count_events is_refresh (trace r) = 5%nat /\
  resets_before 0 (trace r) = [0; 1; 1; 1; 1; 1]%nat.
Proof.
  intros r.
  assert (H : result r = Return [succeeded "E1" "P1" (Some "P0");
                                 failed "E3" "P7" (no_permission_msg "E3");
                                 succeeded "E2" "P2" (Some "P9")])
    by (vm_compute; reflexivity).
  assert (HK : retry_count (trace r) = 3%nat) by (vm_compute; reflexivity).
  split; [exact H|]. split; [exact HK|].
  destruct (session_resets example_site example_cfg example_creds example_rows
              true false None None 0 0 (console_with example_employees 1) _ H)
    as (Hr & _ & _ & _ & Hg).
  fold r in Hr, Hg. rewrite HK in Hr, Hg. split; [exact Hr | exact Hg].
Defined.

(** ** A failure of the session reset leaves the batch *)

(** C7, at the failing input: two navigations to the search page fail in
    a row, then the site is back.  The first one makes
    [update_employee_pos] fail, a row-scoped failure with two retries
    left; the second one hits [refresh_page] inside the handler, and its
    exception leaves [run_updates]: no outcome is returned for any row. *)
Theorem reset_failure_aborts_batch :
  let r := run_updates example_site example_cfg example_creds
             [("E1", "P1"); ("E2", "P2")] true false None None 0 0
             (console_with example_employees 2) in
  result r = Raise "net::ERR_CONNECTION_RESET" /\
  In (ELeave FLogin None) (trace r) /\
  update_exits (trace r) = [Some "net::ERR_CONNECTION_RESET"] /\
  In (ELeave FRefreshPage (Some "net::ERR_CONNECTION_RESET")) (trace r) /\
  count_events is_attempt (trace r) = 1%nat /\
  outage (final r) = 0%nat.
Proof. vm_compute. intuition. Qed.

(** The same site with a single failing navigation: the retry works. *)
Example one_failure_is_retried :
  let r := run_updates example_site example_cfg example_creds
             [("E1", "P1"); ("E2", "P2")] true false None None 0 0
             (console_with example_employees 1) in
  result r = Return [succeeded "E1" "P1" (Some "P0");
                     succeeded "E2" "P2" (Some "P9")] /\
  retry_count (trace r) = 1%nat /\
  saved (final r) = [("E1", "P1"); ("E2", "P2")].
Proof. vm_compute. auto. Qed.

(** ** cli.py: the permission-denied report *)

Lemma partition_failures_acc results :
  forall denied others,
  partition_failures results denied others =
  (denied ++ map employee_id
               (filter (fun r => negb (success r) && permission_denied_error r)
                       results),
   others ++ filter (fun r => negb (success r)
                              && negb (permission_denied_error r)) results)%list.
Proof.
  induction results as [|r results IH]; intros denied others; simpl.
  - rewrite !app_nil_r. reflexivity.
  - destruct (success r); simpl; [apply IH|].
    destruct (permission_denied_error r); simpl; rewrite IH, <- app_assoc;
      reflexivity.
Qed.

(** C10, as the specification words it, fails: a failure whose error
    text matches "permission" is kept out of the permission-denied
    report when the text does not contain "no permission". *)
Lemma permission_text_not_routed :
  let r := failed "E1" "P1" "permission denied by policy" in
  success r = false /\
  spec_permission_match r = true /\
  partition_failures [r] [] [] = ([], [r]) /\
  ~ (forall results,
       fst (partition_failures results [] []) =
       map employee_id
           (filter (fun r => negb (success r) && spec_permission_match r)
                   results)).
Proof.
  intros r. repeat split.
  intros H. specialize (H [r]). vm_compute in H. discriminate.
Qed.

(** C10, amended: the employee ids of exactly those failed outcomes
    whose error text, in lower case, contains "no permission" or
    "not found" go to the permission-denied report, in order, and the
    report is written only when there is at least one; all other failed
    outcomes are collected apart, in order; successes go to neither. *)
Theorem partition_failures_exact results :
  let denied :=
    map employee_id
        (filter (fun r => negb (success r) && permission_denied_error r)
                results) in
  partition_failures results [] [] =
  (denied,
   filter (fun r => negb (success r) && negb (permission_denied_error r))
          results) /\
  permission_denied_report results =
  match denied with
  | [] => None
  | _ => Some (map (fun emp_id => (emp_id, "No permission to access user"))
                   denied)
  end.
Proof.
  intros denied. unfold permission_denied_report.
  rewrite partition_failures_acc. cbn [app fst]. fold denied.
  split; [reflexivity|]. destruct denied; reflexivity.
Qed.

(** The error of the "no data" indicator is routed to the report whatever
    the employee id. *)
Lemma no_permission_is_routed employee_id pos_id :
  permission_denied_error
    (failed employee_id pos_id (no_permission_msg employee_id)) = true.
Proof. reflexivity. Qed.

(** ** Row selection *)

Arguments String.append !s1 s2.

Lemma append_empty_r s : (s ++ "")%string = s.
Proof. induction s as [|c s IH]; cbn [append]; [|rewrite IH]; reflexivity. Qed.

Lemma append_assoc' s t u : ((s ++ t) ++ u)%string = (s ++ t ++ u)%string.
Proof. induction s as [|c s IH]; cbn [append]; [|rewrite IH]; reflexivity. Qed.

Lemma rev_string_app s : forall acc t,
  rev_string acc (s ++ t) = rev_string (rev_string acc s) t.
Proof.
  induction s as [|c s IH]; intros acc t; cbn [append rev_string];
    [reflexivity | apply IH].
Qed.

Lemma rev_string_acc s : forall acc,
  rev_string acc s = (rev_string "" s ++ acc)%string.
Proof.
  induction s as [|c s IH]; intros acc; cbn [rev_string]; [reflexivity|].
  rewrite IH, (IH (String c "")), append_assoc'. reflexivity.
Qed.

Lemma rev_string_twice s : forall a b,
  rev_string a (rev_string b s) = rev_string (s ++ a) b.
Proof.
  induction s as [|c s IH]; intros a b; cbn [append rev_string];
    [reflexivity|].
  rewrite IH. reflexivity.
Qed.

Lemma rev_string_involutive s : rev_string "" (rev_string "" s) = s.
Proof. rewrite rev_string_twice. cbn [rev_string]. apply append_empty_r. Qed.

Lemma drop_prefix_app p s : drop_prefix p (p ++ s) = Some s.
Proof.
  induction p as [|c p IH]; cbn [append drop_prefix]; [reflexivity|].
  rewrite Ascii.eqb_refl. exact IH.
Qed.

Lemma drop_suffix_app p s : drop_suffix p (s ++ p) = Some s.
Proof.
  unfold drop_suffix.
  rewrite rev_string_app, (rev_string_acc p (rev_string "" s)), drop_prefix_app.
  cbn [option_map]. rewrite rev_string_involutive. reflexivity.
Qed.

(** The console reads the literal back out of the selector the program
    builds. *)
Lemma parse_row_xpath_row_xpath employee_id :
  parse_row_xpath (row_xpath employee_id) = Some employee_id.
Proof.
  unfold parse_row_xpath, row_xpath.
  rewrite drop_prefix_app. apply drop_suffix_app.
Qed.

Lemma row_matches_true employee_id r :
  row_matches employee_id r = true <->
  exists td, In td r /\ normalize_space td = employee_id.
Proof.
  unfold row_matches. rewrite existsb_exists.
  split; intros (td & Hin & H); exists td; split; auto;
    apply String.eqb_eq; exact H.
Qed.

Lemma row_matches_false employee_id r :
  row_matches employee_id r = false ->
  forall td, In td r -> normalize_space td <> employee_id.
Proof.
  intros H td Hin Heq.
  assert (row_matches employee_id r = true) by (apply row_matches_true; eauto).
  congruence.
Qed.


Lemma update_employee_pos_selects site cfg employee_id pos_id d :
  emits_only (selects_first_match employee_id)
             (update_employee_pos site cfg employee_id pos_id d).
Proof.
  assert (Hclick : emits_only (selects_first_match employee_id)
            (perform (site:=site)
               (FirstRowClick (row_xpath employee_id)
                              "input[name='sharing_partner_rad']"))).
  { apply emits_only_perform. intro r. cbn [selects_first_match].
    rewrite String.eqb_refl. reflexivity. }
  assert (Hwait : forall rounds,
            emits_only (selects_first_match employee_id)
                       (wait_for_row site employee_id rounds)).
  { induction rounds as [|retry rounds IH]; cbn [wait_for_row];
      unfold logger_warning; emits. }
  unfold update_employee_pos, step_delay, logger_info, logger_warning. emits.
Qed.


(** Matching is by equality after normalisation: the cell "E10" does not
    match "E1", the cell " E1 " with a line break does. *)
Example row_selection_exact :
  selected_row "E1" [["E10"; "P3"]] = None /\
  selected_row "E1" [["E10"; "P3"]; [String " " (String "E" (String "1" (String (ascii_of_nat 10) " "))); "P0"]]
    = Some [String " " (String "E" (String "1" (String (ascii_of_nat 10) " "))); "P0"] /\
  selected_row "E1" [["E7"; "E1"]] = Some ["E7"; "E1"].
Proof. vm_compute. auto. Qed.

(** ** Running a computation step by step *)

Section Stepping.

Variable site : Remote.
Implicit Types w : World site.

Lemma exec_eta {A} (x : exec (World site) A) :
  x = Exec (result x) (final x) (trace x).
Proof. destruct x; reflexivity. Qed.

Lemma after_nil {A} (x : exec (World site) A) : after [] x = x.
Proof. destruct x; reflexivity. Qed.

Lemma run_perform {B} a (k : unit -> M site B) w :
  bind (perform a) k w =
  match act site a w with
  | (Returned u, w') => after [EAct a (Returned u)] (k u w')
  | (Raised e, w') => Exec (Raise e) w' [EAct a (Raised e)]
  end.
Proof.
  unfold bind, perform. destruct (act site a w) as [[u|e] w']; reflexivity.
Qed.

Lemma run_count {B} sel (k : Z -> M site B) w :
  bind (locator_count sel) k w =
  match count site sel w with
  | (Returned n, w') => after [ECount sel (Returned n)] (k n w')
  | (Raised e, w') => Exec (Raise e) w' [ECount sel (Raised e)]
  end.
Proof.
  unfold bind, locator_count. destruct (count site sel w) as [[u|e] w']; reflexivity.
Qed.

Lemma run_obtain {B} q (k : string -> M site B) w :
  bind (obtain q) k w =
  match read site q w with
  | (Returned s, w') => after [ERead q (Returned s)] (k s w')
  | (Raised e, w') => Exec (Raise e) w' [ERead q (Raised e)]
  end.
Proof.
  unfold bind, obtain. destruct (read site q w) as [[u|e] w']; reflexivity.
Qed.

Lemma run_emit {B} ev (k : unit -> M site B) w :
  bind (emit ev) k w = after [ev] (k tt w).
Proof. reflexivity. Qed.

Lemma run_tell {B} s (k : unit -> M site B) w :
  bind (tell s) k w = after [ESignal s] (k tt (notify site s w)).
Proof. reflexivity. Qed.

Lemma run_ret {A B} (a : A) (k : A -> M site B) w :
  bind (ret a) k w = k a w.
Proof. unfold bind, ret. cbn. symmetry. apply exec_eta. Qed.

Lemma run_raise {A B} e (k : A -> M site B) w :
  bind (raise e) k w = Exec (Raise e) w [].
Proof. reflexivity. Qed.

Lemma run_last_ret {A} (a : A) w : ret a w = Exec (Return a) w [].
Proof. reflexivity. Qed.

Lemma run_last_raise {A} e w : raise (A:=A) e w = Exec (Raise e) w [].
Proof. reflexivity. Qed.

Lemma after_after {A} t1 t2 (x : exec (World site) A) :
  after t1 (after t2 x) = after (t1 ++ t2) x.
Proof. unfold after. cbn. rewrite app_assoc. reflexivity. Qed.

Lemma after_Exec {A} t (o : outcome A) w t' :
  after t (Exec o w t') = Exec o w (t ++ t').
Proof. reflexivity. Qed.

Lemma bind_assoc {A B C} (m : M site A) (k1 : A -> M site B)
    (k2 : B -> M site C) w :
  bind (bind m k1) k2 w = bind m (fun a => bind (k1 a) k2) w.
Proof.
  unfold bind. destruct (m w) as [[a|e|] w1 t1]; cbn; try reflexivity.
  destruct (k1 a w1) as [[b|e|] w2 t2]; cbn; try reflexivity.
  rewrite app_assoc. reflexivity.
Qed.

(** [try: await op / except: h] followed by [k] *)
Lemma run_try_perform {B} a (h : exn -> M site unit) (k : unit -> M site B) w :
  bind (try_except (perform a) h) k w =
  match act site a w with
  | (Returned u, w') => after [EAct a (Returned u)] (k u w')
  | (Raised e, w') => after [EAct a (Raised e)] (bind (h e) k w')
  end.
Proof.
  unfold bind, try_except, perform.
  destruct (act site a w) as [[u|e] w']; cbn; try reflexivity.
  destruct (h e w') as [[b|e'|] w2 t2]; cbn; try reflexivity.
Qed.

(** [try: await op; break / except: h] followed by [k] *)
Lemma run_try_perform_ret {A B} a (v : A) (h : exn -> M site A)
    (k : A -> M site B) w :
  bind (try_except (bind (perform a) (fun _ => ret v)) h) k w =
  match act site a w with
  | (Returned u, w') => after [EAct a (Returned u)] (k v w')
  | (Raised e, w') => after [EAct a (Raised e)] (bind (h e) k w')
  end.
Proof.
  unfold bind, try_except, perform, ret.
  destruct (act site a w) as [[u|e] w']; cbn.
  - destruct (k v w') as [o w3 t3]; reflexivity.
  - destruct (h e w') as [[b|e'|] w2 t2]; cbn; try reflexivity.
Qed.

Lemma run_traced {A} f (m : M site A) w :
  traced f m w =
  Exec (result (m w)) (final (m w))
       (EEnter f :: trace (m w) ++ [ELeave f (raised_of (result (m w)))]).
Proof. reflexivity. Qed.

End Stepping.

Ltac run_head site m k w :=
  lazymatch m with
  | perform ?a =>
      rewrite (run_perform site a k w);
      destruct (act site a w) as [[[]|?] ?]
  | locator_count ?sel =>
      rewrite (run_count site sel k w);
      destruct (count site sel w) as [[?|?] ?]
  | obtain ?q =>
      rewrite (run_obtain site q k w);
      destruct (read site q w) as [[?|?] ?]
  | emit ?ev => rewrite (run_emit site ev k w)
  | tell ?s => rewrite (run_tell site s k w)
  | ret ?a => rewrite (run_ret site a k w)
  | raise ?e => rewrite (run_raise site e k w)
  | bind ?m' ?k' => rewrite (bind_assoc site m' k' k w)
  | try_except (perform ?a) ?h =>
      rewrite (run_try_perform site a h k w);
      destruct (act site a w) as [[[]|?] ?]
  | try_except (bind (perform ?a) (fun _ => ret ?v)) ?h =>
      rewrite (run_try_perform_ret site a v h k w);
      destruct (act site a w) as [[[]|?] ?]
  | if ?b then _ else _ => destruct b eqn:?
  end.

Ltac run_step site :=
  lazymatch goal with
  | |- _ (after _ (bind ?m ?k ?w)) => run_head site m k w
  | |- _ (bind ?m ?k ?w) => run_head site m k w
  | |- _ (after _ (ret ?a ?w)) => rewrite (run_last_ret site a w)
  | |- _ (after _ (raise ?e ?w)) => rewrite (run_last_raise site e w)
  | |- _ (ret ?a ?w) => rewrite (run_last_ret site a w)
  | |- _ (raise ?e ?w) => rewrite (run_last_raise site e w)
  end;
  rewrite ?after_after, ?after_Exec; cbn beta iota; cbn [app].


(** ** The identity-mismatch guard *)

Section Guard.

Variable site : Remote.
Variable employee_id : string.
Implicit Types w : World site.

Local Abbreviation guarded := (guarded site employee_id).

Lemma before_guard_untouched t :
  forallb before_guard t = true -> forallb untouched t = true.
Proof.
  rewrite !forallb_forall. intros H ev Hin. specialize (H ev Hin).
  unfold before_guard in H. apply andb_prop in H as [H _]. exact H.
Qed.

Lemma before_guard_no_read t v :
  forallb before_guard t = true ->
  ~ In (ERead (InputValue "#sharing_key") (Returned v)) t.
Proof.
  rewrite forallb_forall. intros H Hin. specialize (H _ Hin). discriminate H.
Qed.

Lemma guarded_bind {A B} (m : M site A) (k : A -> M site B) :
  emits_only before_guard m -> (forall a, guarded (k a)) -> guarded (bind m k).
Proof.
  intros Hm Hk w v Hin Hne. specialize (Hm w).
  rewrite trace_bind in Hin |- *. rewrite result_bind.
  apply in_app_or in Hin as [Hin | Hin];
    [exfalso; eapply before_guard_no_read; eassumption|].
  destruct (result (m w)) as [a|e|]; try contradiction.
  destruct (Hk a _ v Hin Hne) as [Hres Hsafe].
  split; [exact Hres|].
  rewrite forallb_app, Hsafe, (before_guard_untouched _ Hm). reflexivity.
Qed.

Lemma guarded_traced {A} f (m : M site A) : guarded m -> guarded (traced f m).
Proof.
  intros Hm w v Hin Hne. rewrite trace_traced in Hin |- *.
  rewrite result_traced.
  destruct Hin as [Hin | Hin]; [discriminate Hin|].
  apply in_app_or in Hin as [Hin | [Hin | []]]; [|discriminate Hin].
  destruct (Hm w v Hin Hne) as [Hres Hsafe]. split; [exact Hres|].
  cbn. rewrite forallb_app, Hsafe. reflexivity.
Qed.

(** Lines 106-108, followed by anything that does not read the identity
    field again. *)
Lemma guarded_check {A} (rest : string -> M site A) :
  (forall v, emits_only not_identity_read (rest v)) ->
  guarded
    (sharing_key_value <- obtain (InputValue "#sharing_key") ;;
     (if negb (strip sharing_key_value =? employee_id)%string
      then raise (wrong_user_msg employee_id sharing_key_value)
      else ret tt) ;;
     rest sharing_key_value).
Proof.
  intros Hrest w v. rewrite run_obtain.
  destruct (read site (InputValue "#sharing_key") w) as [[v'|e] w1].
  - destruct (strip v' =? employee_id)%string eqn:Heq; cbn [negb].
    + apply String.eqb_eq in Heq. rewrite run_ret.
      cbn [after trace app].
      intros [Hin | Hin] Hne; [injection Hin as ->; contradiction|].
      exfalso. specialize (Hrest v' w1). rewrite forallb_forall in Hrest.
      specialize (Hrest _ Hin). discriminate Hrest.
    + rewrite run_raise. cbn [after result trace app].
      intros [Hin | []] Hne. injection Hin as ->. auto.
  - cbn [trace result]. intros [Hin | []]. discriminate Hin.
Qed.

End Guard.

Section GuardTheorem.

Variable site : Remote.
Variable cfg : AppConfig.

Lemma wait_for_row_before_guard employee_id rounds :
  emits_only before_guard (wait_for_row site employee_id rounds).
Proof.
  induction rounds as [|retry rounds IH]; cbn [wait_for_row].
  - emits.
  - unfold logger_warning. emits.
Qed.

#[local] Hint Resolve wait_for_row_before_guard : progs.


End GuardTheorem.


Example wrong_record_nothing_saved :
  let r := update_employee_pos example_site example_cfg "E1" "P1" 0
             (console_with [["E7"; "E1"; "Eve"]] 0) in
  result r = Raise "Form shows wrong user: expected 'E1', got 'E7'" /\
  saved (final r) = [] /\ form (final r) = Some ("E7", "E1").
Proof. vm_compute. auto. Qed.

(** ** Computations that return when nothing goes wrong *)

Section Steady.

Variable site : Remote.
Variable p : event -> bool.
Implicit Types w : World site.

Lemma steady_ret {A} (a : A) : steady p (ret (site:=site) a).
Proof. intros w _. eexists. reflexivity. Qed.

Lemma steady_emit ev : steady p (emit (site:=site) ev).
Proof. intros w _. eexists. reflexivity. Qed.

Lemma steady_tell s : steady p (tell (site:=site) s).
Proof. intros w _. eexists. reflexivity. Qed.

Lemma steady_perform a :
  (forall e, p (EAct a (Raised e)) = false) ->
  steady p (perform (site:=site) a).
Proof.
  intros H w. unfold perform. destruct (act site a w) as [[u|e] w'];
    cbn [trace result lift forallb].
  - eauto.
  - rewrite H. discriminate.
Qed.

Lemma steady_locator_count sel :
  (forall e, p (ECount sel (Raised e)) = false) ->
  steady p (locator_count (site:=site) sel).
Proof.
  intros H w. unfold locator_count. destruct (count site sel w) as [[u|e] w'];
    cbn [trace result lift forallb].
  - eauto.
  - rewrite H. discriminate.
Qed.

Lemma steady_obtain q :
  (forall e, p (ERead q (Raised e)) = false) ->
  steady p (obtain (site:=site) q).
Proof.
  intros H w. unfold obtain. destruct (read site q w) as [[u|e] w'];
    cbn [trace result lift forallb].
  - eauto.
  - rewrite H. discriminate.
Qed.

Lemma steady_bind {A B} (m : M site A) (k : A -> M site B) :
  steady p m -> (forall a, steady p (k a)) -> steady p (bind m k).
Proof.
  intros Hm Hk w. rewrite trace_bind, result_bind, forallb_app.
  intros H. apply andb_prop in H as [H1 H2].
  destruct (Hm w H1) as (a & Ha). rewrite Ha in *. apply Hk, H2.
Qed.

Lemma steady_try_except {A} (m : M site A) h :
  total m -> (forall e, steady p (h e)) -> steady p (try_except m h).
Proof.
  intros Hm Hh w. rewrite trace_try_except, result_try_except, forallb_app.
  intros H. apply andb_prop in H as [H1 H2]. specialize (Hm w).
  destruct (result (m w)) as [a|e|]; [eauto | apply Hh, H2 | congruence].
Qed.

Lemma steady_try_finally {A} (m : M site A) f :
  steady p m -> steady p f -> steady p (try_finally m f).
Proof.
  intros Hm Hf w. rewrite trace_try_finally, result_try_finally, forallb_app.
  intros H. apply andb_prop in H as [H1 H2].
  destruct (Hm w H1) as (a & Ha). rewrite Ha in *.
  destruct (Hf _ H2) as (u & Hu). rewrite Hu. eauto.
Qed.

Lemma steady_traced {A} f (m : M site A) :
  total m -> (forall e, p (ELeave f (Some e)) = false) ->
  steady p (traced f m).
Proof.
  intros Hm Hf w. rewrite trace_traced, result_traced. cbn [forallb].
  rewrite forallb_app. cbn [forallb]. specialize (Hm w).
  destruct (result (m w)) as [a|e|]; [eauto | | congruence].
  cbn [raised_of]. rewrite Hf, !andb_false_r. discriminate.
Qed.

End Steady.

Ltac steady_step :=
  first
    [ solve [auto 1 with progs]
    | apply steady_ret
    | apply steady_emit
    | apply steady_tell
    | apply steady_locator_count; intro; reflexivity
    | apply steady_obtain; intro; reflexivity
    | apply steady_perform; intro; reflexivity
    | apply steady_bind; [|intro]
    | apply steady_try_except; [totality | intro]
    | apply steady_try_finally
    | apply steady_traced; [totality | intro; reflexivity]
    | match goal with
      | |- steady _ (if ?b then _ else _) => destruct b
      end ].

(** ** Polling for the result row *)

Section Polling.

Variable site : Remote.
Variable employee_id : string.
Implicit Types w : World site.

Local Abbreviation expected := (row_never_appears employee_id).
Local Abbreviation no_poll := (fun ev => negb (is_poll employee_id ev)).
Local Abbreviation no_poll_no_count :=
  (fun ev => negb (is_poll employee_id ev) && negb (is_count ev)).
Local Abbreviation polls_out := (polls_out site employee_id).
Local Abbreviation polled := (polled site employee_id).
Local Abbreviation polled_first := (polled_first site employee_id).
Local Abbreviation steady := (steady (site:=site) expected).

Lemma first_count_app t1 t2 :
  forallb (fun ev => negb (is_count ev)) t1 = true ->
  first_count (t1 ++ t2) = first_count t2.
Proof.
  induction t1 as [|ev t1 IH]; cbn [app forallb]; [reflexivity|].
  intros H. apply andb_prop in H as [Hev H].
  destruct ev; try discriminate Hev; cbn [first_count]; auto.
Qed.

Lemma polls_out_after {A} t (x y : exec (World site) A) :
  forallb no_poll t = true ->
  trace y = (t ++ trace x)%list -> result y = result x ->
  polls_out x -> polls_out y.
Proof.
  intros Ht Hy Hr (pre & e1 & e2 & e3 & c & Hx & Hpre & Hres).
  exists (t ++ pre)%list, e1, e2, e3, c.
  rewrite Hy, Hx, app_assoc, forallb_app, Ht, Hpre, Hr, Hres. auto.
Qed.

Lemma polled_bind {A B} (m : M site A) (k : A -> M site B) :
  steady m -> emits_only no_poll m -> (forall a, polled (k a)) ->
  polled (bind m k).
Proof.
  intros Hs Hm Hk w. rewrite trace_bind, forallb_app.
  intros H. apply andb_prop in H as [H1 H2].
  destruct (Hs w H1) as (a & Ha). rewrite Ha in H2.
  eapply polls_out_after; [apply (Hm w) | | | apply (Hk a _ H2)].
  - rewrite trace_bind, Ha. reflexivity.
  - rewrite result_bind, Ha. reflexivity.
Qed.

Lemma polled_first_bind {A B} (m : M site A) (k : A -> M site B) :
  steady m -> emits_only no_poll_no_count m -> (forall a, polled_first (k a)) ->
  polled_first (bind m k).
Proof.
  intros Hs Hm Hk w. rewrite !trace_bind, forallb_app.
  intros H Hc. apply andb_prop in H as [H1 H2].
  destruct (Hs w H1) as (a & Ha). rewrite Ha in H2, Hc.
  specialize (Hm w).
  assert (Hnp : forallb no_poll (trace (m w)) = true).
  { rewrite forallb_forall in *. intros ev Hin. specialize (Hm ev Hin).
    apply andb_prop in Hm as [Hm _]. exact Hm. }
  assert (Hnc : forallb (fun ev => negb (is_count ev)) (trace (m w)) = true).
  { rewrite forallb_forall in *. intros ev Hin. specialize (Hm ev Hin).
    apply andb_prop in Hm as [_ Hm]. exact Hm. }
  rewrite (first_count_app _ _ Hnc) in Hc.
  eapply polls_out_after; [exact Hnp | | | apply (Hk a _ H2 Hc)].
  - rewrite trace_bind, Ha. reflexivity.
  - rewrite result_bind, Ha. reflexivity.
Qed.

Lemma polled_first_count {B} sel (k : Z -> M site B) :
  (forall c, c <= 0 -> polled (k c)) ->
  polled_first (bind (locator_count sel) k).
Proof.
  intros Hk w. rewrite run_count.
  destruct (count site sel w) as [[c|e] w1]; cbn [after trace result app forallb first_count].
  - cbn [row_never_appears raised negb andb]. intros H Hc.
    specialize (Hc c eq_refl).
    eapply (polls_out_after [ECount sel (Returned c)]);
      [reflexivity | reflexivity | reflexivity | apply (Hk c Hc w1 H)].
  - cbn. discriminate.
Qed.

Lemma expected_poll timeout r :
  expected (EAct (WaitForSelector (row_xpath employee_id) timeout) r) = raised r.
Proof. cbn. rewrite String.eqb_refl. reflexivity. Qed.

Lemma polled_loop {B} (k : unit -> M site B) :
  polled (bind (wait_for_row site employee_id [0; 1; 2]) k).
Proof.
  intros w. cbn [wait_for_row]. change (max_retries - 1) with 2.
  cbn [Z.eqb Pos.eqb]. unfold logger_warning.
  match goal with
  | |- context [trace ?x] =>
      pattern x; match goal with |- ?Q _ => set (P := Q) end
  end.
  repeat run_step site.
  all: subst P; cbn beta; cbn [after result trace final app forallb].
  all: rewrite ?expected_poll; cbn [raised andb].
  all: intros H;
    first
      [ discriminate H
      | cbn in H; discriminate H
      | eexists [], _, _, _, _;
        split; [reflexivity|]; split; [reflexivity|];
        unfold poll_failure;
        match goal with Hc : (_ >? 0) = _ |- _ => rewrite Hc end;
        reflexivity ].
Qed.

End Polling.

Lemma first_count_app_some t1 t2 r :
  first_count t1 = Some r -> first_count (t1 ++ t2) = Some r.
Proof.
  induction t1 as [|ev t1 IH]; cbn [app first_count]; [discriminate|].
  destruct ev; auto.
Qed.

Lemma count_events_none p t :
  forallb (fun ev => negb (p ev)) t = true -> count_events p t = 0%nat.
Proof.
  unfold count_events. induction t as [|ev t IH]; cbn [forallb filter];
    [reflexivity|].
  intros H. apply andb_prop in H as [Hev H].
  destruct (p ev); [discriminate Hev | auto].
Qed.

Lemma poll_rounds_count employee_id e1 e2 e3 c :
  count_events (is_poll employee_id) (poll_rounds employee_id e1 e2 e3 c)
  = 3%nat.
Proof.
  unfold count_events, poll_rounds. cbn [filter is_poll].
  rewrite !String.eqb_refl. reflexivity.
Qed.

Section PollingTheorem.

Variable site : Remote.
Variable cfg : AppConfig.

(** C8: in [update_employee_pos], when the first check finds no
    "no data" indicator, no row matching [employee_id] ever appears and
    nothing else fails, the row is waited for exactly three times, the
    search being submitted again between the waits (2 s before, 3 s
    after), and after the third wait the call fails: with the
    row-not-found error naming [employee_id] and the last time-out, or
    with the not-found-or-permission error when the indicator is there
    at the second check. *)
Theorem row_poll_bounded employee_id pos_id step_delay_ms (w : World site) :
  let r := update_employee_pos site cfg employee_id pos_id step_delay_ms w in
  forallb (row_never_appears employee_id) (trace r) = true ->
  (forall c, first_count (trace r) = Some (Returned c) -> c <= 0) ->
  exists pre e1 e2 e3 c,
    trace r = (pre ++ poll_rounds employee_id e1 e2 e3 c
                   ++ [ELeave (FUpdateEmployeePos employee_id pos_id)
                              (Some (poll_failure employee_id e3 c))])%list /\
    forallb (fun ev => negb (is_poll employee_id ev)) pre = true /\
    count_events (is_poll employee_id) (trace r) = Z.to_nat max_retries /\
    result r = Raise (poll_failure employee_id e3 c).
Proof.
  unfold update_employee_pos.
  match goal with
  | |- context [traced ?f ?b w] =>
      assert (Hbody : polled_first site employee_id b)
  end.
  { unfold step_delay, logger_info, logger_warning.
    repeat (apply polled_first_bind;
            [solve [repeat steady_step] | solve [emits] | intro]).
    apply polled_first_count. intros c Hc.
    replace (c >? 0) with false
      by (symmetry; rewrite Z.gtb_ltb; apply Z.ltb_ge; lia).
    repeat (apply polled_bind;
            [solve [repeat steady_step] | solve [emits] | intro]).
    apply polled_loop. }
  cbv zeta. rewrite run_traced.
  cbn [trace result forallb first_count row_never_appears andb].
  intros Hexp Hfirst.
  rewrite forallb_app in Hexp. apply andb_prop in Hexp as [Hexp _].
  destruct (Hbody w Hexp) as (pre & e1 & e2 & e3 & c & Ht & Hpre & Hres).
  { intros c Hc. apply Hfirst. apply first_count_app_some. exact Hc. }
  exists (EEnter (FUpdateEmployeePos employee_id pos_id) :: pre), e1, e2, e3, c.
  rewrite Ht, Hres. cbn [raised_of forallb is_poll negb andb].
  split; [rewrite <- app_assoc; reflexivity|].
  split; [exact Hpre|]. split; [|reflexivity].
  change (?a :: ?t) with ([a] ++ t)%list.
  rewrite !count_events_app, (count_events_none _ _ Hpre), poll_rounds_count.
  reflexivity.
Qed.

End PollingTheorem.

(** The console lists employee E10 for the search "E1": there is no
    "no data" indicator and no row for E1. *)
Lemma row_poll_bounded_witness :
  let r := update_employee_pos example_site example_cfg "E1" "P1" 0
             (console_with [["E10"; "P3"; "Cho"]] 0) in
  exists pre e1 e2 e3 c,
    trace r = (pre ++ poll_rounds "E1" e1 e2 e3 c
                   ++ [ELeave (FUpdateEmployeePos "E1" "P1")
                              (Some (poll_failure "E1" e3 c))])%list /\
    forallb (fun ev => negb (is_poll "E1" ev)) pre = true /\
    count_events (is_poll "E1") (trace r) = Z.to_nat max_retries /\
    result r = Raise (poll_failure "E1" e3 c).
Proof.
  apply (row_poll_bounded example_site example_cfg "E1" "P1" 0
           (console_with [["E10"; "P3"; "Cho"]] 0)).
  - vm_compute. reflexivity.
  - intros c H. vm_compute in H. injection H as <-. lia.
Defined.

Example row_not_found_message :
  let r := update_employee_pos example_site example_cfg "E1" "P1" 0
             (console_with [["E10"; "P3"; "Cho"]] 0) in
  result r = Raise "Could not find employee row for E1 after 3 retries: Timeout 10000ms exceeded." /\
  count_events (is_poll "E1") (trace r) = 3%nat /\
  saved (final r) = [].
Proof. vm_compute. auto. Qed.

(** ** Which failures leave the batch *)

Section Completes.

Variable site : Remote.
Variables (cfg : AppConfig) (dry_run : bool) (retries : Z)
          (retry_backoff_seconds : Q) (step_delay_ms : Z).
Implicit Types w : World site.

Lemma login_steady creds : steady session_ok (login site cfg creds).
Proof. unfold login. repeat steady_step. Qed.

Lemma refresh_page_steady : steady session_ok (refresh_page site cfg).
Proof. unfold refresh_page, logger_info. repeat steady_step. Qed.

#[local] Hint Resolve login_steady refresh_page_steady : progs.

(** Whatever [update_employee_pos] raises is caught by the handler. *)
Lemma attempt_once_steady employee_id pos_id attempt results :
  steady session_ok
    (attempt_once site cfg dry_run retries retry_backoff_seconds step_delay_ms
       employee_id pos_id attempt results).
Proof.
  unfold attempt_once, logger_info, logger_error, logger_warning. cbv zeta.
  repeat steady_step.
Qed.

Lemma attempt_loop_steady fuel employee_id pos_id :
  forall attempt results,
  (Z.to_nat (retries - attempt) < fuel)%nat ->
  steady session_ok
    (attempt_loop site cfg dry_run retries retry_backoff_seconds step_delay_ms
       fuel employee_id pos_id attempt results).
Proof.
  induction fuel as [|fuel IH]; intros attempt results Hfuel w; [lia|].
  cbn [attempt_loop]. rewrite trace_bind, result_bind, forallb_app.
  intros H. apply andb_prop in H as [H1 H2].
  destruct (attempt_once_steady employee_id pos_id attempt results w H1)
    as (step & Hstep).
  rewrite Hstep in *.
  destruct (attempt_once_step _ _ _ _ _ _ _ _ _ _ _ _ Hstep)
    as [(r & -> & _) | (-> & Hle & _)].
  - eexists. reflexivity.
  - apply IH; [lia | exact H2].
Qed.

Lemma attempt_loop_rounds_steady employee_id pos_id results :
  steady session_ok
    (attempt_loop site cfg dry_run retries retry_backoff_seconds step_delay_ms
       (rounds_left retries 0) employee_id pos_id 0 results).
Proof. apply attempt_loop_steady. unfold rounds_left. lia. Qed.

#[local] Hint Resolve attempt_loop_rounds_steady : progs.

Lemma for_rows_steady rows :
  forall i results,
  steady session_ok
    (for_rows site cfg dry_run retries retry_backoff_seconds step_delay_ms
       i rows results).
Proof.
  induction rows as [|[employee_id pos_id] rows IH]; intros i results;
    cbn [for_rows]; repeat steady_step.
Qed.

End Completes.

#[export] Hint Resolve login_steady for_rows_steady : progs.

(** X10: failures of [update_employee_pos] never leave [run_updates]:
    when the set-up and tear-down of the browser, [login] and every
    [refresh_page] return, the run completes, whatever
    [update_employee_pos] raised. *)
Theorem run_updates_completes site cfg creds rows headless dry_run retries
    retry_backoff_seconds step_delay_ms slowmo_ms (w : World site) :
  let r := run_updates site cfg creds rows headless dry_run retries
             retry_backoff_seconds step_delay_ms slowmo_ms w in
  forallb session_ok (trace r) = true ->
  exists res, result r = Return res.
Proof.
  revert w.
  change (steady session_ok
            (run_updates site cfg creds rows headless dry_run retries
               retry_backoff_seconds step_delay_ms slowmo_ms)).
  unfold run_updates, logger_info. repeat steady_step.
Qed.

Section LoginFatal.

Variable site : Remote.
Implicit Types w : World site.

Lemma before_login_trace t :
  forallb before_login t = true ->
  existsb login_failed t = false /\ count_events is_attempt t = 0%nat.
Proof.
  unfold count_events.
  induction t as [|ev t IH]; cbn [forallb existsb filter]; [auto|].
  intros H. apply andb_prop in H as [Hev H]. destruct (IH H) as [-> Hn].
  destruct ev as [| | | | | |[]|]; try discriminate Hev; cbn; auto.
Qed.

Lemma after_login_trace t :
  forallb after_login t = true -> existsb login_failed t = false.
Proof.
  induction t as [|ev t IH]; cbn [forallb existsb]; [auto|].
  intros H. apply andb_prop in H as [Hev H]. rewrite (IH H).
  destruct ev as [| | | | | |[]|]; try discriminate Hev; reflexivity.
Qed.

Lemma login_fatal_bind {A B} (m : M site A) (k : A -> M site B) :
  emits_only before_login m -> (forall a, login_fatal (k a)) ->
  login_fatal (bind m k).
Proof.
  intros Hm Hk w. rewrite trace_bind, result_bind, existsb_app.
  destruct (before_login_trace _ (Hm w)) as [-> Hn]. cbn [orb].
  rewrite count_events_app, Hn.
  destruct (result (m w)) as [a|e|]; try discriminate.
  apply Hk.
Qed.

Lemma login_fatal_try_finally {A} (m : M site A) f :
  login_fatal m -> emits_only before_login f -> total f ->
  login_fatal (try_finally m f).
Proof.
  intros Hm Hf Ht w. rewrite trace_try_finally, result_try_finally, existsb_app.
  destruct (before_login_trace _ (Hf (final (m w)))) as [Hnone Hn].
  intros H.
  assert (Hin : existsb login_failed (trace (m w)) = true).
  { destruct (result (m w)); [| |rewrite orb_false_r in H; exact H];
      rewrite Hnone, orb_false_r in H; exact H. }
  destruct (Hm w Hin) as [(e & He) Hna]. rewrite He.
  rewrite count_events_app, Hna, Hn. split; [|reflexivity].
  specialize (Ht (final (m w))).
  destruct (result (f (final (m w)))); [eauto | eauto | congruence].
Qed.

Lemma login_fatal_login {B} cfg creds (k : unit -> M site B) :
  (forall a, emits_only after_login (k a)) ->
  login_fatal (bind (login site cfg creds) k).
Proof.
  intros Hk w. rewrite trace_bind, result_bind, existsb_app.
  destruct (login_shape site cfg creds w) as (inner & Ht & Hinner).
  cbv zeta in Ht.
  destruct (result (login site cfg creds w)) as [a|e|] eqn:Hres.
  - rewrite (after_login_trace _ (Hk a _)), orb_false_r, Ht.
    cbn [existsb login_failed orb]. rewrite existsb_app.
    apply page_events_silent in Hinner as Hs.
    assert (Hno : existsb login_failed inner = false).
    { clear - Hinner. induction inner as [|ev t IH]; [reflexivity|].
      cbn [forallb existsb] in *. apply andb_prop in Hinner as [Hev H].
      rewrite (IH H). destruct ev; try discriminate Hev; reflexivity. }
    rewrite Hno. cbn. discriminate.
  - intros _. split; [eauto|]. rewrite app_nil_r.
    pose proof (login_observed site cfg creds w) as []. assumption.
  - intros _. exfalso. eapply login_total. exact Hres.
Qed.

End LoginFatal.

Section AfterLogin.

Variable site : Remote.
Variables (cfg : AppConfig) (dry_run : bool) (retries : Z)
          (retry_backoff_seconds : Q) (step_delay_ms : Z).

Lemma update_employee_pos_after_login employee_id pos_id d :
  emits_only after_login (update_employee_pos site cfg employee_id pos_id d).
Proof.
  eapply emits_only_weaken; [|apply update_employee_pos_emits].
  intros [| | |[]| |[]|[]|]; cbn; congruence.
Qed.

Lemma refresh_page_after_login : emits_only after_login (refresh_page site cfg).
Proof.
  unfold refresh_page, logger_info.
  apply emits_only_traced; [reflexivity | intro; reflexivity |]. emits.
Qed.

#[local] Hint Resolve update_employee_pos_after_login
  refresh_page_after_login : progs.

Lemma attempt_loop_after_login fuel employee_id pos_id :
  forall attempt results,
  emits_only after_login
    (attempt_loop site cfg dry_run retries retry_backoff_seconds step_delay_ms
       fuel employee_id pos_id attempt results).
Proof.
  induction fuel as [|fuel IH]; intros attempt results; cbn [attempt_loop].
  - emits.
  - apply emits_only_bind.
    + unfold attempt_once, logger_info, logger_error, logger_warning.
      cbv zeta. emits.
    + intros [res|attempt']; [emits | apply IH].
Qed.

#[local] Hint Resolve attempt_loop_after_login : progs.

Lemma for_rows_after_login rows :
  forall i results,
  emits_only after_login
    (for_rows site cfg dry_run retries retry_backoff_seconds step_delay_ms
       i rows results).
Proof.
  induction rows as [|[employee_id pos_id] rows IH]; intros i results;
    cbn [for_rows]; emits.
Qed.

End AfterLogin.

#[export] Hint Resolve for_rows_after_login : progs.

(** X11: an error during the initial login is fatal: [run_updates]
    raises and no row is attempted. *)
Theorem login_failure_is_fatal site cfg creds rows headless dry_run retries
    retry_backoff_seconds step_delay_ms slowmo_ms (w : World site) :
  let r := run_updates site cfg creds rows headless dry_run retries
             retry_backoff_seconds step_delay_ms slowmo_ms w in
  existsb login_failed (trace r) = true ->
  (exists e, result r = Raise e) /\
  count_events is_attempt (trace r) = 0%nat.
Proof.
  revert w.
  change (login_fatal
            (run_updates site cfg creds rows headless dry_run retries
               retry_backoff_seconds step_delay_ms slowmo_ms)).
  unfold run_updates, logger_info.
  apply login_fatal_bind; [emits | intro].
  apply login_fatal_try_finally; [| emits | totality].
  do 3 (apply login_fatal_bind; [emits | intro]).
  apply login_fatal_try_finally; [| emits | totality].
  apply login_fatal_bind; [emits | intro].
  apply login_fatal_login. intro. emits.
Qed.

(** ** Whitespace stripping *)

Section Strip.

Local Abbreviation rev := (rev_string "").

Lemma rev_append a b : rev (a ++ b) = (rev b ++ rev a)%string.
Proof. rewrite rev_string_app, rev_string_acc. reflexivity. Qed.

Lemma rev_empty s : rev s = "" -> s = "".
Proof.
  intros H. rewrite <- (rev_string_involutive s), H. reflexivity.
Qed.

Lemma lstrip_blank s : blank s = true -> lstrip s = "".
Proof.
  induction s as [|c s IH]; cbn [blank lstrip]; [reflexivity|].
  intros H. apply andb_prop in H as [-> H]. auto.
Qed.

Lemma lstrip_not_blank s : blank s = false -> lstrip s <> "".
Proof.
  induction s as [|c s IH]; cbn [blank lstrip]; [discriminate|].
  destruct (is_space c); cbn [andb]; [exact IH | discriminate].
Qed.

Lemma lstrip_app a b :
  lstrip (a ++ b) = if blank a then lstrip b else (lstrip a ++ b)%string.
Proof.
  induction a as [|c a IH]; cbn [append blank lstrip]; [reflexivity|].
  destruct (is_space c); cbn [andb]; [exact IH | reflexivity].
Qed.

(** [rstrip], from the left. *)
Lemma rstrip_cons c s :
  rstrip (String c s) =
  if (rstrip s =? "")%string && is_space c then "" else String c (rstrip s).
Proof.
  unfold rstrip.
  change (String c s) with (String c "" ++ s)%string.
  rewrite rev_append, lstrip_app.
  destruct (blank (rev s)) eqn:Hb.
  - rewrite (lstrip_blank _ Hb). cbn [rev_string lstrip append String.eqb andb].
    destruct (is_space c); reflexivity.
  - rewrite rev_append. cbn [rev_string append].
    destruct (rev (lstrip (rev s)) =? "")%string eqn:He; [|reflexivity].
    apply String.eqb_eq, rev_empty in He.
    now apply lstrip_not_blank in Hb.
Qed.

Lemma rstrip_empty : rstrip "" = "".
Proof. reflexivity. Qed.

Lemma rstrip_idempotent s : rstrip (rstrip s) = rstrip s.
Proof.
  induction s as [|c s IH]; [reflexivity|].
  rewrite rstrip_cons.
  destruct ((rstrip s =? "")%string && is_space c) eqn:E; [reflexivity|].
  rewrite rstrip_cons, IH, E. reflexivity.
Qed.

Lemma lstrip_headed s : headed (lstrip s).
Proof.
  induction s as [|c s IH]; cbn [lstrip]; [exact I|].
  destruct (is_space c) eqn:E; [exact IH | exact E].
Qed.

Lemma headed_lstrip s : headed s -> lstrip s = s.
Proof. destruct s as [|c s]; cbn [headed lstrip]; [|intros ->]; reflexivity. Qed.

Lemma rstrip_headed s : headed s -> headed (rstrip s).
Proof.
  destruct s as [|c s]; [intros; exact I|].
  cbn [headed]. intros H. rewrite rstrip_cons, H, andb_false_r. exact H.
Qed.

Lemma strip_idempotent s : strip (strip s) = strip s.
Proof.
  unfold strip.
  rewrite (headed_lstrip (rstrip (lstrip s))).
  - apply rstrip_idempotent.
  - apply rstrip_headed, lstrip_headed.
Qed.

End Strip.


(** ** excel_reader.py *)

Lemma in_list_In s l : in_list s l = true <-> In s l.
Proof.
  unfold in_list. rewrite existsb_exists. split.
  - intros (x & Hx & E). apply String.eqb_eq in E. now subst.
  - intros H. exists s. split; [exact H | apply String.eqb_refl].
Qed.

Lemma columns_set_column name cells df :
  columns (set_column name cells df) =
  if in_list name (columns df) then columns df else (columns df ++ [name])%list.
Proof.
  unfold columns, in_list.
  induction df as [|[c old] df IH]; cbn [set_column map existsb app fst];
    [reflexivity|].
  rewrite (String.eqb_sym name c).
  destruct (c =? name)%string; cbn [orb map fst]; [reflexivity|].
  rewrite IH. destruct (existsb _ _); reflexivity.
Qed.

Lemma get_set_column name cells df :
  get_column name (set_column name cells df) = cells.
Proof.
  induction df as [|[c old] df IH]; cbn [set_column get_column].
  - now rewrite String.eqb_refl.
  - destruct (c =? name)%string eqn:E; cbn [get_column]; rewrite E; auto.
Qed.

Lemma get_set_column_other name other cells df :
  name <> other ->
  get_column other (set_column name cells df) = get_column other df.
Proof.
  intros Hne.
  induction df as [|[c old] df IH]; cbn [set_column get_column].
  - apply String.eqb_neq in Hne. now rewrite Hne.
  - destruct (c =? name)%string eqn:E; cbn [get_column].
    + apply String.eqb_eq in E. subst c.
      apply String.eqb_neq in Hne. now rewrite Hne.
    + now rewrite IH.
Qed.

Lemma in_list_app s l1 l2 : in_list s (l1 ++ l2) = in_list s l1 || in_list s l2.
Proof. apply existsb_app. Qed.

(** The loop of lines 43-54 keeps the order of the rows. *)
Lemma classify_rows_filter cells :
  forall valid_pairs invalid_pairs,
  classify_rows cells valid_pairs invalid_pairs =
  ((valid_pairs
    ++ filter (fun row => negb (pos_missing (snd row))) (named_rows cells))%list,
   (invalid_pairs
    ++ filter (fun row => pos_missing (snd row)) (named_rows cells))%list).
Proof.
  unfold named_rows.
  induction cells as [|[e p] cells IH]; intros v i;
    cbn [classify_rows map filter fst snd].
  - now rewrite !app_nil_r.
  - destruct (strip e =? "")%string; cbn [negb filter snd]; [apply IH|].
    destruct (pos_missing (strip p)); cbn [negb]; rewrite IH, <- ?app_assoc;
      reflexivity.
Qed.

(** *** Slices *)

Lemma slice_index_range n i : 0 <= n -> 0 <= slice_index n i <= n.
Proof. unfold slice_index. destruct (i <? 0) eqn:E; lia. Qed.

Lemma firstn_min {A} k (l : list A) :
  firstn (Nat.min k (length l)) l = firstn k l.
Proof.
  destruct (Nat.le_gt_cases k (length l)).
  - now rewrite Nat.min_l.
  - rewrite Nat.min_r, firstn_all, firstn_all2 by lia. reflexivity.
Qed.

Lemma skipn_min {A} k (l : list A) :
  skipn (Nat.min k (length l)) l = skipn k l.
Proof.
  destruct (Nat.le_gt_cases k (length l)).
  - now rewrite Nat.min_l.
  - rewrite Nat.min_r, skipn_all, skipn_all2 by lia. reflexivity.
Qed.

Lemma slice_from {A} (l : list A) start :
  0 <= start -> slice l start None = skipn (Z.to_nat start) l.
Proof.
  intros H. unfold slice, slice_index.
  destruct (start <? 0) eqn:E; [lia|].
  rewrite Z2Nat.inj_sub, Z2Nat.inj_min, Nat2Z.id by lia.
  rewrite skipn_min.
  apply firstn_all2. rewrite length_skipn. lia.
Qed.

Lemma slice_window {A} (l : list A) start size :
  0 <= start -> 0 <= size ->
  slice l start (Some (start + size)) =
  firstn (Z.to_nat size) (skipn (Z.to_nat start) l).
Proof.
  intros H1 H2. unfold slice, slice_index.
  destruct (start <? 0) eqn:E; [lia|].
  destruct (start + size <? 0) eqn:E'; [lia|].
  rewrite (Z2Nat.inj_min start), Nat2Z.id, skipn_min by lia.
  rewrite <- (firstn_min (Z.to_nat size)), length_skipn.
  f_equal. lia.
Qed.

Lemma slice_from_end {A} (l : list A) start stop :
  0 <= start -> stop < 0 ->
  slice l start (Some stop) =
  skipn (Z.to_nat start)
        (firstn (Z.to_nat (Z.of_nat (length l) + stop)) l).
Proof.
  intros H1 H2. unfold slice, slice_index.
  destruct (start <? 0) eqn:E; [lia|].
  destruct (stop <? 0) eqn:E'; [|lia].
  rewrite (Z2Nat.inj_min start), Nat2Z.id, skipn_min by lia.
  rewrite skipn_firstn_comm. f_equal. lia.
Qed.

Lemma In_firstn_skipn {A} (x : A) n m l : In x (firstn n (skipn m l)) -> In x l.
Proof.
  intros H. rewrite <- (firstn_skipn m l). apply in_or_app. right.
  rewrite <- (firstn_skipn n (skipn m l)). apply in_or_app. now left.
Qed.

Lemma slice_incl {A} (l : list A) start stop : incl (slice l start stop) l.
Proof. unfold slice. intros x H. eapply In_firstn_skipn, H. Qed.

Lemma in_columns_set_column x name cells df :
  in_list x (columns (set_column name cells df)) =
  in_list x (columns df) || (x =? name)%string.
Proof.
  rewrite columns_set_column.
  destruct (in_list name (columns df)) eqn:E.
  - destruct (x =? name)%string eqn:Ex; [|now rewrite orb_false_r].
    apply String.eqb_eq in Ex. subst x. now rewrite E.
  - rewrite in_list_app. cbn. now rewrite orb_false_r.
Qed.

(** *** The columns the sheet must have *)

Lemma read_employee_pos_pairs_unfold read_excel xlsx_path offset limit df :
  read_excel xlsx_path = Returned df ->
  let sheet := normalize_columns df in
  let names := columns sheet in
  let ids := get_column (if in_list "ma_msocial" names then "ma_msocial"
                         else "employee_id") sheet in
  let poss := get_column (if in_list "ma_msocial_cap_tren" names
                          then "ma_msocial_cap_tren" else "pos_id") sheet in
  let have_id := in_list "employee_id" names || in_list "ma_msocial" names in
  let have_pos := in_list "pos_id" names || in_list "ma_msocial_cap_tren" names in
  let found :=
    (names
     ++ (if in_list "ma_msocial" names && negb (in_list "employee_id" names)
         then ["employee_id"] else [])
     ++ (if in_list "ma_msocial_cap_tren" names && negb (in_list "pos_id" names)
         then ["pos_id"] else []))%list in
  let missing :=
    ((if have_id then [] else ["employee_id"])
     ++ (if have_pos then [] else ["pos_id"]))%list in
  read_employee_pos_pairs read_excel xlsx_path offset limit =
  if have_id && have_pos then
    let rows := named_rows (combine ids poss) in
    Returned
      (slice (filter (fun row => negb (pos_missing (snd row))) rows)
             (Z.max offset 0) (option_map (Z.add (Z.max offset 0)) limit),
       filter (fun row => pos_missing (snd row)) rows)
  else
    Raised ("Missing required columns: " ++ str_of_list missing
            ++ ". Found: " ++ str_of_list found).
Proof.
  intros Hread. cbv zeta. unfold read_employee_pos_pairs. rewrite Hread.
  set (sheet := normalize_columns df).
  unfold apply_column_mapping, column_mapping, REQUIRED_COLUMNS.
  cbn [fold_left filter].
  set (a := in_list "ma_msocial" (columns sheet)).
  set (c := in_list "employee_id" (columns sheet)).
  pose (b := in_list "ma_msocial_cap_tren" (columns sheet)).
  pose (d := in_list "pos_id" (columns sheet)).
  destruct a eqn:Ha;
    rewrite ?in_columns_set_column; fold b;
    cbn [String.eqb Ascii.eqb Bool.eqb orb andb];
    rewrite ?orb_false_r;
    destruct b eqn:Hb;
    repeat rewrite ?in_columns_set_column, ?columns_set_column;
    fold c d;
    cbn [String.eqb Ascii.eqb Bool.eqb orb andb negb];
    rewrite ?orb_false_r, ?orb_true_r, ?andb_true_r, ?andb_false_r;
    destruct c eqn:Hc, d eqn:Hd;
    cbn [String.eqb Ascii.eqb Bool.eqb orb andb negb app in_list existsb];
    rewrite ?app_nil_r;
    try reflexivity;
    rewrite ?get_set_column;
    rewrite ?(get_set_column_other "employee_id" "pos_id") by discriminate;
    rewrite ?(get_set_column_other "pos_id" "employee_id") by discriminate;
    rewrite ?(get_set_column_other "employee_id" "ma_msocial_cap_tren") by discriminate;
    rewrite ?get_set_column;
    rewrite classify_rows_filter; cbn [app]; destruct limit; try reflexivity.
Qed.

Lemma filter_length_split {A} (f : A -> bool) l :
  (length (filter (fun x => negb (f x)) l) + length (filter f l))%nat = length l.
Proof.
  induction l as [|x l IH]; cbn [filter length]; [reflexivity|].
  destruct (f x); cbn [negb length]; lia.
Qed.


Lemma example_sheet_well_formed : well_formed example_sheet.
Proof.
  split.
  - repeat constructor; cbn; intuition discriminate.
  - exists 6%nat. repeat constructor.
Qed.




Lemma named_rows_clean cells :
  Forall (fun row => fst row <> "" /\ strip (fst row) = fst row
                     /\ strip (snd row) = snd row) (named_rows cells).
Proof.
  unfold named_rows. apply Forall_forall. intros row H.
  apply filter_In in H as [H Hne]. apply in_map_iff in H as ([e p] & <- & _).
  cbn [fst snd] in *. rewrite !strip_idempotent.
  destruct (strip e =? "")%string eqn:E; [discriminate|].
  apply String.eqb_neq in E. auto.
Qed.

Lemma read_employee_pos_pairs_Returned read_excel xlsx_path offset limit valid invalid :
  read_employee_pos_pairs read_excel xlsx_path offset limit = Returned (valid, invalid) ->
  exists rows,
    Forall (fun row => fst row <> "" /\ strip (fst row) = fst row
                       /\ strip (snd row) = snd row) rows /\
    valid = slice (filter (fun row => negb (pos_missing (snd row))) rows)
                  (Z.max offset 0) (option_map (Z.add (Z.max offset 0)) limit) /\
    invalid = filter (fun row => pos_missing (snd row)) rows.
Proof.
  intros H.
  destruct (read_excel xlsx_path) as [df|e] eqn:Hread.
  - rewrite (read_employee_pos_pairs_unfold _ _ offset limit _ Hread) in H.
    cbv zeta in H. destruct (_ && _); [|discriminate].
    injection H as <- <-. eexists. split; [apply named_rows_clean|]. auto.
  - unfold read_employee_pos_pairs in H. rewrite Hread in H. discriminate.
Qed.

Lemma lower_empty s : lower s = "" -> s = "".
Proof. destruct s; [reflexivity | discriminate]. Qed.

Lemma pos_missing_markers p :
  pos_missing p =
  (p =? "")%string || in_list (lower p) ["#n/a"; "nan"; "none"].
Proof.
  unfold pos_missing, missing_markers.
  change ["#n/a"; "nan"; "none"; ""] with (["#n/a"; "nan"; "none"] ++ [""])%list.
  rewrite in_list_app.
  destruct (p =? "")%string eqn:E; [reflexivity|]. cbn [orb].
  replace (in_list (lower p) [""]) with false; [now rewrite orb_false_r|].
  unfold in_list. cbn [existsb]. rewrite orb_false_r. symmetry.
  apply String.eqb_neq. intros H. apply lower_empty in H.
  apply String.eqb_neq in E. contradiction.
Qed.

Lemma read_employee_pos_pairs_sorted read_excel xlsx_path offset limit
    valid invalid :
  read_employee_pos_pairs read_excel xlsx_path offset limit = Returned (valid, invalid) ->
  Forall (fun row => fst row <> "" /\ pos_missing (snd row) = false) valid /\
  Forall (fun row => pos_missing (snd row) = true) invalid.
Proof.
  intros H. apply read_employee_pos_pairs_Returned in H as (rows & Hrows & -> & ->).
  rewrite Forall_forall in Hrows. split; apply Forall_forall; intros row Hin.
  - apply slice_incl, filter_In in Hin as [Hin Hpos].
    apply negb_true_iff in Hpos. split; [apply (Hrows row Hin) | exact Hpos].
  - apply filter_In in Hin as [_ Hpos]. exact Hpos.
Qed.

(** X3: whatever the sheet, the offset and the limit, every valid pair
    that [read_employee_pos_pairs] returns has an employee id and a POS
    that are not empty and carry no outer whitespace, and the POS is,
    lower-cased, none of [#n/a], [nan], [none]; every invalid pair has
    such an employee id and a POS that is empty or one of these
    markers. *)
Theorem read_employee_pos_pairs_invariants read_excel xlsx_path offset limit
    valid invalid :
  read_employee_pos_pairs read_excel xlsx_path offset limit = Returned (valid, invalid) ->
  Forall (fun row =>
            fst row <> "" /\ strip (fst row) = fst row /\
            snd row <> "" /\ strip (snd row) = snd row /\
            ~ In (lower (snd row)) ["#n/a"; "nan"; "none"]) valid /\
  Forall (fun row =>
            fst row <> "" /\ strip (fst row) = fst row /\
            strip (snd row) = snd row /\
            (snd row = "" \/ In (lower (snd row)) ["#n/a"; "nan"; "none"]))
         invalid.
Proof.
  intros H. apply read_employee_pos_pairs_Returned in H as (rows & Hrows & -> & ->).
  rewrite Forall_forall in Hrows. split; apply Forall_forall; intros row Hin.
  - apply slice_incl, filter_In in Hin as [Hin Hpos].
    destruct (Hrows row Hin) as (H1 & H2 & H3).
    rewrite pos_missing_markers in Hpos.
    apply negb_true_iff, orb_false_iff in Hpos as [Hne Hmark].
    apply String.eqb_neq in Hne.
    repeat split; auto.
    rewrite <- in_list_In, Hmark. discriminate.
  - apply filter_In in Hin as [Hin Hpos].
    destruct (Hrows row Hin) as (H1 & H2 & H3).
    rewrite pos_missing_markers in Hpos.
    apply orb_true_iff in Hpos as [Hpos|Hpos].
    + apply String.eqb_eq in Hpos. auto.
    + apply in_list_In in Hpos. auto.
Qed.

(** X3 at the example sheet, read from its second valid pair on. *)
Lemma read_employee_pos_pairs_invariants_witness :
  Forall (fun row =>
            fst row <> "" /\ strip (fst row) = fst row /\
            snd row <> "" /\ strip (snd row) = snd row /\
            ~ In (lower (snd row)) ["#n/a"; "nan"; "none"])
         [("nan", "P3"); ("E6", "P6")].
Proof.
  exact (proj1 (read_employee_pos_pairs_invariants example_read_excel
                  "users.xlsx" 1 None [("nan", "P3"); ("E6", "P6")]
                  [("E2", "nan"); ("E5", "#N/A")] eq_refl)).
Defined.

Lemma read_employee_pos_pairs_all read_excel xlsx_path all invalid :
  read_employee_pos_pairs read_excel xlsx_path 0 None = Returned (all, invalid) ->
  forall offset limit,
  read_employee_pos_pairs read_excel xlsx_path offset limit =
  Returned (slice all (Z.max offset 0) (option_map (Z.add (Z.max offset 0)) limit),
            invalid).
Proof.
  intros H offset limit.
  destruct (read_excel xlsx_path) as [df|e] eqn:Hread.
  - rewrite (read_employee_pos_pairs_unfold _ _ 0 None _ Hread) in H.
    rewrite (read_employee_pos_pairs_unfold _ _ offset limit _ Hread).
    cbv zeta in *. destruct (_ && _); [|discriminate].
    injection H as <- <-. cbn [option_map]. rewrite (slice_from _ (Z.max 0 0)) by lia.
    reflexivity.
  - unfold read_employee_pos_pairs in H. rewrite Hread in H. discriminate.
Qed.

(** X4: the offset and the limit cut a window out of the valid pairs of
    the whole sheet and leave the invalid pairs alone.  A negative offset
    counts as 0; without limit the window runs to the end; a limit
    [size >= 0] gives at most [size] pairs from the offset on; a negative
    limit gives no pair when [offset + size >= 0] and otherwise counts the
    end of the window from the end of the list. *)
Theorem read_employee_pos_pairs_window read_excel xlsx_path offset limit
    all invalid :
  read_employee_pos_pairs read_excel xlsx_path 0 None = Returned (all, invalid) ->
  let start := Z.max offset 0 in
  read_employee_pos_pairs read_excel xlsx_path offset limit =
  Returned
    (match limit with
     | None => skipn (Z.to_nat start) all
     | Some size =>
         if 0 <=? size then firstn (Z.to_nat size) (skipn (Z.to_nat start) all)
         else if 0 <=? start + size then []
         else skipn (Z.to_nat start)
                (firstn (Z.to_nat (Z.of_nat (length all) + (start + size))) all)
     end, invalid).
Proof.
  intros H start. rewrite (read_employee_pos_pairs_all _ _ _ _ H). fold start.
  assert (0 <= start) by (unfold start; lia).
  f_equal. f_equal. destruct limit as [size|]; cbn [option_map].
  - destruct (0 <=? size) eqn:Es.
    + apply slice_window; lia.
    + destruct (0 <=? start + size) eqn:Ee.
      * replace (start + size) with (start + size - start + start) at 1 by lia.
        unfold slice, slice_index.
        destruct (start <? 0) eqn:E1; [lia|].
        destruct (start + size - start + start <? 0) eqn:E2; [lia|].
        replace (Z.to_nat _) with 0%nat by lia. reflexivity.
      * apply slice_from_end; lia.
  - apply slice_from; lia.
Qed.

(** X4 at the example sheet: offset 1 and limit 1 give its second valid
    pair. *)
Lemma read_employee_pos_pairs_window_witness :
  read_employee_pos_pairs example_read_excel "users.xlsx" 1 (Some 1) =
  Returned ([("nan", "P3")], [("E2", "nan"); ("E5", "#N/A")]).
Proof.
  exact (read_employee_pos_pairs_window example_read_excel "users.xlsx" 1
           (Some 1) [("E1", "P1"); ("nan", "P3"); ("E6", "P6")]
           [("E2", "nan"); ("E5", "#N/A")] eq_refl).
Defined.

(** X5: a run can be resumed: the pairs read with an offset and a limit
    [size], followed by those read from [offset + size] on, are the pairs
    read from the offset on, none twice and none left out; the invalid
    pairs are the same in the three reads. *)
Theorem read_employee_pos_pairs_resume read_excel xlsx_path offset size
    head inv1 tail inv2 :
  0 <= offset -> 0 <= size ->
  read_employee_pos_pairs read_excel xlsx_path offset (Some size)
  = Returned (head, inv1) ->
  read_employee_pos_pairs read_excel xlsx_path (offset + size) None
  = Returned (tail, inv2) ->
  read_employee_pos_pairs read_excel xlsx_path offset None
  = Returned ((head ++ tail)%list, inv1) /\ inv2 = inv1.
Proof.
  intros Ho Hs H1 H2.
  destruct (read_excel xlsx_path) as [df|e] eqn:Hread.
  - rewrite (read_employee_pos_pairs_unfold _ _ _ _ _ Hread) in H1.
    rewrite (read_employee_pos_pairs_unfold _ _ _ _ _ Hread) in H2.
    rewrite (read_employee_pos_pairs_unfold _ _ offset None _ Hread).
    cbv zeta in *. destruct (_ && _); [|discriminate].
    injection H1 as <- <-. injection H2 as <- <-. split; [|reflexivity].
    f_equal. f_equal. cbn [option_map].
    rewrite !Z.max_l by lia.
    rewrite slice_window, !slice_from by lia.
    rewrite Z2Nat.inj_add, Nat.add_comm, <- skipn_skipn by lia.
    symmetry. apply firstn_skipn.
  - unfold read_employee_pos_pairs in H1. rewrite Hread in H1. discriminate.
Qed.

(** X5 at the example sheet: the first two valid pairs, then the rest. *)
Lemma read_employee_pos_pairs_resume_witness :
  read_employee_pos_pairs example_read_excel "users.xlsx" 0 None
  = Returned ([("E1", "P1"); ("nan", "P3"); ("E6", "P6")],
              [("E2", "nan"); ("E5", "#N/A")]).
Proof.
  refine (proj1 (read_employee_pos_pairs_resume example_read_excel "users.xlsx"
                   0 2 [("E1", "P1"); ("nan", "P3")]
                   [("E2", "nan"); ("E5", "#N/A")] [("E6", "P6")]
                   [("E2", "nan"); ("E5", "#N/A")] _ _ eq_refl eq_refl));
    lia.
Defined.

(** ** cli.py *)

(** X6: the reason [_write_invalid_csv] writes for the invalid pairs that
    [read_employee_pos_pairs] returned, as [run] passes them on, is
    always "Missing POS data": each line is the employee id, the POS cell
    as read and this reason. *)
Theorem invalid_rows_of_sheet read_excel xlsx_path offset limit valid invalid :
  read_employee_pos_pairs read_excel xlsx_path offset limit = Returned (valid, invalid) ->
  invalid_rows invalid =
  ["employee_id"; "pos_id"; "reason"]
  :: map (fun row => [fst row; snd row; "Missing POS data"]) invalid.
Proof.
  intros H. apply read_employee_pos_pairs_Returned in H as (rows & _ & _ & ->).
  unfold invalid_rows. f_equal. apply map_ext_in.
  intros [emp_id pos_id] Hin. apply filter_In in Hin as [_ Hpos].
  cbn [fst snd] in *. unfold invalid_reason.
  change ((pos_id =? "")%string || in_list (lower pos_id) ["#n/a"; "nan"; "none"; ""])
    with (pos_missing pos_id).
  now rewrite Hpos.
Qed.

(** X6 at the example sheet. *)
Lemma invalid_rows_of_sheet_witness :
  invalid_rows [("E2", "nan"); ("E5", "#N/A")] =
  [["employee_id"; "pos_id"; "reason"];
   ["E2"; "nan"; "Missing POS data"];
   ["E5"; "#N/A"; "Missing POS data"]].
Proof.
  exact (invalid_rows_of_sheet example_read_excel "users.xlsx" 0 None
           [("E1", "P1"); ("nan", "P3"); ("E6", "P6")]
           [("E2", "nan"); ("E5", "#N/A")] eq_refl).
Defined.

(** *** [_parse_pairs] *)

Lemma contains_char c s :
  contains (String c "") s = has_char c s.
Proof.
  induction s as [|c' s IH]; [reflexivity|].
  cbn [contains prefix has_char]. rewrite IH.
  destruct (Ascii.ascii_dec c c') as [->|Hne].
  - rewrite Ascii.eqb_refl. destruct s; reflexivity.
  - apply Ascii.eqb_neq in Hne. rewrite Hne. reflexivity.
Qed.

Lemma has_char_app c a b : has_char c (a ++ String c b) = true.
Proof.
  induction a as [|c' a IH]; cbn [append has_char].
  - now rewrite Ascii.eqb_refl.
  - rewrite IH. apply orb_true_r.
Qed.

Lemma split_once_join sep s :
  has_char sep s = true ->
  s = (fst (split_once sep s) ++ String sep (snd (split_once sep s)))%string /\
  has_char sep (fst (split_once sep s)) = false.
Proof.
  induction s as [|c s IH]; cbn [has_char split_once]; [discriminate|].
  rewrite (Ascii.eqb_sym sep c).
  destruct (Ascii.eqb c sep) eqn:E; cbn [orb].
  - intros _. apply Ascii.eqb_eq in E. subst c. cbn [fst snd append has_char].
    auto.
  - intros H. destruct (IH H) as [Hs Hn].
    destruct (split_once sep s) as [a b]. cbn [fst snd append has_char] in *.
    rewrite (Ascii.eqb_sym sep c), E, Hn. split; [congruence | reflexivity].
Qed.

Lemma split_once_app sep a b :
  has_char sep a = false ->
  split_once sep (a ++ String sep b) = (a, b).
Proof.
  induction a as [|c a IH]; cbn [has_char split_once append].
  - now rewrite Ascii.eqb_refl.
  - rewrite (Ascii.eqb_sym sep c).
    destruct (Ascii.eqb c sep); cbn [orb]; [discriminate|].
    intros H. now rewrite (IH H).
Qed.

Lemma parse_pairs_from_acc pairs :
  forall result,
  parse_pairs_from pairs result =
  match parse_pairs_from pairs [] with
  | Returned parsed => Returned (result ++ parsed)%list
  | Raised e => Raised e
  end.
Proof.
  induction pairs as [|item pairs IH]; intros result; cbn [parse_pairs_from].
  - now rewrite app_nil_r.
  - destruct (negb (contains "=" item)); [reflexivity|].
    destruct (split_once "=" item) as [emp pos].
    destruct (_ || _); [reflexivity|].
    rewrite IH, (IH ([] ++ _)%list).
    destruct (parse_pairs_from pairs []); [|reflexivity].
    now rewrite <- app_assoc.
Qed.

Lemma parse_pairs_cons item pairs :
  _parse_pairs (item :: pairs) =
  if negb (has_char "=" item) then
    Raised ("Invalid pair format: " ++ item ++ ". Use EMP=POS")
  else
    let emp := strip (fst (split_once "=" item)) in
    let pos := strip (snd (split_once "=" item)) in
    if (emp =? "")%string || (pos =? "")%string then
      Raised ("Invalid pair (empty values): " ++ item)
    else
      match _parse_pairs pairs with
      | Returned parsed => Returned ((emp, pos) :: parsed)
      | Raised e => Raised e
      end.
Proof.
  unfold _parse_pairs. cbn [parse_pairs_from].
  rewrite contains_char.
  destruct (negb (has_char "=" item)); [reflexivity|].
  destruct (split_once "=" item) as [emp pos]. cbn [fst snd]. cbv zeta.
  destruct (_ || _); [reflexivity|].
  rewrite parse_pairs_from_acc. reflexivity.
Qed.





(** ** Witnesses of the failure theorems *)

(** X10 on the example console: the second row fails three times in
    [update_employee_pos], and the run completes. *)
Lemma run_updates_completes_witness :
  exists res,
    result (run_updates example_site example_cfg example_creds example_rows
              true false None None 0 0 (console_with example_employees 0))
    = Return res.
Proof.
  apply (run_updates_completes example_site example_cfg example_creds
           example_rows true false None None 0 0
           (console_with example_employees 0)).
  vm_compute. reflexivity.
Defined.

(** X11 on a site that cannot be reached. *)
Lemma login_failure_is_fatal_witness :
  (exists e,
     result (run_updates unreachable_site example_cfg example_creds
               example_rows true false None None 0 0 tt) = Raise e) /\
  count_events is_attempt
    (trace (run_updates unreachable_site example_cfg example_creds
              example_rows true false None None 0 0 tt)) = 0%nat.
Proof.
  apply (login_failure_is_fatal unreachable_site example_cfg example_creds
           example_rows true false None None 0 0 tt).
  vm_compute. reflexivity.
Defined.

(** ** Properties of traces that compose *)

Section TraceHolds.

Variable site : Remote.
Variable P : list event -> Prop.
Hypothesis P_nil : P [].
Hypothesis P_app : forall t1 t2, P t1 -> P t2 -> P (t1 ++ t2)%list.
Implicit Types w : World site.

Lemma trace_holds_bind {A B} (m : M site A) (k : A -> M site B) :
  trace_holds P m -> (forall a, trace_holds P (k a)) -> trace_holds P (bind m k).
Proof.
  intros Hm Hk w. rewrite trace_bind. apply P_app; [apply Hm|].
  destruct (result (m w)); auto. apply Hk.
Qed.

Lemma trace_holds_try_except {A} (m : M site A) h :
  trace_holds P m -> (forall e, trace_holds P (h e)) ->
  trace_holds P (try_except m h).
Proof.
  intros Hm Hh w. rewrite trace_try_except. apply P_app; [apply Hm|].
  destruct (result (m w)); auto. apply Hh.
Qed.

Lemma trace_holds_try_finally {A} (m : M site A) f :
  trace_holds P m -> trace_holds P f -> trace_holds P (try_finally m f).
Proof.
  intros Hm Hf w. rewrite trace_try_finally. apply P_app; [apply Hm|].
  destruct (result (m w)); auto; apply Hf.
Qed.

Lemma trace_holds_ret {A} (a : A) : trace_holds P (ret (site:=site) a).
Proof. intro w. exact P_nil. Qed.

Lemma trace_holds_if {A} (b : bool) (m1 m2 : M site A) :
  trace_holds P m1 -> trace_holds P m2 -> trace_holds P (if b then m1 else m2).
Proof. destruct b; auto. Qed.

End TraceHolds.

(** ** Bounds on the attempts *)

Lemma calls_within_attempts_nil : calls_within_attempts [].
Proof. unfold calls_within_attempts. cbn. lia. Qed.

Lemma calls_within_attempts_app t1 t2 :
  calls_within_attempts t1 -> calls_within_attempts t2 ->
  calls_within_attempts (t1 ++ t2).
Proof. unfold calls_within_attempts. rewrite !count_events_app. lia. Qed.

Lemma no_calls_within_attempts {site : Remote} {A} (m : M site A) :
  emits_only not_update_call m -> trace_holds calls_within_attempts m.
Proof.
  intros H w. unfold calls_within_attempts.
  rewrite (count_events_none is_update_call); [lia | apply H].
Qed.

Section AttemptBounds.

Variable site : Remote.
Variables (cfg : AppConfig) (dry_run : bool) (retries : Z)
          (retry_backoff_seconds : Q) (step_delay_ms : Z).
Implicit Types w : World site.

Local Abbreviation attempt_once' :=
  (attempt_once site cfg dry_run retries retry_backoff_seconds step_delay_ms).
Local Abbreviation attempt_loop' :=
  (attempt_loop site cfg dry_run retries retry_backoff_seconds step_delay_ms).
Local Abbreviation for_rows' :=
  (for_rows site cfg dry_run retries retry_backoff_seconds step_delay_ms).

Lemma update_employee_pos_no_attempt employee_id pos_id d :
  emits_only not_attempt (update_employee_pos site cfg employee_id pos_id d).
Proof.
  eapply emits_only_weaken; [|apply update_employee_pos_emits].
  intros [| | |[]| |[]|[]|]; cbn; congruence.
Qed.

Lemma refresh_page_no_attempt : emits_only not_attempt (refresh_page site cfg).
Proof.
  eapply emits_only_weaken; [|apply refresh_page_emits].
  intros [| | |[]| |[]|[]|]; cbn; congruence.
Qed.

Lemma refresh_page_no_call : emits_only not_update_call (refresh_page site cfg).
Proof.
  eapply emits_only_weaken; [|apply refresh_page_emits].
  intros [| | |[]| |[]|[]|]; cbn; congruence.
Qed.

Lemma login_no_attempt creds : emits_only not_attempt (login site cfg creds).
Proof.
  eapply emits_only_weaken; [|apply login_emits].
  intros [| | |[]| |[]|[]|]; cbn; congruence.
Qed.

Lemma login_no_call creds : emits_only not_update_call (login site cfg creds).
Proof.
  eapply emits_only_weaken; [|apply login_emits].
  intros [| | |[]| |[]|[]|]; cbn; congruence.
Qed.

#[local] Hint Resolve update_employee_pos_no_attempt refresh_page_no_attempt
  refresh_page_no_call login_no_attempt login_no_call : progs.

(** A round of the retry loop: its start, then no other start and at most
    one call of [update_employee_pos]. *)
Lemma attempt_once_round employee_id pos_id attempt results w :
  exists rest,
    trace (attempt_once' employee_id pos_id attempt results w)
    = EAttempt employee_id pos_id attempt :: rest /\
    count_events is_attempt rest = 0%nat /\
    (count_events is_update_call rest <= 1)%nat.
Proof.
  unfold attempt_once. rewrite run_emit. cbn [after trace app].
  eexists. split; [reflexivity|].
  rewrite trace_try_except, trace_bind, result_bind.
  unfold logger_info. cbn [emit trace result final].
  destruct dry_run; cbn [negb].
  - cbn. split; lia.
  - rewrite trace_bind, result_bind.
    pose proof (update_employee_pos_observed site cfg employee_id pos_id
                  step_delay_ms w) as Hu.
    cbv zeta in Hu.
    set (u := update_employee_pos site cfg employee_id pos_id step_delay_ms w)
      in *.
    rewrite !count_events_app, (obs_attempts _ _ _ _ _ _ _ _ Hu),
      (obs_calls _ _ _ _ _ _ _ _ Hu).
    destruct (result u) as [old_value|e|]; cbn [ret trace result].
    + cbn. split; lia.
    + cbv zeta. destruct (attempt + 1 >? retries).
      * cbn. split; lia.
      * unfold logger_warning. rewrite run_emit. cbn [after trace].
        rewrite trace_bind.
        match goal with
        | |- context [refresh_page site cfg ?w1] =>
            pose proof (refresh_page_observed site cfg w1) as Hr;
            cbv zeta in Hr;
            set (rp := refresh_page site cfg w1) in *
        end.
        rewrite !count_events_app, (obs_attempts _ _ _ _ _ _ _ _ Hr),
          (obs_calls _ _ _ _ _ _ _ _ Hr).
        destruct (result rp); cbn; split; lia.
    + cbn. split; lia.
Qed.

Lemma attempt_loop_bounded fuel employee_id pos_id :
  forall attempt results w,
  0 <= attempt <= Z.max retries 0 ->
  let t := trace (attempt_loop' fuel employee_id pos_id attempt results w) in
  (count_events is_attempt t <= S (Z.to_nat (retries - attempt)))%nat /\
  calls_within_attempts t /\
  forallb (attempt_within retries) t = true.
Proof.
  induction fuel as [|fuel IH]; intros attempt results w Ha; cbv zeta.
  - cbn. unfold calls_within_attempts. cbn. repeat split; lia.
  - cbn [attempt_loop]. rewrite trace_bind.
    destruct (attempt_once_round employee_id pos_id attempt results w)
      as (rest & Ht & Hn & Hc).
    rewrite Ht.
    change (EAttempt employee_id pos_id attempt :: rest)
      with ([EAttempt employee_id pos_id attempt] ++ rest)%list.
    assert (Hrest : forallb (attempt_within retries) rest = true).
    { clear - Hn. unfold count_events in Hn.
      induction rest as [|ev rest IH]; [reflexivity|].
      cbn [filter forallb] in *.
      destruct ev; cbn [is_attempt] in *; try discriminate Hn;
        cbn [attempt_within andb]; auto. }
    assert (Hhead : attempt_within retries (EAttempt employee_id pos_id attempt)
                    = true).
    { cbn. apply andb_true_intro. split; [apply Z.leb_le | apply Z.leb_le]; lia. }
    destruct (result (attempt_once' employee_id pos_id attempt results w))
      as [[res|attempt']|e|] eqn:Hres.
    + cbn [ret trace]. rewrite app_nil_r.
      unfold calls_within_attempts.
      rewrite !count_events_app, forallb_app, Hn, Hrest. cbn [forallb].
      rewrite Hhead. cbn. repeat split; lia.
    + apply attempt_once_step in Hres as [(r & [=] & _) | ([= ->] & Hle & _)].
      destruct (IH (attempt + 1) results
                   (final (attempt_once' employee_id pos_id attempt results w)))
        as (H1 & H2 & H3); [lia|].
      unfold calls_within_attempts in *.
      rewrite !count_events_app, !forallb_app, Hn, Hrest, H3. cbn [forallb].
      rewrite Hhead. cbn [count_events filter is_attempt is_update_call length andb].
      repeat split; lia.
    + rewrite app_nil_r. unfold calls_within_attempts.
      rewrite !count_events_app, forallb_app, Hn, Hrest. cbn [forallb].
      rewrite Hhead. cbn. repeat split; lia.
    + rewrite app_nil_r. unfold calls_within_attempts.
      rewrite !count_events_app, forallb_app, Hn, Hrest. cbn [forallb].
      rewrite Hhead. cbn. repeat split; lia.
Qed.

Lemma for_rows_bounded rows :
  forall i results w,
  let t := trace (for_rows' i rows results w) in
  (count_events is_attempt t <= length rows * S (Z.to_nat retries))%nat /\
  calls_within_attempts t /\
  forallb (attempt_within retries) t = true.
Proof.
  induction rows as [|[employee_id pos_id] rows IH]; intros i results w;
    cbv zeta; cbn [for_rows].
  - cbn. unfold calls_within_attempts. cbn. repeat split; lia.
  - rewrite trace_bind.
    set (first := (if i >? 0 then refresh_page site cfg else ret tt) w).
    assert (Hf : count_events is_attempt (trace first) = 0%nat /\
                 count_events is_update_call (trace first) = 0%nat /\
                 forallb (attempt_within retries) (trace first) = true).
    { subst first. destruct (i >? 0).
      - pose proof (refresh_page_observed site cfg w) as Hr. cbv zeta in Hr.
        split; [apply Hr|]. split; [apply Hr|].
        pose proof (refresh_page_no_attempt w) as Hq.
        clear - Hq. induction (trace (refresh_page site cfg w)) as [|ev t IH];
          [reflexivity|].
        cbn [forallb] in *. apply andb_prop in Hq as [Hev Hq].
        rewrite (IH Hq). destruct ev; try discriminate Hev; reflexivity.
      - cbn. auto. }
    destruct Hf as (Hf1 & Hf2 & Hf3).
    unfold calls_within_attempts in *.
    destruct (result first) as [u|e|]; cycle 1.
    + rewrite app_nil_r, Hf1, Hf2, Hf3. repeat split; lia.
    + rewrite app_nil_r, Hf1, Hf2, Hf3. repeat split; lia.
    + rewrite trace_bind.
      destruct (attempt_loop_bounded (rounds_left retries 0) employee_id pos_id
                  0 results (final first)) as (H1 & H2 & H3); [lia|].
      cbv zeta in H1, H2, H3. unfold calls_within_attempts in H2.
      rewrite Z.sub_0_r in H1.
      destruct (result (attempt_loop' _ employee_id pos_id 0 results
                          (final first))) as [results'|e|].
      * destruct (IH (i + 1) results'
                    (final (attempt_loop' (rounds_left retries 0) employee_id
                              pos_id 0 results (final first))))
          as (G1 & G2 & G3).
        cbv zeta in G1, G2, G3.
        rewrite !count_events_app, !forallb_app, Hf1, Hf2, Hf3, H3, G3.
        cbn [length]. repeat split; lia.
      * rewrite app_nil_r, !count_events_app, !forallb_app, Hf1, Hf2, Hf3, H3.
        cbn [length]. repeat split; lia.
      * rewrite app_nil_r, !count_events_app, !forallb_app, Hf1, Hf2, Hf3, H3.
        cbn [length]. repeat split; lia.
Qed.

End AttemptBounds.

Section Quiet.

Variable site : Remote.
Variables (n : nat) (budget : Z).
Implicit Types w : World site.

Lemma quiet_trace t :
  forallb quiet t = true ->
  count_events is_attempt t = 0%nat /\ count_events is_update_call t = 0%nat /\
  forallb (attempt_within budget) t = true.
Proof.
  unfold count_events.
  induction t as [|ev t IH]; cbn [forallb filter]; [auto|].
  intros H. apply andb_prop in H as [Hev H]. destruct (IH H) as (H1 & H2 & H3).
  destruct ev as [| | | | |[]| |]; try discriminate Hev; cbn; auto.
Qed.

Lemma attempts_within_quiet_l t1 t2 :
  forallb quiet t1 = true -> attempts_within n budget t2 ->
  attempts_within n budget (t1 ++ t2).
Proof.
  intros H1 (H2 & H3 & H4). destruct (quiet_trace _ H1) as (Q1 & Q2 & Q3).
  unfold attempts_within, calls_within_attempts in *.
  rewrite !count_events_app, forallb_app, Q1, Q2, Q3, H4. repeat split; lia.
Qed.

Lemma attempts_within_quiet_r t1 t2 :
  attempts_within n budget t1 -> forallb quiet t2 = true ->
  attempts_within n budget (t1 ++ t2).
Proof.
  intros (H2 & H3 & H4) H1. destruct (quiet_trace _ H1) as (Q1 & Q2 & Q3).
  unfold attempts_within, calls_within_attempts in *.
  rewrite !count_events_app, forallb_app, Q1, Q2, Q3, H4. repeat split; lia.
Qed.

Lemma attempts_within_nil : attempts_within n budget [].
Proof. unfold attempts_within, calls_within_attempts. cbn. repeat split; lia. Qed.

Lemma attempts_within_bind {A B} (m : M site A) (k : A -> M site B) :
  emits_only quiet m ->
  (forall a, trace_holds (attempts_within n budget) (k a)) ->
  trace_holds (attempts_within n budget) (bind m k).
Proof.
  intros Hm Hk w. rewrite trace_bind.
  apply attempts_within_quiet_l; [apply Hm|].
  destruct (result (m w)); [apply Hk | |]; apply attempts_within_nil.
Qed.

Lemma attempts_within_try_finally {A} (m : M site A) f :
  trace_holds (attempts_within n budget) m -> emits_only quiet f ->
  trace_holds (attempts_within n budget) (try_finally m f).
Proof.
  intros Hm Hf w. rewrite trace_try_finally.
  apply attempts_within_quiet_r; [apply Hm|].
  destruct (result (m w)); [apply Hf | apply Hf | reflexivity].
Qed.

End Quiet.

Lemma login_quiet site cfg creds : emits_only quiet (login site cfg creds).
Proof.
  eapply emits_only_weaken; [|apply login_emits].
  intros [| | |[]| |[]|[]|]; cbn; congruence.
Qed.


(** ** The browser is closed *)

Section PageWork.

Variable site : Remote.
Variables (cfg : AppConfig) (dry_run : bool) (retries : Z)
          (retry_backoff_seconds : Q) (step_delay_ms : Z).

Lemma wait_for_row_page_work employee_id rounds :
  emits_only page_work (wait_for_row site employee_id rounds).
Proof.
  induction rounds as [|retry rounds IH]; cbn [wait_for_row].
  - emits.
  - unfold logger_warning. emits.
Qed.

#[local] Hint Resolve wait_for_row_page_work : progs.

Lemma update_employee_pos_page_work employee_id pos_id d :
  emits_only page_work (update_employee_pos site cfg employee_id pos_id d).
Proof.
  unfold update_employee_pos, step_delay, logger_info, logger_warning. emits.
Qed.

Lemma refresh_page_page_work : emits_only page_work (refresh_page site cfg).
Proof. unfold refresh_page, logger_info. emits. Qed.

Lemma login_page_work creds : emits_only page_work (login site cfg creds).
Proof. unfold login. emits. Qed.

#[local] Hint Resolve update_employee_pos_page_work refresh_page_page_work
  login_page_work : progs.

Lemma attempt_loop_page_work fuel employee_id pos_id :
  forall attempt results,
  emits_only page_work
    (attempt_loop site cfg dry_run retries retry_backoff_seconds step_delay_ms
       fuel employee_id pos_id attempt results).
Proof.
  induction fuel as [|fuel IH]; intros attempt results; cbn [attempt_loop].
  - emits.
  - apply emits_only_bind.
    + unfold attempt_once, logger_info, logger_error, logger_warning.
      cbv zeta. emits.
    + intros [res|attempt']; [emits | apply IH].
Qed.

#[local] Hint Resolve attempt_loop_page_work : progs.

Lemma for_rows_page_work rows :
  forall i results,
  emits_only page_work
    (for_rows site cfg dry_run retries retry_backoff_seconds step_delay_ms
       i rows results).
Proof.
  induction rows as [|[employee_id pos_id] rows IH]; intros i results;
    cbn [for_rows]; emits.
Qed.

End PageWork.

(** The event is not in the list of the events shown. *)
Ltac not_listed :=
  cbn;
  let H := fresh "H" in
  intros H; repeat (destruct H as [H|H]; [discriminate H|]); contradiction.

Section Finally.

Variable site : Remote.
Implicit Types w : World site.

Lemma trace_try_finally_perform {A} a (k : unit -> M site A) f w :
  trace (try_finally (bind (perform a) k) f w) =
  match act site a w with
  | (Returned u, w') => EAct a (Returned u) :: trace (try_finally (k u) f w')
  | (Raised e, w') => EAct a (Raised e) :: trace (f w')
  end.
Proof.
  unfold try_finally, bind, perform.
  destruct (act site a w) as [[u|e] w']; cbn; [|reflexivity].
  destruct (result (k u w')); reflexivity.
Qed.

Lemma try_finally_total {A} (m : M site A) f w :
  result (m w) <> OutOfFuel ->
  trace (try_finally m f w) = (trace (m w) ++ trace (f (final (m w))))%list /\
  final (try_finally m f w) = final (f (final (m w))) /\
  (result (f (final (m w))) <> OutOfFuel ->
   result (try_finally m f w) <> OutOfFuel).
Proof.
  intros H. unfold try_finally.
  destruct (result (m w)); [| |congruence]; cbn; repeat split;
    destruct (result (f (final (m w)))); congruence.
Qed.

Lemma trace_perform a w :
  exists r, trace (perform a w) = [EAct a r].
Proof.
  unfold perform. destruct (act site a w) as [r w']. exists r. reflexivity.
Qed.

End Finally.

(** X12: once the page is open, [run_updates] ends, whatever happens to
    the rows, by closing the context, then the browser, then by leaving
    [async with]: these are the last operations of the run and occur
    once.  The browser is not closed when closing the context raised. *)
Theorem run_updates_closes_browser site cfg creds rows headless dry_run retries
    retry_backoff_seconds step_delay_ms slowmo_ms (w : World site) :
  let r := run_updates site cfg creds rows headless dry_run retries
             retry_backoff_seconds step_delay_ms slowmo_ms w in
  In (EAct NewPage (Returned tt)) (trace r) ->
  exists work context_closed browser_closed stopped,
    trace r =
    ([EAct PlaywrightStart (Returned tt);
      EAct (Launch headless (if slowmo_ms >? 0 then Some slowmo_ms else None))
           (Returned tt);
      EAct NewContext (Returned tt);
      EAct NewPage (Returned tt)]
     ++ work ++ teardown context_closed browser_closed stopped)%list /\
    forallb page_work work = true.
Proof.
  cbv zeta. unfold run_updates.
  set (body := (logger_info site "Logging in to admin site...";;
                login site cfg creds;;
                logger_info site "Login successful";;
                for_rows site cfg dry_run _ _ step_delay_ms 0 rows [])).
  assert (Hwork : emits_only page_work body).
  { subst body. unfold logger_info.
    pose proof (login_page_work site cfg creds).
    pose proof (for_rows_page_work site cfg dry_run). emits. }
  assert (Htotal : total body).
  { subst body. unfold logger_info. totality. }
  clearbody body.
  rewrite run_perform.
  destruct (act site PlaywrightStart w) as [[[]|e] w1]; [|not_listed].
  cbn [after trace app].
  rewrite trace_try_finally_perform.
  destruct (act site (Launch headless _) w1) as [[[]|e] w2];
    [|destruct (trace_perform site PlaywrightStop w2) as (s & ->); not_listed].
  rewrite trace_try_finally_perform.
  destruct (act site NewContext w2) as [[[]|e] w3];
    [|destruct (trace_perform site PlaywrightStop w3) as (s & ->); not_listed].
  rewrite trace_try_finally_perform.
  destruct (act site NewPage w3) as [[[]|e] w4];
    [|destruct (trace_perform site PlaywrightStop w4) as (s & ->); not_listed].
  intros _.
  set (close := (perform ContextClose;; perform BrowserClose) : M site unit).
  assert (Hclose : forall w5, exists c b,
            trace (close w5)
            = EAct ContextClose c
              :: match c with
                 | Returned _ => [EAct BrowserClose b]
                 | Raised _ => []
                 end /\
            result (close w5) <> OutOfFuel).
  { intros w5. subst close. rewrite run_perform.
    destruct (act site ContextClose w5) as [[[]|e] w6].
    - unfold perform. destruct (act site BrowserClose w6) as [[[]|e] w7];
        cbn; eexists (Returned tt), _; split; try reflexivity; discriminate.
    - cbn. exists (Raised e), (Returned tt). split; [reflexivity|discriminate]. }
  clearbody close.
  destruct (try_finally_total site body close w4 (Htotal w4)) as (Ht & Hf & Hr).
  destruct (Hclose (final (body w4))) as (c & b & Hct & Hcr).
  destruct (try_finally_total site (try_finally body close)
              (perform PlaywrightStop) w4 (Hr Hcr)) as (Ht' & _ & _).
  destruct (trace_perform site PlaywrightStop
              (final (try_finally body close w4))) as (s & Hs).
  exists (trace (body w4)), c, b, s. split; [|apply Hwork].
  rewrite Ht', Ht, Hct, Hs. unfold teardown. cbn [app].
  rewrite <- app_assoc. reflexivity.
Qed.

(** X12 on the example console, where the second row is not found and
    the run completes. *)
Lemma run_updates_closes_browser_witness :
  exists work context_closed browser_closed stopped,
    trace (run_updates example_site example_cfg example_creds example_rows
             true false None None 0 0 (console_with example_employees 0)) =
    ([EAct PlaywrightStart (Returned tt);
      EAct (Launch true None) (Returned tt);
      EAct NewContext (Returned tt);
      EAct NewPage (Returned tt)]
     ++ work ++ teardown context_closed browser_closed stopped)%list /\
    forallb page_work work = true.
Proof.
  apply (run_updates_closes_browser example_site example_cfg example_creds
           example_rows true false None None 0 0
           (console_with example_employees 0)).
  vm_compute. tauto.
Defined.

(** ** What is typed and selected comes from the rows *)

Section FromRows.

Variable site : Remote.
Variables (cfg : AppConfig) (dry_run : bool) (retries : Z)
          (retry_backoff_seconds : Q) (step_delay_ms : Z).
Variable rows : list (string * string).

Lemma wait_for_row_from_rows employee_id rounds :
  emits_only (from_rows rows) (wait_for_row site employee_id rounds).
Proof.
  induction rounds as [|retry rounds IH]; cbn [wait_for_row].
  - emits.
  - unfold logger_warning. emits.
Qed.

#[local] Hint Resolve wait_for_row_from_rows : progs.

Lemma update_employee_pos_from_rows employee_id pos_id d :
  In (employee_id, pos_id) rows ->
  emits_only (from_rows rows) (update_employee_pos site cfg employee_id pos_id d).
Proof.
  intros Hin.
  assert (Hid : in_list employee_id (map fst rows) = true).
  { apply in_list_In, in_map_iff. exists (employee_id, pos_id). auto. }
  assert (Hpos : in_list pos_id (map snd rows) = true).
  { apply in_list_In, in_map_iff. exists (employee_id, pos_id). auto. }
  assert (Hrow : row_listed rows employee_id pos_id = true).
  { apply existsb_exists. exists (employee_id, pos_id). split; [exact Hin|].
    cbn [fst snd]. now rewrite !String.eqb_refl. }
  assert (Hsel : existsb (fun row => (row_xpath employee_id
                                      =? row_xpath (fst row))%string) rows
                 = true).
  { apply existsb_exists. exists (employee_id, pos_id). split; [exact Hin|].
    apply String.eqb_refl. }
  unfold update_employee_pos, step_delay, logger_info, logger_warning.
  apply emits_only_traced; [exact Hrow | intro; reflexivity |].
  emits.
  - apply emits_only_perform. intro. cbn. now rewrite Hid, orb_true_r.
  - apply emits_only_perform. intro. exact Hsel.
  - apply emits_only_perform. intro. cbn. now rewrite Hpos, orb_true_r.
Qed.

Lemma refresh_page_from_rows : emits_only (from_rows rows) (refresh_page site cfg).
Proof. unfold refresh_page, logger_info. emits. Qed.

#[local] Hint Resolve refresh_page_from_rows : progs.

Lemma attempt_loop_from_rows fuel employee_id pos_id :
  In (employee_id, pos_id) rows ->
  forall attempt results,
  emits_only (from_rows rows)
    (attempt_loop site cfg dry_run retries retry_backoff_seconds step_delay_ms
       fuel employee_id pos_id attempt results).
Proof.
  intros Hin.
  pose proof (update_employee_pos_from_rows employee_id pos_id step_delay_ms Hin).
  induction fuel as [|fuel IH]; intros attempt results; cbn [attempt_loop].
  - emits.
  - apply emits_only_bind.
    + unfold attempt_once, logger_info, logger_error, logger_warning.
      cbv zeta. emits.
    + intros [res|attempt']; [emits | apply IH].
Qed.

Lemma for_rows_from_rows todo :
  incl todo rows ->
  forall i results,
  emits_only (from_rows rows)
    (for_rows site cfg dry_run retries retry_backoff_seconds step_delay_ms
       i todo results).
Proof.
  induction todo as [|[employee_id pos_id] todo IH]; intros Hincl i results;
    cbn [for_rows].
  - emits.
  - pose proof (attempt_loop_from_rows (rounds_left retries 0) employee_id pos_id
                  (Hincl _ (or_introl eq_refl))).
    assert (forall i results,
              emits_only (from_rows rows)
                (for_rows site cfg dry_run retries retry_backoff_seconds
                   step_delay_ms i todo results)).
    { apply IH. intros x Hx. apply Hincl. now right. }
    emits.
Qed.

End FromRows.

(** X13: when the login fields of the configuration are not the search
    field [#sharing_key] or the POS field [#info], every run of
    [run_updates] types into the search field only employee ids of its
    rows, into the POS field only POS values of its rows (each field is
    also cleared), selects result rows only by the XPath of an employee
    id of its rows, and calls [update_employee_pos] only with its rows,
    whatever the site answers. *)
Theorem run_updates_from_rows site cfg creds rows headless dry_run retries
    retry_backoff_seconds step_delay_ms slowmo_ms (w : World site) :
  username_input (selectors cfg) <> "#sharing_key" ->
  username_input (selectors cfg) <> "#info" ->
  password_input (selectors cfg) <> "#sharing_key" ->
  password_input (selectors cfg) <> "#info" ->
  forallb (from_rows rows)
    (trace (run_updates site cfg creds rows headless dry_run retries
              retry_backoff_seconds step_delay_ms slowmo_ms w)) = true.
Proof.
  intros H1 H2 H3 H4. revert w.
  change (emits_only (from_rows rows)
            (run_updates site cfg creds rows headless dry_run retries
               retry_backoff_seconds step_delay_ms slowmo_ms)).
  apply String.eqb_neq in H1, H2, H3, H4.
  assert (Hlogin : emits_only (from_rows rows) (login site cfg creds)).
  { unfold login. apply emits_only_traced; [reflexivity | intro; reflexivity |].
    emits.
    - apply emits_only_perform. intro. cbn [from_rows]. now rewrite H1, H2.
    - apply emits_only_perform. intro. cbn [from_rows]. now rewrite H3, H4. }
  pose proof (fun retries retry_backoff_seconds =>
                for_rows_from_rows site cfg dry_run retries
                  retry_backoff_seconds step_delay_ms rows rows
                  (incl_refl rows) 0 []).
  unfold run_updates, logger_info. emits.
Qed.

(** X13 on the example console. *)
Lemma run_updates_from_rows_witness :
  forallb (from_rows example_rows)
    (trace (run_updates example_site example_cfg example_creds example_rows
              true false None None 0 0 (console_with example_employees 0)))
  = true.
Proof.
  apply (run_updates_from_rows example_site example_cfg example_creds
           example_rows true false None None 0 0
           (console_with example_employees 0)); discriminate.
Defined.

(** ** [update_employee_pos]: the edit comes after the check *)

Section CheckedFirst.

Variable site : Remote.
Variable employee_id : string.
Implicit Types w : World site.

Lemma checked_first_bind {A B} (m : M site A) (k : A -> M site B) :
  emits_only before_guard m ->
  (forall a, trace_holds (checked_first employee_id) (k a)) ->
  trace_holds (checked_first employee_id) (bind m k).
Proof.
  intros Hm Hk w. rewrite trace_bind. specialize (Hm w).
  destruct (result (m w)) as [a|e|].
  - destruct (Hk a (final (m w))) as [H | (pre & v & post & Ht & Hpre & Hv)].
    + left. rewrite forallb_app, H, (before_guard_untouched _ Hm). reflexivity.
    + right. exists (trace (m w) ++ pre)%list, v, post.
      rewrite Ht, forallb_app, Hm, Hpre, app_assoc. auto.
  - left. rewrite app_nil_r. apply before_guard_untouched, Hm.
  - left. rewrite app_nil_r. apply before_guard_untouched, Hm.
Qed.

Lemma checked_first_check {A} (rest : string -> M site A) :
  trace_holds (checked_first employee_id)
    (sharing_key_value <- obtain (InputValue "#sharing_key") ;;
     (if negb (strip sharing_key_value =? employee_id)%string
      then raise (wrong_user_msg employee_id sharing_key_value)
      else ret tt) ;;
     rest sharing_key_value).
Proof.
  intros w. rewrite run_obtain.
  destruct (read site (InputValue "#sharing_key") w) as [[v|e] w1].
  - destruct (strip v =? employee_id)%string eqn:Heq; cbn [negb].
    + apply String.eqb_eq in Heq. right.
      exists [], v. eexists. cbn [after trace app]. auto.
    + left. rewrite run_raise. reflexivity.
  - left. reflexivity.
Qed.

End CheckedFirst.


(** ** [update_employee_pos]: a call that returns *)

Section Edited.

Variable site : Remote.
Variables (cfg : AppConfig) (employee_id pos_id : string) (step_delay_ms : Z).
Implicit Types w : World site.

Local Abbreviation edited :=
  (edited_verified cfg employee_id pos_id step_delay_ms).

Lemma edited_bind {A} (m : M site A) (k : A -> M site string) :
  emits_only before_guard m ->
  (forall a w, edited (k a w)) ->
  forall w, edited (bind m k w).
Proof.
  intros Hm Hk w old_value H.
  apply bind_Return_trace in H as (a & Ha & H & Ht).
  destruct (Hk a _ old_value H) as (search & v & Hs & Hg & Hv).
  exists (trace (m w) ++ search)%list, v.
  rewrite Ht, Hs, forallb_app, (Hm w), Hg, app_assoc. auto.
Qed.

(** Lines 106-125. *)
Lemma edited_check w :
  edited
    ((sharing_key_value <- obtain (InputValue "#sharing_key") ;;
      (if negb (strip sharing_key_value =? employee_id)%string then
         raise (wrong_user_msg employee_id sharing_key_value)
       else ret tt) ;;
      logger_info site ("Verified form shows correct user: " ++ employee_id) ;;
      perform (WaitForSelector "#info" (default (timeouts cfg))) ;;
      old_value <- obtain (InputValue "#info") ;;
      perform (Fill "#info" "") ;;
      perform (Fill "#info" pos_id) ;;
      logger_info site (employee_id ++ ": POS info will change from '"
                        ++ old_value ++ "' to '" ++ pos_id ++ "'") ;;
      step_delay site step_delay_ms ;;
      tell OnceDialogAccept ;;
      perform (Click "#doEdit") ;;
      perform (WaitForLoadState "networkidle" None) ;;
      step_delay site step_delay_ms ;;
      ret old_value) w).
Proof.
  unfold step_delay, logger_info.
  unfold edited_verified, edit_steps, delay_events.
  destruct (truthy step_delay_ms) eqn:Hd.
  all: match goal with
       | |- forall old_value, result ?x = _ -> _ =>
           pattern x; match goal with |- ?Q _ => set (P := Q) end
       end.
  all: repeat run_step site.
  all: subst P; cbn beta; cbn [after result trace final app].
  all: intros old_value H; try discriminate H.
  all: injection H as <-.
  all: match goal with
       | Heq : negb (strip ?v =? employee_id)%string = false |- _ =>
           apply negb_false_iff, String.eqb_eq in Heq;
           exists [], v; split; [reflexivity|]; split; [reflexivity | exact Heq]
       end.
Qed.

End Edited.



(** ** [update_employee_pos]: the "no data" indicator *)

Section NoData.

Variable site : Remote.
Variable employee_id : string.
Implicit Types w : World site.

Local Abbreviation stops_on_no_data := (stops_on_no_data site employee_id).

Lemma search_step_no_count t :
  forallb search_step t = true ->
  forallb (fun ev => negb (is_count ev)) t = true.
Proof.
  rewrite !forallb_forall. intros H ev Hin. specialize (H ev Hin).
  apply andb_prop in H as [H _]. exact H.
Qed.

Lemma stops_on_no_data_bind {A B} (m : M site A) (k : A -> M site B) :
  emits_only search_step m -> (forall a, stops_on_no_data (k a)) ->
  stops_on_no_data (bind m k).
Proof.
  intros Hm Hk w c. unfold no_data_stop. rewrite trace_bind, result_bind.
  rewrite (first_count_app _ _ (search_step_no_count _ (Hm w))).
  destruct (result (m w)) as [a|e|]; try discriminate.
  intros Hc Hpos.
  destruct (Hk a _ c Hc Hpos) as (search & shot & e & Ht & Hs & Hr & He).
  exists (trace (m w) ++ search)%list, shot, e.
  rewrite Ht, forallb_app, (Hm w), Hs, app_assoc. auto.
Qed.

(** Lines 60-64, followed by anything. *)
Lemma stops_on_no_data_count {A} (rest : Z -> M site A) :
  stops_on_no_data
    (no_data_text <- locator_count no_data_selector ;;
     (if no_data_text >? 0 then
        perform (Screenshot ("debug_no_data_" ++ employee_id ++ ".png")) ;;
        raise (no_permission_msg employee_id)
      else ret tt) ;;
     rest no_data_text).
Proof.
  intros w c. unfold no_data_stop. rewrite run_count.
  destruct (count site no_data_selector w) as [[n|e] w1];
    cbn [after trace result app first_count]; [|discriminate].
  intros [= ->] Hpos.
  replace (c >? 0) with true by (symmetry; apply Z.gtb_lt; lia).
  rewrite bind_assoc, run_perform.
  destruct (act site (Screenshot _) w1) as [[[]|e] w2].
  - rewrite run_raise. exists [], (Returned tt). eexists.
    cbn [after trace result app]. repeat split.
  - exists [], (Raised e), e. cbn [after trace result app]. repeat split.
Qed.

Lemma first_count_leave t f r :
  first_count (t ++ [ELeave f r]) = first_count t.
Proof.
  induction t as [|ev t IH]; [reflexivity|].
  cbn [app first_count]. destruct ev; auto.
Qed.

End NoData.

(** X14: when the first check of the "no data" indicator in
    [update_employee_pos] counts an element, the call takes the
    screenshot [debug_no_data_<employee_id>.png] and raises "User not
    found or no permission to access employee_id: ..." (the error of the
    screenshot, should that fail); it has then done nothing but the
    search: no wait for a row, no selection, no read, no edit, no save. *)
Theorem update_employee_pos_no_data site cfg employee_id pos_id step_delay_ms
    (w : World site) c :
  let r := update_employee_pos site cfg employee_id pos_id step_delay_ms w in
  first_count (trace r) = Some (Returned c) ->
  c > 0 ->
  exists search shot e,
    result r = Raise e /\
    e = match shot with
        | Returned _ => no_permission_msg employee_id
        | Raised e' => e'
        end /\
    forallb search_step search = true /\
    trace r =
    (EEnter (FUpdateEmployeePos employee_id pos_id)
     :: search
     ++ [ECount no_data_selector (Returned c);
         EAct (Screenshot ("debug_no_data_" ++ employee_id ++ ".png")) shot;
         ELeave (FUpdateEmployeePos employee_id pos_id) (Some e)])%list.
Proof.
  cbv zeta. unfold update_employee_pos.
  rewrite trace_traced, result_traced. cbn [first_count].
  rewrite first_count_leave.
  match goal with
  | |- first_count (trace (?m w)) = _ -> _ =>
      assert (H : stops_on_no_data site employee_id m)
  end.
  { unfold step_delay, logger_info, logger_warning.
    repeat (apply stops_on_no_data_bind; [solve [emits] | intro]).
    apply (stops_on_no_data_count site employee_id (fun _ => _ : M site string)). }
  intros Hc Hpos.
  destruct (H w c Hc Hpos) as (search & shot & e & Ht & Hs & Hr & He).
  exists search, shot, e. rewrite Ht, Hr, <- app_assoc. cbn [raised_of app].
  auto.
Qed.

(** X14 on the example console, for an employee the account cannot
    see. *)
Lemma update_employee_pos_no_data_witness :
  exists search shot e,
    result (update_employee_pos example_site example_cfg "E3" "P7" 0
              (console_with example_employees 0)) = Raise e /\
    e = match shot with
        | Returned _ => no_permission_msg "E3"
        | Raised e' => e'
        end /\
    forallb search_step search = true /\
    trace (update_employee_pos example_site example_cfg "E3" "P7" 0
             (console_with example_employees 0)) =
    (EEnter (FUpdateEmployeePos "E3" "P7")
     :: search
     ++ [ECount no_data_selector (Returned 1);
         EAct (Screenshot ("debug_no_data_" ++ "E3" ++ ".png")) shot;
         ELeave (FUpdateEmployeePos "E3" "P7") (Some e)])%list.
Proof.
  apply (update_employee_pos_no_data example_site example_cfg "E3" "P7" 0
           (console_with example_employees 0) 1).
  - vm_compute. reflexivity.
  - lia.
Defined.

(** ** cli.py: the audit of a run *)

Lemma summary_total results :
  fst (summary results) + snd (summary results) = Z.of_nat (length results).
Proof. unfold summary. cbn [fst snd]. lia. Qed.

(** X17: the audit that [run] and [run_pairs] write of a completed run of
    [run_updates] has, after the header, one line per row, in the order
    of the rows, starting with the employee id of the row: for a success
    the old POS (empty in a dry run), the requested POS, [true] and an
    empty error; for a failure two empty POS columns, [false] and the
    text of the error.  The two counts of the closing log line add up to
    the number of rows. *)
Theorem audit_rows_of_run site cfg creds rows headless dry_run retries
    retry_backoff_seconds step_delay_ms slowmo_ms (w : World site) results :
  result (run_updates site cfg creds rows headless dry_run retries
            retry_backoff_seconds step_delay_ms slowmo_ms w) = Return results ->
  exists lines,
    audit_rows results
    = ["employee_id"; "old_pos"; "new_pos"; "success"; "error"] :: lines /\
    Forall2
      (fun row line =>
         (exists old_value,
            line = [fst row; old_value; snd row; "true"; ""] /\
            (dry_run = true -> old_value = "")) \/
         (exists e,
            line = [fst row; ""; ""; "false"; e] /\ dry_run = false))
      rows lines /\
    fst (summary results) + snd (summary results) = Z.of_nat (length rows).
Proof.
  intros H. apply run_updates_produced in H.
  exists (map audit_row results). split; [reflexivity|]. split.
  - induction H as [|row r rows results Hr _ IH]; cbn [map]; constructor;
      [|exact IH].
    destruct Hr as [employee_id pos_id Hd | employee_id pos_id old_value Hd
                   | employee_id pos_id e Hd]; cbn.
    + left. exists "". auto.
    + left. exists old_value. split; [reflexivity | congruence].
    + right. exists e. auto.
  - rewrite summary_total. f_equal. symmetry. eapply Forall2_length, H.
Qed.

(** X17 on the example console: one success, one row not found, one
    success. *)
Lemma audit_rows_of_run_witness :
  exists lines,
    audit_rows [succeeded "E1" "P1" (Some "P0");
                failed "E3" "P7" (no_permission_msg "E3");
                succeeded "E2" "P2" (Some "P9")]
    = ["employee_id"; "old_pos"; "new_pos"; "success"; "error"] :: lines /\
    Forall2
      (fun row line =>
         (exists old_value,
            line = [fst row; old_value; snd row; "true"; ""] /\
            (false = true -> old_value = "")) \/
         (exists e,
            line = [fst row; ""; ""; "false"; e] /\ false = false))
      example_rows lines /\
    fst (summary [succeeded "E1" "P1" (Some "P0");
                  failed "E3" "P7" (no_permission_msg "E3");
                  succeeded "E2" "P2" (Some "P9")])
    + snd (summary [succeeded "E1" "P1" (Some "P0");
                    failed "E3" "P7" (no_permission_msg "E3");
                    succeeded "E2" "P2" (Some "P9")])
    = Z.of_nat (length example_rows).
Proof.
  apply (audit_rows_of_run example_site example_cfg example_creds example_rows
           true false None None 0 0 (console_with example_employees 0)).
  vm_compute. reflexivity.
Defined.

(** ** From the sheet to the browser *)

Lemma row_listed_In rows employee_id pos_id :
  row_listed rows employee_id pos_id = true -> In (employee_id, pos_id) rows.
Proof.
  unfold row_listed. intros H. apply existsb_exists in H as ([e p] & Hin & H).
  cbn [fst snd] in H. apply andb_prop in H as [He Hp].
  apply String.eqb_eq in He, Hp. now subst.
Qed.

Lemma run_updates_calls_from site cfg creds rows headless dry_run retries
    retry_backoff_seconds step_delay_ms slowmo_ms :
  emits_only (calls_from rows)
    (run_updates site cfg creds rows headless dry_run retries
       retry_backoff_seconds step_delay_ms slowmo_ms).
Proof.
  assert (Hrows : forall retries retry_backoff_seconds,
            emits_only (calls_from rows)
              (for_rows site cfg dry_run retries retry_backoff_seconds
                 step_delay_ms 0 rows [])).
  { intros. eapply emits_only_weaken;
      [|apply (for_rows_from_rows site cfg dry_run _ _ step_delay_ms rows rows
                 (incl_refl rows))].
    intros [[]| | | | |[]| |]; cbn; congruence. }
  assert (Hlogin : emits_only (calls_from rows) (login site cfg creds)).
  { unfold login. emits. }
  unfold run_updates, logger_info. emits.
Qed.

(** X18: [run] passes the valid pairs of the sheet to [run_updates]: in
    such a run, whatever the site answers, [update_employee_pos] is
    called only for pairs that [read_employee_pos_pairs] returned as
    valid, never for one it returned as invalid, never with an empty
    employee id and never with a POS that is empty or one of the markers
    of a missing value. *)
Theorem run_updates_of_sheet read_excel xlsx_path offset limit valid invalid
    site cfg creds headless dry_run retries retry_backoff_seconds
    step_delay_ms slowmo_ms (w : World site) employee_id pos_id :
  read_employee_pos_pairs read_excel xlsx_path offset limit
  = Returned (valid, invalid) ->
  In (EEnter (FUpdateEmployeePos employee_id pos_id))
     (trace (run_updates site cfg creds valid headless dry_run retries
               retry_backoff_seconds step_delay_ms slowmo_ms w)) ->
  In (employee_id, pos_id) valid /\
  ~ In (employee_id, pos_id) invalid /\
  employee_id <> "" /\
  pos_missing pos_id = false.
Proof.
  intros Hread Hin.
  pose proof (run_updates_calls_from site cfg creds valid headless dry_run
                retries retry_backoff_seconds step_delay_ms slowmo_ms w) as H.
  rewrite forallb_forall in H. specialize (H _ Hin). cbn [calls_from] in H.
  apply row_listed_In in H.
  apply read_employee_pos_pairs_sorted in Hread as [Hv Hi].
  rewrite Forall_forall in Hv, Hi.
  destruct (Hv _ H) as [Hid Hpos]. cbn [fst snd] in *.
  repeat split; auto.
  intros Hinv. specialize (Hi _ Hinv). cbn [snd] in Hi. congruence.
Qed.

(** X18 at the example sheet and the example console. *)
Lemma run_updates_of_sheet_witness :
  In ("E1", "P1") [("E1", "P1"); ("nan", "P3"); ("E6", "P6")] /\
  ~ In ("E1", "P1") [("E2", "nan"); ("E5", "#N/A")] /\
  "E1" <> "" /\
  pos_missing "P1" = false.
Proof.
  apply (run_updates_of_sheet example_read_excel "users.xlsx" 0 None
           [("E1", "P1"); ("nan", "P3"); ("E6", "P6")]
           [("E2", "nan"); ("E5", "#N/A")]
           example_site example_cfg example_creds true false None None 0 0
           (console_with example_employees 0) "E1" "P1").
  - reflexivity.
  - vm_compute. tauto.
Defined.

(** ** [update_employee_pos]: the work of a call *)

Section AtMost.

Variable site : Remote.
Variable p : event -> bool.
Implicit Types w : World site.

Local Abbreviation never := (fun ev => negb (p ev)).

Lemma at_most_never {A} n (m : M site A) : emits_only never m -> at_most p n m.
Proof. intros H w. rewrite (count_events_none p); [lia | apply H]. Qed.

Lemma at_most_bind {A B} n1 n2 (m : M site A) (k : A -> M site B) :
  at_most p n1 m -> (forall a, at_most p n2 (k a)) ->
  at_most p (n1 + n2) (bind m k).
Proof.
  intros Hm Hk w. rewrite trace_bind, count_events_app.
  specialize (Hm w).
  destruct (result (m w)) as [a|e|]; [specialize (Hk a (final (m w)))| |];
    cbn [count_events filter length] in *; lia.
Qed.

Lemma at_most_after {A B} n (m : M site A) (k : A -> M site B) :
  emits_only never m -> (forall a, at_most p n (k a)) -> at_most p n (bind m k).
Proof.
  intros Hm Hk. apply (at_most_bind 0 n); [apply at_most_never, Hm | exact Hk].
Qed.

Lemma at_most_try_except {A} n1 n2 (m : M site A) h :
  at_most p n1 m -> (forall e, at_most p n2 (h e)) ->
  at_most p (n1 + n2) (try_except m h).
Proof.
  intros Hm Hh w. rewrite trace_try_except, count_events_app.
  specialize (Hm w).
  destruct (result (m w)) as [a|e|]; [|specialize (Hh e (final (m w)))|];
    cbn [count_events filter length] in *; lia.
Qed.

Lemma at_most_perform a : at_most p 1 (perform (site:=site) a).
Proof.
  intros w. unfold perform. destruct (act site a w) as [r w'].
  cbn [trace]. unfold count_events. cbn [filter]. destruct (p _); cbn; lia.
Qed.

Lemma at_most_traced {A} n f (m : M site A) :
  p (EEnter f) = false -> (forall r, p (ELeave f r) = false) ->
  at_most p n m -> at_most p n (traced f m).
Proof.
  intros He Hl Hm w. rewrite trace_traced.
  change (EEnter f :: ?t ++ ?l)%list with ([EEnter f] ++ t ++ l)%list.
  rewrite !count_events_app. specialize (Hm w).
  unfold count_events at 1 3. cbn [filter]. rewrite He, Hl. cbn [length]. lia.
Qed.

End AtMost.

Section Work.

Variable site : Remote.
Variable cfg : AppConfig.

Lemma wait_for_row_polls employee_id rounds :
  at_most (is_poll employee_id) (length rounds)
    (wait_for_row site employee_id rounds).
Proof.
  induction rounds as [|retry rounds IH]; cbn [wait_for_row length].
  - apply at_most_never. emits.
  - apply (at_most_bind site _ 1 (length rounds)).
    + apply (at_most_try_except site _ 1 0).
      * apply (at_most_bind site _ 1 0); [apply at_most_perform | intro].
        apply at_most_never. emits.
      * intro. apply at_most_never. unfold logger_warning. emits.
    + intros [|]; [apply at_most_never; emits | exact IH].
Qed.

Lemma wait_for_row_no_save employee_id rounds :
  emits_only (fun ev => negb (is_save ev)) (wait_for_row site employee_id rounds).
Proof.
  induction rounds as [|retry rounds IH]; cbn [wait_for_row].
  - emits.
  - unfold logger_warning. emits.
Qed.

End Work.

(** X23: whatever the site answers, a call of [update_employee_pos] waits
    for the result row of the employee at most three times and clicks the
    save button [#doEdit] at most once. *)
Theorem update_employee_pos_work site cfg employee_id pos_id step_delay_ms
    (w : World site) :
  let t := trace (update_employee_pos site cfg employee_id pos_id
                    step_delay_ms w) in
  (count_events (is_poll employee_id) t <= 3)%nat /\
  (count_events is_save t <= 1)%nat.
Proof.
  cbv zeta. split; revert w.
  - change (at_most (is_poll employee_id) 3
              (update_employee_pos site cfg employee_id pos_id step_delay_ms)).
    unfold update_employee_pos, step_delay, logger_info, logger_warning.
    apply at_most_traced; [reflexivity | intro; reflexivity |].
    repeat (apply at_most_after; [solve [emits] | intro]).
    apply (at_most_bind site _ 3 0);
      [apply (wait_for_row_polls site employee_id [0; 1; 2]) | intro].
    apply at_most_never. emits.
  - change (at_most is_save 1
              (update_employee_pos site cfg employee_id pos_id step_delay_ms)).
    pose proof (wait_for_row_no_save site employee_id).
    unfold update_employee_pos, step_delay, logger_info, logger_warning.
    apply at_most_traced; [reflexivity | intro; reflexivity |].
    repeat (apply at_most_after; [solve [emits] | intro]).
    apply (at_most_bind site _ 1 0); [apply at_most_perform | intro].
    apply at_most_never. emits.
Qed.

(** ** cli.py: running a command step by step *)

Section CliStepping.

Variables (host : Host) (site : Remote).
Implicit Types s : machine host site.

Lemma cli_exec_eta {A} (x : cli_exec (machine host site) A) :
  x = CliExec (cli_result x) (cli_final x) (cli_trace x).
Proof. destruct x; reflexivity. Qed.

Lemma run_on_disk {A B} (op : Disk host -> reply A * Disk host) record
    (k : A -> C host site B) s :
  cbind (on_disk op record) k s =
  match op (fst s) with
  | (Returned a, d) => cli_after [record (Returned a)] (k a (d, snd s))
  | (Raised e, d) => CliExec (Raise e) (d, snd s) [record (Raised e)]
  end.
Proof.
  unfold cbind, on_disk. destruct (op (fst s)) as [[a|e] d]; reflexivity.
Qed.

Lemma run_cli_log {B} l msg (k : unit -> C host site B) s :
  cbind (cli_log l msg) k s = cli_after [CLog l msg] (k tt s).
Proof. reflexivity. Qed.

Lemma run_cret {A B} (a : A) (k : A -> C host site B) s :
  cbind (cret a) k s = k a s.
Proof. unfold cbind, cret. cbn. symmetry. apply cli_exec_eta. Qed.

Lemma run_craise {A B} e (k : A -> C host site B) s :
  cbind (craise e) k s = CliExec (Raise e) s [].
Proof. reflexivity. Qed.

Lemma run_with_disk {A B} (f : Disk host -> C host site A)
    (k : A -> C host site B) s :
  cbind (with_disk f) k s = cbind (f (fst s)) k s.
Proof. reflexivity. Qed.

Lemma run_asyncio {A B} (m : M site A) (k : A -> C host site B) s :
  cbind (asyncio_run m) k s =
  match result (m (snd s)) with
  | Return a =>
      cli_after [CBrowser (trace (m (snd s))) None]
                (k a (fst s, final (m (snd s))))
  | Raise e =>
      CliExec (Raise e) (fst s, final (m (snd s)))
              [CBrowser (trace (m (snd s))) (Some e)]
  | OutOfFuel =>
      CliExec OutOfFuel (fst s, final (m (snd s)))
              [CBrowser (trace (m (snd s))) None]
  end.
Proof.
  unfold cbind, asyncio_run. cbn.
  destruct (result (m (snd s))); reflexivity.
Qed.

Lemma cbind_assoc {A B D} (m : C host site A) (k1 : A -> C host site B)
    (k2 : B -> C host site D) s :
  cbind (cbind m k1) k2 s = cbind m (fun a => cbind (k1 a) k2) s.
Proof.
  unfold cbind. destruct (m s) as [[a|e|] s1 t1]; cbn; try reflexivity.
  destruct (k1 a s1) as [[b|e|] s2 t2]; cbn; try reflexivity.
  rewrite app_assoc. reflexivity.
Qed.

Lemma cli_after_after {A} t1 t2 (x : cli_exec (machine host site) A) :
  cli_after t1 (cli_after t2 x) = cli_after (t1 ++ t2) x.
Proof. unfold cli_after. cbn. rewrite app_assoc. reflexivity. Qed.

Lemma cli_after_CliExec {A} t (o : outcome A) s t' :
  cli_after t (CliExec o s t') = CliExec o s (t ++ t').
Proof. reflexivity. Qed.

Lemma csv_written_app t1 t2 :
  csv_written (t1 ++ t2) = (csv_written t1 ++ csv_written t2)%list.
Proof.
  induction t1 as [|ev t1 IH]; cbn [app csv_written]; [reflexivity|].
  destruct ev as [| | |? ? []| | |]; cbn [app]; rewrite ?IH; reflexivity.
Qed.

Lemma browser_runs_app t1 t2 :
  browser_runs (t1 ++ t2) = (browser_runs t1 ++ browser_runs t2)%list.
Proof.
  induction t1 as [|ev t1 IH]; cbn [app browser_runs]; [reflexivity|].
  destruct ev; cbn [app]; rewrite ?IH; reflexivity.
Qed.

(** The closing log lines: nothing is written, nothing is run. *)
Lemma log_failures_quiet results s :
  cli_result (log_failures host site results s) = Return tt /\
  forallb logging_only (cli_trace (log_failures host site results s)) = true.
Proof.
  revert s. induction results as [|r results IH]; intros s;
    cbn [log_failures]; [auto|].
  destruct (negb (success r)).
  - rewrite run_cli_log. cbn [cli_after cli_result cli_trace app forallb].
    destruct (IH s) as [-> ->]. auto.
  - rewrite run_cret. apply IH.
Qed.

Lemma log_summary_quiet results s :
  cli_result (log_summary host site results s) = Return tt /\
  forallb logging_only (cli_trace (log_summary host site results s)) = true.
Proof.
  unfold log_summary. destruct (summary results) as [ok fail].
  rewrite run_cli_log. cbn [cli_after cli_result cli_trace app forallb].
  destruct (truthy fail); [apply log_failures_quiet | auto].
Qed.

Lemma logging_only_quiet t :
  forallb logging_only t = true -> csv_written t = [] /\ browser_runs t = [].
Proof.
  induction t as [|ev t IH]; cbn [forallb]; [auto|].
  intros H. apply andb_prop in H as [Hev H]. destruct (IH H) as [H1 H2].
  destruct ev; try discriminate Hev; cbn; auto.
Qed.

End CliStepping.

Ltac cli_head host site m k s :=
  lazymatch m with
  | on_disk ?op ?record =>
      rewrite (run_on_disk host site op record k s);
      destruct (op (fst s)) as [[?|?] ?]
  | cli_log ?l ?msg => rewrite (run_cli_log host site l msg k s)
  | cret ?a => rewrite (run_cret host site a k s)
  | craise ?e => rewrite (run_craise host site e k s)
  | with_disk ?f => rewrite (run_with_disk host site f k s)
  | asyncio_run ?m' =>
      rewrite (run_asyncio host site m' k s);
      destruct (result (m' (snd s))) eqn:?
  | cbind ?m' ?k' => rewrite (cbind_assoc host site m' k' k s)
  | if ?b then _ else _ => destruct b eqn:?
  | match ?x with [] => _ | _ :: _ => _ end => destruct x eqn:?
  end.

Ltac cli_step host site :=
  lazymatch goal with
  | |- _ (cli_after _ (cbind ?m ?k ?s)) => cli_head host site m k s
  | |- _ (cbind ?m ?k ?s) => cli_head host site m k s
  | |- _ (cli_after _ (match ?x with Returned _ => _ | Raised _ => _ end _)) =>
      destruct x as [[? ?]|?] eqn:?
  | |- _ (cli_after _ ((let (_, _) := ?x in _) _)) =>
      destruct x as [? ?] eqn:?
  | |- _ (cli_after _ (craise ?e ?s)) => unfold craise
  end;
  rewrite ?cli_after_after, ?cli_after_CliExec; cbn beta iota;
  cbn [app fst snd].

(** ** cli.py: what the commands do *)

(** X19: [run-pairs] with a pair that [_parse_pairs] rejects stops before
    the configuration and the credentials are loaded and before the
    browser is started: it has done nothing but set up the file log, it
    wrote no CSV, and it ends with the error of [_parse_pairs] (with the
    error of [logger.add], should the set-up of the file log fail). *)
Theorem run_pairs_rejects host site pair config env headful dry_run retries
    retry_backoff_seconds log_file audit_csv slowmo_ms step_delay_ms
    (s : machine host site) e :
  _parse_pairs pair = Raised e ->
  let r := run_pairs host site pair config env headful dry_run retries
             retry_backoff_seconds log_file audit_csv slowmo_ms step_delay_ms
             s in
  forallb logging_only (cli_trace r) = true /\
  exists e',
    cli_result r = Raise e' /\
    (e' = e \/ cli_trace r = [CLoggerAdd (or_empty log_file) (Raised e')]).
Proof.
  intros Hparse. cbv zeta. unfold run_pairs, _setup_file_logging.
  rewrite Hparse.
  match goal with
  | |- forallb _ (cli_trace ?x) = _ /\ _ =>
      pattern x; match goal with |- ?Q _ => set (P := Q) end
  end.
  repeat cli_step host site.
  all: subst P; cbn. 
  all: split; [reflexivity|]; eexists; split; [reflexivity|]; auto.
Qed.

(** X19 on a list whose second pair has no POS. *)
Lemma run_pairs_rejects_witness :
  let r := run_pairs example_host example_site ["E1=P1"; "E2="] "config.yaml"
             None true false None None None None 0 0
             (tt, console_with example_employees 0) in
  forallb logging_only (cli_trace r) = true /\
  exists e',
    cli_result r = Raise e' /\
    (e' = "Invalid pair (empty values): E2="
     \/ cli_trace r = [CLoggerAdd (or_empty None) (Raised e')]).
Proof.
  apply (run_pairs_rejects example_host example_site ["E1=P1"; "E2="]
           "config.yaml" None true false None None None None 0 0
           (tt, console_with example_employees 0)
           "Invalid pair (empty values): E2=").
  reflexivity.
Defined.

(** X20: a [run] that completes has read the sheet, run the batch once
    on its valid pairs, with one outcome per pair, and written these CSV
    files, in this order and no other: the invalid pairs, when there are
    some (to [logs/invalid_users.csv] unless a path is given); the audit
    of the outcomes, when a path is given for it; the employees whose
    update failed with a "no permission" or "not found" error, when there
    are some (to [logs/permission_denied.csv] unless a path is given). *)
Theorem run_files_written host site excel config env headful dry_run offset
    limit retries retry_backoff_seconds log_file audit_csv invalid_csv
    permission_denied_csv slowmo_ms step_delay_ms (s : machine host site) :
  let r := run host site excel config env headful dry_run offset limit retries
             retry_backoff_seconds log_file audit_csv invalid_csv
             permission_denied_csv slowmo_ms step_delay_ms s in
  cli_result r = Return tt ->
  exists df valid invalid results,
    In (CReadExcel excel (Returned df)) (cli_trace r) /\
    read_employee_pos_pairs (fun _ => Returned df) excel offset limit
    = Returned (valid, invalid) /\
    Forall2 (produced dry_run) valid results /\
    browser_runs (cli_trace r) = [None] /\
    csv_written (cli_trace r) =
    (match invalid with
     | [] => []
     | _ :: _ =>
         [(if negb (given invalid_csv) then "logs/invalid_users.csv"
           else or_empty invalid_csv, invalid_rows invalid)]
     end
     ++ (if negb (given audit_csv) then []
         else [(or_empty audit_csv, audit_rows results)])
     ++ match fst (partition_failures results [] []) with
        | [] => []
        | denied =>
            [(if negb (given permission_denied_csv)
              then "logs/permission_denied.csv"
              else or_empty permission_denied_csv,
              permission_denied_lines denied)]
        end)%list.
Proof.
  cbv zeta.
  unfold run, _setup_file_logging, _write_audit_csv, _write_invalid_csv,
    _write_permission_denied_csv, load_credentials.
  cbv zeta.
  match goal with
  | |- cli_result ?x = _ -> _ =>
      pattern x; match goal with |- ?Q _ => set (P := Q) end
  end.
  repeat cli_step host site.
  all: subst P; cbn beta; cbn [cli_after cli_result cli_trace].
  all: try (intros H; discriminate H).
  all: match goal with
       | |- context [log_summary _ _ ?results ?s'] =>
           destruct (log_summary_quiet _ _ results s') as [Hres Hlog];
           destruct (logging_only_quiet _ Hlog) as [Hcsv Hrun]
       end.
  all: intros _.
  all: match goal with
       | Hu : result (run_updates _ _ _ ?valid _ _ _ _ _ _ _) = Return ?results,
         Hr : read_employee_pos_pairs (fun _ => Returned ?df) _ _ _
              = Returned (?valid, ?invalid),
         Hp : partition_failures ?results [] [] = _ |- _ =>
           pose proof (run_updates_produced _ _ _ _ _ _ _ _ _ _ _ _ Hu);
           exists df, valid, invalid, results;
           rewrite Hp
       end.
  all: split; [cbn; tauto|].
  all: split; [assumption|].
  all: split; [assumption|].
  all: rewrite !csv_written_app, !browser_runs_app, Hcsv, Hrun.
  all: split; reflexivity.
Qed.

(** X20 on the example machine and the example console: the sheet has
    three valid and two invalid pairs; of the valid ones the console
    knows E1 only. *)
Lemma run_files_written_witness :
  let r := run example_host example_site "users.xlsx" "config.yaml" None false
             false 0 None None None None (Some "audit.csv") None None 0 0
             (tt, console_with example_employees 0) in
  exists df valid invalid results,
    In (CReadExcel "users.xlsx" (Returned df)) (cli_trace r) /\
    read_employee_pos_pairs (fun _ => Returned df) "users.xlsx" 0 None
    = Returned (valid, invalid) /\
    Forall2 (produced false) valid results /\
    browser_runs (cli_trace r) = [None] /\
    csv_written (cli_trace r) =
    (match invalid with
     | [] => []
     | _ :: _ =>
         [(if negb (given None) then "logs/invalid_users.csv"
           else or_empty None, invalid_rows invalid)]
     end
     ++ (if negb (given (Some "audit.csv")) then []
         else [(or_empty (Some "audit.csv"), audit_rows results)])
     ++ match fst (partition_failures results [] []) with
        | [] => []
        | denied =>
            [(if negb (given None)
              then "logs/permission_denied.csv"
              else or_empty None,
              permission_denied_lines denied)]
        end)%list.
Proof.
  apply (run_files_written example_host example_site "users.xlsx"
           "config.yaml" None false false 0 None None None None
           (Some "audit.csv") None None 0 0
           (tt, console_with example_employees 0)).
  vm_compute. reflexivity.
Defined.

(** X21: when the batch that [run] started ends with an exception, [run]
    ends with the same exception and writes neither the audit nor the
    report of the permission-denied employees, whatever the rows already
    processed: the only CSV written is that of the invalid pairs of the
    sheet, when there are some. *)
Theorem run_aborted host site excel config env headful dry_run offset
    limit retries retry_backoff_seconds log_file audit_csv invalid_csv
    permission_denied_csv slowmo_ms step_delay_ms (s : machine host site) e :
  let r := run host site excel config env headful dry_run offset limit retries
             retry_backoff_seconds log_file audit_csv invalid_csv
             permission_denied_csv slowmo_ms step_delay_ms s in
  browser_runs (cli_trace r) = [Some e] ->
  cli_result r = Raise e /\
  exists df valid invalid,
    read_employee_pos_pairs (fun _ => Returned df) excel offset limit
    = Returned (valid, invalid) /\
    csv_written (cli_trace r) =
    match invalid with
    | [] => []
    | _ :: _ =>
        [(if negb (given invalid_csv) then "logs/invalid_users.csv"
          else or_empty invalid_csv, invalid_rows invalid)]
    end.
Proof.
  cbv zeta.
  unfold run, _setup_file_logging, _write_audit_csv, _write_invalid_csv,
    _write_permission_denied_csv, load_credentials.
  cbv zeta.
  match goal with
  | |- browser_runs (cli_trace ?x) = _ -> _ =>
      pattern x; match goal with |- ?Q _ => set (P := Q) end
  end.
  repeat cli_step host site.
  all: subst P; cbn beta; cbn [cli_after cli_result cli_trace].
  all: rewrite ?browser_runs_app; cbn [browser_runs app].
  all: try (intros H; discriminate H).
  all: intros [= ->].
  all: split; [reflexivity|].
  all: match goal with
       | Hr : read_employee_pos_pairs (fun _ => Returned ?df) _ _ _
              = Returned (?valid, ?invalid) |- _ =>
           exists df, valid, invalid
       end.
  all: split; [assumption | reflexivity].
Qed.

(** X21 on the example machine, against a site that cannot be reached. *)
Lemma run_aborted_witness :
  let r := run example_host unreachable_site "users.xlsx" "config.yaml" None
             false false 0 None None None None (Some "audit.csv") None None
             0 0 (tt, tt) in
  cli_result r = Raise "net::ERR_NAME_NOT_RESOLVED" /\
  exists df valid invalid,
    read_employee_pos_pairs (fun _ => Returned df) "users.xlsx" 0 None
    = Returned (valid, invalid) /\
    csv_written (cli_trace r) =
    match invalid with
    | [] => []
    | _ :: _ =>
        [(if negb (given None) then "logs/invalid_users.csv"
          else or_empty None, invalid_rows invalid)]
    end.
Proof.
  apply (run_aborted example_host unreachable_site "users.xlsx" "config.yaml"
           None false false 0 None None None None (Some "audit.csv") None None
           0 0 (tt, tt) "net::ERR_NAME_NOT_RESOLVED").
  vm_compute. reflexivity.
Defined.

(** X22: a [run-pairs] that completes has parsed all its pairs, run the
    batch once on them, with one outcome per pair, and written one CSV at
    most: the audit of the outcomes, when a path is given for it. *)
Theorem run_pairs_files_written host site pair config env headful dry_run
    retries retry_backoff_seconds log_file audit_csv slowmo_ms step_delay_ms
    (s : machine host site) :
  let r := run_pairs host site pair config env headful dry_run retries
             retry_backoff_seconds log_file audit_csv slowmo_ms step_delay_ms
             s in
  cli_result r = Return tt ->
  exists pairs results,
    _parse_pairs pair = Returned pairs /\
    Forall2 (produced dry_run) pairs results /\
    browser_runs (cli_trace r) = [None] /\
    csv_written (cli_trace r) =
    if negb (given audit_csv) then []
    else [(or_empty audit_csv, audit_rows results)].
Proof.
  cbv zeta.
  unfold run_pairs, _setup_file_logging, _write_audit_csv, load_credentials.
  cbv zeta.
  destruct (_parse_pairs pair) as [pairs|e] eqn:Hparse.
  all: match goal with
       | |- cli_result ?x = _ -> _ =>
           pattern x; match goal with |- ?Q _ => set (P := Q) end
       end.
  all: repeat cli_step host site.
  all: subst P; cbn beta; cbn [cli_after cli_result cli_trace].
  all: try (intros H; discriminate H).
  all: match goal with
       | |- context [log_summary _ _ ?results ?s'] =>
           destruct (log_summary_quiet _ _ results s') as [Hres Hlog];
           destruct (logging_only_quiet _ Hlog) as [Hcsv Hrun]
       end.
  all: intros _.
  all: match goal with
       | Hu : result (run_updates _ _ _ _ _ _ _ _ _ _ _) = Return ?results
         |- _ =>
           pose proof (run_updates_produced _ _ _ _ _ _ _ _ _ _ _ _ Hu);
           exists pairs, results
       end.
  all: split; [reflexivity|].
  all: split; [assumption|].
  all: rewrite !csv_written_app, !browser_runs_app, Hcsv, Hrun.
  all: split; reflexivity.
Qed.

(** X22 on the example machine and the example console. *)
Lemma run_pairs_files_written_witness :
  let r := run_pairs example_host example_site ["E1=P1"; " E2 = P2 "]
             "config.yaml" None true false None None None (Some "audit.csv")
             0 0 (tt, console_with example_employees 0) in
  exists pairs results,
    _parse_pairs ["E1=P1"; " E2 = P2 "] = Returned pairs /\
    Forall2 (produced false) pairs results /\
    browser_runs (cli_trace r) = [None] /\
    csv_written (cli_trace r) =
    if negb (given (Some "audit.csv")) then []
    else [(or_empty (Some "audit.csv"), audit_rows results)].
Proof.
  apply (run_pairs_files_written example_host example_site
           ["E1=P1"; " E2 = P2 "] "config.yaml" None true false None None None
           (Some "audit.csv") 0 0 (tt, console_with example_employees 0)).
  vm_compute. reflexivity.
Defined.
